(** * Tegra PMC power domains and MC hot reset: a shallow embedding

    The driver code of [drivers/soc/tegra/pmc.c] and the Tegra114
    memory-controller hot-reset code, written as functions over an
    explicit history of the calls the driver makes to the rest of the
    kernel and to the hardware.  Debug logging ([dev_dbg]) is left out;
    every other call of the modelled functions appears in the history. *)

From Stdlib Require Import ZArith List Bool Lia.
From Stdlib Require String.
Import ListNotations.
Local Open Scope Z_scope.

(** ** Machine values *)

(** A [u32] value is kept as its residue modulo 2^32. *)
Definition u32 (z : Z) : Z := z mod 2 ^ 32.

(** Pointers are kept as integers: 0 is the null pointer, a negative value
    [-e] is the error pointer [ERR_PTR(-e)], a positive value is an object. *)
Definition ptr := Z.
Definition NULL : ptr := 0.
Definition IS_ERR (p : ptr) : bool := p <? 0.
Definition PTR_ERR (p : ptr) : Z := p.

(** Modelled from the spec: the macro [BIT] of linux/bitops.h, which is not
    part of the sources; the spec speaks of the single bit with the given
    index, [1 << n]. *)
Definition BIT (n : Z) : Z := Z.shiftl 1 n.

(** Modelled from the spec: the macro [DIV_ROUND_UP] of linux/kernel.h,
    which is not part of the sources; the spec says that the timing value
    is obtained by dividing and rounding up, twice.  This is the macro on
    integers without bound; [DIV_ROUND_UP_ulong] below is the macro on the
    type the driver applies it to. *)
Definition DIV_ROUND_UP (n d : Z) : Z := (n + d - 1) / d.

(** ** What the driver takes from headers outside the sources

    The partition numbers of soc/tegra/pmc.h, two errno values and the
    jiffies helpers are not defined in the sources; the model takes them
    as one parameter. *)
Record headers := {
  EINVAL : Z;
  ETIMEDOUT : Z;
  TEGRA_POWERGATE_CPU : Z;
  TEGRA_POWERGATE_3D : Z;
  TEGRA_POWERGATE_PCIE : Z;
  TEGRA_POWERGATE_VDEC : Z;
  TEGRA_POWERGATE_CPU1 : Z;
  TEGRA_POWERGATE_CPU2 : Z;
  TEGRA_POWERGATE_CPU3 : Z;
  TEGRA_POWERGATE_CPU0 : Z;
  TEGRA_POWERGATE_C0NC : Z;
  TEGRA_POWERGATE_IRAM : Z;
  time_before : Z -> Z -> bool;
  time_after : Z -> Z -> bool;
  msecs_to_jiffies : Z -> Z
}.

(** ** Register offsets (from the sources) *)

Definition DPD_SAMPLE : Z := 0x020.
Definition DPD_SAMPLE_ENABLE : Z := Z.shiftl 1 0.
Definition DPD_SAMPLE_DISABLE : Z := Z.shiftl 0 0.
Definition PWRGATE_TOGGLE : Z := 0x30.
Definition PWRGATE_TOGGLE_START : Z := Z.shiftl 1 8.
Definition REMOVE_CLAMPING : Z := 0x34.
Definition PWRGATE_STATUS : Z := 0x38.
Definition IO_DPD_REQ : Z := 0x1b8.
Definition IO_DPD_REQ_CODE_OFF : Z := Z.shiftl 1 30.
Definition IO_DPD_REQ_CODE_ON : Z := Z.shiftl 2 30.
Definition IO_DPD_REQ_CODE_MASK : Z := Z.shiftl 3 30.
Definition IO_DPD_STATUS : Z := 0x1bc.
Definition IO_DPD2_REQ : Z := 0x1c0.
Definition IO_DPD2_STATUS : Z := 0x1c4.
Definition SEL_DPD_TIM : Z := 0x1c8.
Definition GPU_RG_CNTRL : Z := 0x2d4.

Definition MAX_CLK_NUM : nat := 5.
Definition MAX_RESET_NUM : nat := 5.
Definition MAX_SWGROUP_NUM : nat := 5.

(** ** Data *)

Record tegra_pmc_soc := {
  num_powergates : Z;
  has_tsense_reset : bool;
  has_gpu_clamps : bool;
  is_legacy_powergate : bool
}.

(** [struct tegra_powergate].  The three arrays have [MAX_*_NUM] slots in
    the sources and the structure is zero-allocated: a slot beyond the end
    of the list reads as [NULL]. *)
Record tegra_powergate := {
  id : Z;
  of_node : ptr;
  clk : list ptr;
  reset : list ptr;
  swgroup : list ptr;
  is_vdd : bool;
  vdd : ptr
}.

Definition set_vdd (pg : tegra_powergate) (v : ptr) : tegra_powergate :=
  {| id := id pg; of_node := of_node pg; clk := clk pg; reset := reset pg;
     swgroup := swgroup pg; is_vdd := is_vdd pg; vdd := v |}.

Record tegra_mc_hotreset := {
  hr_swgroup : Z;
  ctrl : Z;
  status : Z;
  bit : Z
}.

(** ** The world outside the driver *)

Inductive window :=
| PMC
| MC (mc : ptr).

Inductive call :=
| readl (w : window) (offset : Z)
| writel (w : window) (value offset : Z)
| udelay (usecs : Z)
| usleep_range (lo hi : Z)
| jiffies
| mutex_lock (w : window)
| mutex_unlock (w : window)
| clk_prepare_enable (c : ptr)
| clk_disable_unprepare (c : ptr)
| reset_control_assert (r : ptr)
| reset_control_deassert (r : ptr)
| regulator_enable (r : ptr)
| regulator_disable (r : ptr)
| of_find_device_by_node (node : ptr)
| devm_regulator_get_optional (pdev : ptr)
| tegra_mc_flush (sg : ptr)
| tegra_mc_flush_done (sg : ptr)
| clk_get_sys_pclk
| clk_get_rate (c : ptr)
| clk_put (c : ptr).

(** A history lists the calls made so far, oldest first, each with the
    value it returned (0 for a call that returns nothing). *)
Definition event : Type := call * Z.
Definition trace := list event.

(** The environment decides what a call returns, knowing the history. *)
Definition env := trace -> call -> Z.

(** ** The monad of driver code

    A computation extends the history and returns a value, or is still
    inside a polling loop when its fuel runs out ([Spin]), or has divided
    by zero ([Fault]): C gives such a division no result, and the model
    says nothing of what the driver does after it. *)
Inductive result (A : Type) :=
| Ok (a : A) (t : trace)
| Spin
| Fault.
Arguments Ok {A} a t.
Arguments Spin {A}.
Arguments Fault {A}.

Definition M (A : Type) := trace -> result A.

Definition ret {A} (a : A) : M A := fun t => Ok a t.

Definition bind {A B} (m : M A) (f : A -> M B) : M B :=
  fun t => match m t with
           | Ok a t' => f a t'
           | Spin => Spin
           | Fault => Fault
           end.

Definition spin {A} : M A := fun _ => Spin.

Definition fault {A} : M A := fun _ => Fault.

(** [unsigned long] has 32 bits on the chips of the tables of the sources
    (Tegra20 to Tegra124, 32-bit ARM). *)
Definition ulong (z : Z) : Z := u32 z.

(** Modelled from the spec: the macro [DIV_ROUND_UP] of linux/kernel.h
    with an [unsigned long] divisor, as [tegra_io_rail_prepare] applies
    it: the sum [n + d - 1] is an [unsigned long] and wraps, and a
    division by zero has no result. *)
Definition DIV_ROUND_UP_ulong (n d : Z) : M Z :=
  if d =? 0 then fault else ret (ulong (n + d - 1) / d).

Declare Scope drv_scope.
Delimit Scope drv_scope with drv.
Notation "x <- m ;; k" := (bind m (fun x => k))
  (at level 61, m at next level, right associativity) : drv_scope.
Notation "m ;; k" := (bind m (fun _ => k))
  (at level 61, right associativity) : drv_scope.
Local Open Scope drv_scope.

Section Driver.

Variable H : headers.
Variable E : env.

(** A call whose result is used as it comes. *)
Definition sys (c : call) : M Z :=
  fun t => let r := E t c in Ok r (t ++ [(c, r)]).

(** A call that returns nothing. *)
Definition sys_void (c : call) : M unit :=
  fun t => Ok tt (t ++ [(c, 0)]).

(** A 32-bit register read. *)
Definition sys_u32 (c : call) : M Z :=
  fun t => let r := u32 (E t c) in Ok r (t ++ [(c, r)]).

Definition tegra_pmc_readl (offset : Z) : M Z := sys_u32 (readl PMC offset).

Definition tegra_pmc_writel (value offset : Z) : M unit :=
  sys_void (writel PMC (u32 value) offset).

Definition mc_readl (mc : ptr) (offset : Z) : M Z := sys_u32 (readl (MC mc) offset).

Definition mc_writel (mc : ptr) (value offset : Z) : M unit :=
  sys_void (writel (MC mc) (u32 value) offset).

(** *** Power-gate primitive *)

Definition tegra_powergate_set (id : Z) (new_state : bool) : M Z :=
  sys_void (mutex_lock PMC) ;;
  v <- tegra_pmc_readl PWRGATE_STATUS ;;
  let status := negb (Z.land v (Z.shiftl 1 id) =? 0) in
  if Bool.eqb status new_state then
    sys_void (mutex_unlock PMC) ;; ret 0
  else
    tegra_pmc_writel (Z.lor PWRGATE_TOGGLE_START id) PWRGATE_TOGGLE ;;
    sys_void (mutex_unlock PMC) ;;
    ret 0.

(** The loop [while (time_before(jiffies, timeout)) { ... }] of
    [tegra_pmc_powergate_set]; the result is the value of [err] at its
    exit. *)
Fixpoint powergate_set_wait (fuel : nat) (id mask timeout : Z) : M Z :=
  match fuel with
  | O => spin
  | S fuel' =>
      j <- sys jiffies ;;
      if time_before H j timeout then
        status <- tegra_pmc_readl PWRGATE_STATUS ;;
        if Z.land status (BIT id) =? mask then ret 0
        else
          sys_void (usleep_range 10 20) ;;
          powergate_set_wait fuel' id mask timeout
      else ret (- ETIMEDOUT H)
  end.

Definition tegra_pmc_powergate_set (fuel : nat) (powergate : tegra_powergate)
    (new_state : bool) : M Z :=
  let mask := if new_state then BIT (id powergate) else 0 in
  sys_void (mutex_lock PMC) ;;
  status <- tegra_pmc_readl PWRGATE_STATUS ;;
  let state := negb (Z.land status (BIT (id powergate)) =? 0) in
  if Bool.eqb new_state state then
    sys_void (mutex_unlock PMC) ;; ret 0
  else
    tegra_pmc_writel (Z.lor PWRGATE_TOGGLE_START (id powergate)) PWRGATE_TOGGLE ;;
    j <- sys jiffies ;;
    let timeout := j + msecs_to_jiffies H 50 in
    err <- powergate_set_wait fuel (id powergate) mask timeout ;;
    sys_void (mutex_unlock PMC) ;;
    ret err.

(** The conversion of the [unsigned int] partition number to the [int]
    parameter of [tegra_powergate_remove_clamping]. *)
Definition to_int (z : Z) : Z :=
  if u32 z <? 2 ^ 31 then u32 z else u32 z - 2 ^ 32.

(** [pmc->soc] is null when no PMC node was matched at early boot. *)
Definition tegra_powergate_remove_clamping (soc : option tegra_pmc_soc)
    (id : Z) : M Z :=
  match soc with
  | None => ret (- EINVAL H)
  | Some s =>
      if (id <? 0) || (num_powergates s <=? u32 id) then ret (- EINVAL H)
      else if (id =? TEGRA_POWERGATE_3D H) && has_gpu_clamps s then
        tegra_pmc_writel 0 GPU_RG_CNTRL ;; ret 0
      else
        let mask :=
          if id =? TEGRA_POWERGATE_VDEC H then Z.shiftl 1 (TEGRA_POWERGATE_PCIE H)
          else if id =? TEGRA_POWERGATE_PCIE H then Z.shiftl 1 (TEGRA_POWERGATE_VDEC H)
          else Z.shiftl 1 id in
        tegra_pmc_writel mask REMOVE_CLAMPING ;; ret 0
  end.

(** *** Resource bundles *)

(** [while (i--) clk_disable_unprepare(powergate->clk[i]);] *)
Fixpoint enable_clocks_out (i : nat) (powergate : tegra_powergate) : M unit :=
  match i with
  | O => ret tt
  | S j =>
      sys_void (clk_disable_unprepare (nth j (clk powergate) NULL)) ;;
      enable_clocks_out j powergate
  end.

(** The [for] loop of [tegra_pmc_powergate_enable_clocks], entered at index
    [i] with [n] iterations left before [i] reaches [MAX_CLK_NUM]. *)
Fixpoint enable_clocks_for (n i : nat) (powergate : tegra_powergate) : M Z :=
  match n with
  | O => ret 0
  | S n' =>
      let c := nth i (clk powergate) NULL in
      if c =? NULL then ret 0
      else
        err <- sys (clk_prepare_enable c) ;;
        if err =? 0 then enable_clocks_for n' (S i) powergate
        else enable_clocks_out i powergate ;; ret err
  end.

Definition tegra_pmc_powergate_enable_clocks (powergate : tegra_powergate) : M Z :=
  enable_clocks_for MAX_CLK_NUM 0 powergate.

Fixpoint disable_clocks_for (n i : nat) (powergate : tegra_powergate) : M unit :=
  match n with
  | O => ret tt
  | S n' =>
      let c := nth i (clk powergate) NULL in
      if c =? NULL then ret tt
      else
        sys_void (clk_disable_unprepare c) ;;
        disable_clocks_for n' (S i) powergate
  end.

Definition tegra_pmc_powergate_disable_clocks (powergate : tegra_powergate) : M unit :=
  disable_clocks_for MAX_CLK_NUM 0 powergate.

(** The four loops over swgroups and resets have one shape: stop at the
    first null slot, return the first non-zero result. *)
Fixpoint bundle_for (op : ptr -> call) (n i : nat) (arr : list ptr) : M Z :=
  match n with
  | O => ret 0
  | S n' =>
      let p := nth i arr NULL in
      if p =? NULL then ret 0
      else
        err <- sys (op p) ;;
        if err =? 0 then bundle_for op n' (S i) arr
        else ret err
  end.

Definition tegra_pmc_powergate_mc_flush (powergate : tegra_powergate) : M Z :=
  bundle_for tegra_mc_flush MAX_SWGROUP_NUM 0 (swgroup powergate).

Definition tegra_pmc_powergate_mc_flush_done (powergate : tegra_powergate) : M Z :=
  bundle_for tegra_mc_flush_done MAX_SWGROUP_NUM 0 (swgroup powergate).

Definition tegra_pmc_powergate_reset_assert (powergate : tegra_powergate) : M Z :=
  bundle_for reset_control_assert MAX_RESET_NUM 0 (reset powergate).

Definition tegra_pmc_powergate_reset_deassert (powergate : tegra_powergate) : M Z :=
  bundle_for reset_control_deassert MAX_RESET_NUM 0 (reset powergate).

(** [tegra_powergate_get_regulator] stores the regulator it finds in
    [powergate->vdd]: the descriptor is returned with the error code. *)
Definition tegra_powergate_get_regulator (powergate : tegra_powergate)
    : M (Z * tegra_powergate) :=
  if negb (is_vdd powergate) then ret (- EINVAL H, powergate)
  else if negb (vdd powergate =? NULL) && negb (IS_ERR (vdd powergate)) then
    ret (0, powergate)
  else
    pdev <- sys (of_find_device_by_node (of_node powergate)) ;;
    if pdev =? NULL then ret (- EINVAL H, powergate)
    else
      v <- sys (devm_regulator_get_optional pdev) ;;
      let powergate' := set_vdd powergate v in
      if IS_ERR v then ret (- EINVAL H, powergate')
      else ret (0, powergate').

(** *** Power-domain state machine *)

Definition tegra_pmc_powergate_power_on (soc : tegra_pmc_soc) (fuel : nat)
    (powergate : tegra_powergate) : M (Z * tegra_powergate) :=
  r <- (if is_vdd powergate then
          r <- tegra_powergate_get_regulator powergate ;;
          let (err, powergate') := r in
          if err =? 0 then
            err <- sys (regulator_enable (vdd powergate')) ;;
            ret (err, powergate')
          else ret (err, powergate')
        else
          err <- tegra_pmc_powergate_set fuel powergate true ;;
          ret (err, powergate)) ;;
  let (err, powergate) := r in
  if err <? 0 then ret (err, powergate)
  else
    sys_void (udelay 10) ;;
    err <- (if is_legacy_powergate soc then
              err <- tegra_pmc_powergate_reset_assert powergate ;;
              if err =? 0 then sys_void (udelay 10) ;; ret 0 else ret err
            else ret 0) ;;
    if negb (err =? 0) then ret (err, powergate)
    else
      err <- (if negb (id powergate =? TEGRA_POWERGATE_PCIE H) then
                err <- tegra_pmc_powergate_enable_clocks powergate ;;
                if err =? 0 then sys_void (udelay 10) ;; ret 0 else ret err
              else ret 0) ;;
      if negb (err =? 0) then ret (err, powergate)
      else
        err <- tegra_powergate_remove_clamping (Some soc) (to_int (id powergate)) ;;
        if negb (err =? 0) then ret (err, powergate)
        else
          sys_void (udelay 10) ;;
          err <- tegra_pmc_powergate_reset_deassert powergate ;;
          if negb (err =? 0) then ret (err, powergate)
          else
            sys_void (udelay 10) ;;
            err <- tegra_pmc_powergate_mc_flush_done powergate ;;
            if negb (err =? 0) then ret (err, powergate)
            else
              sys_void (udelay 10) ;;
              (if negb (id powergate =? TEGRA_POWERGATE_PCIE H) then
                 tegra_pmc_powergate_disable_clocks powergate
               else ret tt) ;;
              ret (0, powergate).

(** The [switch] of [tegra_pmc_powergate_power_off]. *)
Definition never_turn_off (id : Z) : bool :=
  (id =? TEGRA_POWERGATE_CPU H) || (id =? TEGRA_POWERGATE_CPU1 H)
  || (id =? TEGRA_POWERGATE_CPU2 H) || (id =? TEGRA_POWERGATE_CPU3 H)
  || (id =? TEGRA_POWERGATE_CPU0 H) || (id =? TEGRA_POWERGATE_C0NC H)
  || (id =? TEGRA_POWERGATE_IRAM H).

Definition tegra_pmc_powergate_power_off (soc : tegra_pmc_soc) (fuel : nat)
    (powergate : tegra_powergate) : M Z :=
  if never_turn_off (id powergate) then ret (- EINVAL H)
  else
    err <- (if negb (is_legacy_powergate soc) then
              err <- tegra_pmc_powergate_enable_clocks powergate ;;
              if negb (err =? 0) then ret err
              else
                sys_void (udelay 10) ;;
                err <- tegra_pmc_powergate_mc_flush powergate ;;
                if negb (err =? 0) then ret err
                else sys_void (udelay 10) ;; ret 0
            else ret 0) ;;
    if negb (err =? 0) then ret err
    else
      err <- tegra_pmc_powergate_reset_assert powergate ;;
      if negb (err =? 0) then ret err
      else
        sys_void (udelay 10) ;;
        (if negb (is_legacy_powergate soc) then
           tegra_pmc_powergate_disable_clocks powergate ;;
           sys_void (udelay 10)
         else ret tt) ;;
        err <- (if negb (vdd powergate =? NULL) then
                  sys (regulator_disable (vdd powergate))
                else tegra_pmc_powergate_set fuel powergate false) ;;
        if negb (err =? 0) then ret err
        else ret 0.

(** *** I/O rail deep power down *)

(** The four results of [tegra_io_rail_prepare]: the error code and the
    values stored through [request], [status] and [bit]. *)
Record io_rail := {
  rail_err : Z;
  rail_request : Z;
  rail_status : Z;
  rail_bit : Z
}.

(** [id] is an [int]; [id % 32] truncates towards zero and the result is
    stored in an [unsigned int].  [rate] and [value] are [unsigned long],
    32 bits wide: the rate is taken modulo 2^32 and the two roundings are
    those of [DIV_ROUND_UP_ulong]. *)
Definition tegra_io_rail_prepare (id : Z) : M io_rail :=
  let bit := u32 (Z.rem id 32) in
  if (id >? 63) || (bit =? 30) || (bit =? 31) then
    ret {| rail_err := - EINVAL H; rail_request := 0; rail_status := 0;
           rail_bit := bit |}
  else
    let status := if id <? 32 then IO_DPD_STATUS else IO_DPD2_STATUS in
    let request := if id <? 32 then IO_DPD_REQ else IO_DPD2_REQ in
    c <- sys clk_get_sys_pclk ;;
    if IS_ERR c then
      ret {| rail_err := PTR_ERR c; rail_request := request;
             rail_status := status; rail_bit := bit |}
    else
      rate <- sys_u32 (clk_get_rate c) ;;
      sys_void (clk_put c) ;;
      tegra_pmc_writel DPD_SAMPLE_ENABLE DPD_SAMPLE ;;
      value <- DIV_ROUND_UP_ulong 1000000000 rate ;;
      value <- DIV_ROUND_UP_ulong 200 value ;;
      tegra_pmc_writel value SEL_DPD_TIM ;;
      ret {| rail_err := 0; rail_request := request; rail_status := status;
             rail_bit := bit |}.

(** The loop of [tegra_io_rail_poll], after [timeout] has been turned into
    a deadline. *)
Fixpoint io_rail_poll_while (fuel : nat) (offset mask val timeout : Z) : M Z :=
  match fuel with
  | O => spin
  | S fuel' =>
      j <- sys jiffies ;;
      if time_after H timeout j then
        value <- tegra_pmc_readl offset ;;
        if Z.land value mask =? val then ret 0
        else
          sys_void (usleep_range 250 1000) ;;
          io_rail_poll_while fuel' offset mask val timeout
      else ret (- ETIMEDOUT H)
  end.

Definition tegra_io_rail_poll (fuel : nat) (offset mask val timeout : Z) : M Z :=
  j <- sys jiffies ;;
  let timeout := j + msecs_to_jiffies H timeout in
  io_rail_poll_while fuel offset mask val timeout.

Definition tegra_io_rail_unprepare : M unit :=
  tegra_pmc_writel DPD_SAMPLE_DISABLE DPD_SAMPLE.

(** [tegra_io_rail_power_on] and [tegra_io_rail_power_off] differ in the
    request code they write and in the status value they wait for. *)
Definition io_rail_request (fuel : nat) (id code : Z) (expect : Z -> Z) : M Z :=
  r <- tegra_io_rail_prepare id ;;
  if rail_err r <? 0 then ret (rail_err r)
  else
    let mask := u32 (Z.shiftl 1 (rail_bit r)) in
    value <- tegra_pmc_readl (rail_request r) ;;
    let value := Z.lor value mask in
    let value := Z.land value (Z.lnot IO_DPD_REQ_CODE_MASK) in
    let value := Z.lor value code in
    tegra_pmc_writel value (rail_request r) ;;
    err <- tegra_io_rail_poll fuel (rail_status r) mask (expect mask) 250 ;;
    if err <? 0 then ret err
    else tegra_io_rail_unprepare ;; ret 0.

Definition tegra_io_rail_power_on (fuel : nat) (id : Z) : M Z :=
  io_rail_request fuel id IO_DPD_REQ_CODE_OFF (fun _ => 0).

Definition tegra_io_rail_power_off (fuel : nat) (id : Z) : M Z :=
  io_rail_request fuel id IO_DPD_REQ_CODE_ON (fun mask => mask).

(** *** Memory-controller hot reset (Tegra114) *)

(** The [for] loop of [tegra114_stable_hotreset_check] with [n] reads left;
    [cur_stat] is the value of the last read.  The result is [None] when a
    read differs from [prv_stat]. *)
Fixpoint stable_hotreset_for (n : nat) (mc : ptr) (reg prv_stat cur_stat : Z)
    : M (option Z) :=
  match n with
  | O => ret (Some cur_stat)
  | S n' =>
      cur_stat <- mc_readl mc reg ;;
      if negb (cur_stat =? prv_stat) then ret None
      else stable_hotreset_for n' mc reg prv_stat cur_stat
  end.

(** Returns [(true, v)] with [v] stored through [stat], or [(false, stat)]
    with the caller's value untouched. *)
Definition tegra114_stable_hotreset_check (mc : ptr) (reg stat : Z)
    : M (bool * Z) :=
  prv_stat <- mc_readl mc reg ;;
  r <- stable_hotreset_for 5 mc reg prv_stat 0 ;;
  match r with
  | Some cur_stat => ret (true, cur_stat)
  | None => ret (false, stat)
  end.

(** The [do ... while] loop of [tegra114_mc_flush]; [continue] jumps to the
    test with [val] still 0. *)
Fixpoint mc_flush_poll (fuel : nat) (mc : ptr) (hotreset : tegra_mc_hotreset)
    : M unit :=
  match fuel with
  | O => spin
  | S fuel' =>
      sys_void (udelay 10) ;;
      r <- tegra114_stable_hotreset_check mc (status hotreset) 0 ;;
      let val := snd r in
      if Z.land val (BIT (bit hotreset)) =? 0 then mc_flush_poll fuel' mc hotreset
      else ret tt
  end.

Definition tegra114_mc_flush (fuel : nat) (mc : ptr)
    (hotreset : option tegra_mc_hotreset) : M Z :=
  match hotreset with
  | None => ret (- EINVAL H)
  | Some hr =>
      if mc =? NULL then ret (- EINVAL H)
      else
        sys_void (mutex_lock (MC mc)) ;;
        val <- mc_readl mc (ctrl hr) ;;
        let val := Z.lor val (BIT (bit hr)) in
        mc_writel mc val (ctrl hr) ;;
        _ <- mc_readl mc (ctrl hr) ;;
        mc_flush_poll fuel mc hr ;;
        sys_void (mutex_unlock (MC mc)) ;;
        ret 0
  end.

Definition tegra114_mc_flush_done (mc : ptr)
    (hotreset : option tegra_mc_hotreset) : M Z :=
  match hotreset with
  | None => ret (- EINVAL H)
  | Some hr =>
      if mc =? NULL then ret (- EINVAL H)
      else
        sys_void (mutex_lock (MC mc)) ;;
        val <- mc_readl mc (ctrl hr) ;;
        let val := Z.land val (Z.lnot (BIT (bit hr))) in
        mc_writel mc val (ctrl hr) ;;
        _ <- mc_readl mc (ctrl hr) ;;
        sys_void (mutex_unlock (MC mc)) ;;
        ret 0
  end.

End Driver.

(** ** The sequences as lists of steps

    A second description of the two domain transitions, as the
    specification words them: a list of steps run in order, each result
    checked, the first failure returned at once.  The bundles are the
    registered handles, that is the slots before the first null one. *)

Fixpoint bundle (n : nat) (arr : list ptr) : list ptr :=
  match n, arr with
  | S n', p :: arr' => if p =? NULL then [] else p :: bundle n' arr'
  | _, _ => []
  end.

Section Sequences.

Variable H : headers.
Variable E : env.

(** Apply [op] to the handles in list order; stop at the first failure. *)
Fixpoint in_order (op : ptr -> call) (l : list ptr) : M Z :=
  match l with
  | [] => ret 0
  | p :: l' =>
      err <- sys E (op p) ;;
      if err =? 0 then in_order op l' else ret err
  end.

(** Apply an operation that cannot fail to the handles in list order. *)
Fixpoint in_order_void (op : ptr -> call) (l : list ptr) : M unit :=
  match l with
  | [] => ret tt
  | p :: l' => sys_void (op p) ;; in_order_void op l'
  end.

(** Enable the clocks of [l] in order; [enabled] holds the clocks enabled
    so far, latest first.  On the first failure the enabled clocks are
    disabled, latest first, and the error is returned. *)
Fixpoint enable_bundle (enabled l : list ptr) : M Z :=
  match l with
  | [] => ret 0
  | c :: l' =>
      err <- sys E (clk_prepare_enable c) ;;
      if err =? 0 then enable_bundle (c :: enabled) l'
      else in_order_void clk_disable_unprepare enabled ;; ret err
  end.

Record step := {
  action : M Z;
  failed : Z -> bool
}.

(** A step whose result is checked: any non-zero result is a failure. *)
Definition checked (m : M Z) : step :=
  {| action := m; failed := fun err => negb (err =? 0) |}.

(** A step that cannot fail. *)
Definition quiet (m : M unit) : step :=
  {| action := (m ;; ret 0); failed := fun _ => false |}.

Definition settle : step := quiet (sys_void (udelay 10)).

Fixpoint run_steps (l : list step) : M Z :=
  match l with
  | [] => ret 0
  | s :: l' =>
      err <- action s ;;
      if failed s err then ret err else run_steps l'
  end.

Definition clocks_of (pg : tegra_powergate) := bundle MAX_CLK_NUM (clk pg).
Definition resets_of (pg : tegra_powergate) := bundle MAX_RESET_NUM (reset pg).
Definition swgroups_of (pg : tegra_powergate) := bundle MAX_SWGROUP_NUM (swgroup pg).

(** Step 1 of power-on: the regulator is acquired and enabled, or the
    partition is switched on. *)
Definition power_up (fuel : nat) (pg : tegra_powergate) : M (Z * tegra_powergate) :=
  if is_vdd pg then
    r <- tegra_powergate_get_regulator H E pg ;;
    if fst r =? 0 then
      err <- sys E (regulator_enable (vdd (snd r))) ;;
      ret (err, snd r)
    else ret r
  else
    err <- tegra_pmc_powergate_set H E fuel pg true ;;
    ret (err, pg).

(** Steps 2 to 8 of power-on; [disable_order] is the order in which step 8
    walks the clocks. *)
Definition power_on_steps (disable_order : list ptr -> list ptr)
    (soc : tegra_pmc_soc) (pg : tegra_powergate) : list step :=
  let pcie := id pg =? TEGRA_POWERGATE_PCIE H in
  [settle]
  ++ (if is_legacy_powergate soc
      then [checked (in_order reset_control_assert (resets_of pg)); settle]
      else [])
  ++ (if pcie then []
      else [checked (enable_bundle [] (clocks_of pg)); settle])
  ++ [checked (tegra_powergate_remove_clamping H (Some soc) (to_int (id pg)));
      settle;
      checked (in_order reset_control_deassert (resets_of pg));
      settle;
      checked (in_order tegra_mc_flush_done (swgroups_of pg));
      settle]
  ++ (if pcie then []
      else [quiet (in_order_void clk_disable_unprepare (disable_order (clocks_of pg)))]).

Definition power_on_sequence (disable_order : list ptr -> list ptr)
    (soc : tegra_pmc_soc) (fuel : nat) (pg : tegra_powergate)
    : M (Z * tegra_powergate) :=
  r <- power_up fuel pg ;;
  if fst r <? 0 then ret r
  else
    err <- run_steps (power_on_steps disable_order soc (snd r)) ;;
    ret (err, snd r).

(** Power-on as the specification has it: step 8 disables the clocks in
    reverse order. *)
Definition power_on_as_specified := power_on_sequence (@rev ptr).

(** Power-on with step 8 in registration order. *)
Definition power_on_in_order := power_on_sequence (fun l => l).

(** The last step of power-off; [use_regulator] says whether the regulator
    is the one to switch off. *)
Definition power_down (use_regulator : tegra_powergate -> bool) (fuel : nat)
    (pg : tegra_powergate) : M Z :=
  if use_regulator pg then sys E (regulator_disable (vdd pg))
  else tegra_pmc_powergate_set H E fuel pg false.

Definition power_off_steps (use_regulator : tegra_powergate -> bool)
    (soc : tegra_pmc_soc) (fuel : nat) (pg : tegra_powergate) : list step :=
  let modern := negb (is_legacy_powergate soc) in
  (if modern
   then [checked (enable_bundle [] (clocks_of pg)); settle;
         checked (in_order tegra_mc_flush (swgroups_of pg)); settle]
   else [])
  ++ [checked (in_order reset_control_assert (resets_of pg)); settle]
  ++ (if modern
      then [quiet (in_order_void clk_disable_unprepare (clocks_of pg)); settle]
      else [])
  ++ [checked (power_down use_regulator fuel pg)].

Definition power_off_sequence (use_regulator : tegra_powergate -> bool)
    (soc : tegra_pmc_soc) (fuel : nat) (pg : tegra_powergate) : M Z :=
  if never_turn_off H (id pg) then ret (- EINVAL H)
  else run_steps (power_off_steps use_regulator soc fuel pg).

(** Power-off as the specification has it: the last step looks at the
    external-regulator flag of the domain. *)
Definition power_off_as_specified := power_off_sequence is_vdd.

(** Power-off with the last step looking at the regulator handle. *)
Definition power_off_by_handle :=
  power_off_sequence (fun pg => negb (vdd pg =? NULL)).

End Sequences.

(** Modelled from the spec: the error kinds of its section on error
    handling, which the sources do not name.  The spec calls the result of
    the sites that return [-EINVAL] (bad id, null descriptor) InvalidArgument
    and the result of an expired polling loop, [-ETIMEDOUT], Timeout; no
    errno of the sources stands for Unsupported. *)
Inductive error_kind :=
| InvalidArgument
| Timeout
| Unsupported.

Definition error_kind_of (H : headers) (err : Z) : option error_kind :=
  if err =? - EINVAL H then Some InvalidArgument
  else if err =? - ETIMEDOUT H then Some Timeout
  else None.

(** Exact ceiling of the quotient [a / b], from the Euclidean division. *)
Definition ceil_div (a b : Z) : Z :=
  let (q, r) := Z.div_eucl a b in
  if r =? 0 then q else q + 1.

(** ** Observations on histories *)

Definition window_eqb (a b : window) : bool :=
  match a, b with
  | PMC, PMC => true
  | MC x, MC y => x =? y
  | _, _ => false
  end.

Definition is_sleep (e : event) : bool :=
  match fst e with
  | usleep_range _ _ => true
  | _ => false
  end.

Definition is_write_to (w : window) (offset : Z) (e : event) : bool :=
  match fst e with
  | writel w' _ offset' => window_eqb w w' && (offset =? offset')
  | _ => false
  end.

Definition is_read_of (w : window) (offset : Z) (e : event) : bool :=
  match fst e with
  | readl w' offset' => window_eqb w w' && (offset =? offset')
  | _ => false
  end.

Definition is_write (e : event) : bool :=
  match fst e with
  | writel _ _ _ => true
  | _ => false
  end.

Definition count (p : event -> bool) (t : trace) : nat := length (filter p t).

(** Number of polling sleeps in a history. *)
Definition sleeps (t : trace) : nat := count is_sleep t.

(** Number of writes to the toggle register in a history. *)
Definition toggle_writes (t : trace) : nat := count (is_write_to PMC PWRGATE_TOGGLE) t.

(** The jiffies clock passes a deadline set [ms] milliseconds ahead once [n]
    polling sleeps have been taken; [pending j timeout] is the loop test. *)
Definition clock_expires (H : headers) (E : env) (pending : Z -> Z -> bool)
    (n : nat) (ms : Z) : Prop :=
  forall t0 t, sleeps t = n ->
    pending (E (t0 ++ t) jiffies) (E t0 jiffies + msecs_to_jiffies H ms) = false.

(** The events of a polling loop that tests the deadline, reads the
    register at [offset], and sleeps between two reads; the second index is
    the value the loop leaves in [err]. *)
Inductive poll_history (pending : Z -> bool) (offset : Z) (done : Z -> bool)
    (lo hi timed_out : Z) : trace -> Z -> Prop :=
| poll_expired j :
    pending j = false ->
    poll_history pending offset done lo hi timed_out [(jiffies, j)] timed_out
| poll_done j v :
    pending j = true -> done v = true ->
    poll_history pending offset done lo hi timed_out
      [(jiffies, j); (readl PMC offset, v)] 0
| poll_again j v rest err :
    pending j = true -> done v = false ->
    poll_history pending offset done lo hi timed_out rest err ->
    poll_history pending offset done lo hi timed_out
      ((jiffies, j) :: (readl PMC offset, v) :: (usleep_range lo hi, 0) :: rest) err.

(** ** A simulated board

    An environment to run the driver on.  The partition numbers are those
    of the header soc/tegra/pmc.h of the kernel tree, the errno values those
    of the generic errno headers; jiffies are compared by signed difference
    and one jiffy is 10 ms.  On the board a toggle command takes effect at
    once when [gates_respond] holds, the jiffies counter advances by one at
    each polling sleep, and the [n]-th read of the memory-controller register at
    [offset] returns [mc_reads offset n]. *)

Definition linux_headers : headers := {|
  EINVAL := 22;
  ETIMEDOUT := 110;
  TEGRA_POWERGATE_CPU := 0;
  TEGRA_POWERGATE_3D := 1;
  TEGRA_POWERGATE_PCIE := 3;
  TEGRA_POWERGATE_VDEC := 4;
  TEGRA_POWERGATE_CPU1 := 9;
  TEGRA_POWERGATE_CPU2 := 10;
  TEGRA_POWERGATE_CPU3 := 11;
  TEGRA_POWERGATE_CPU0 := 14;
  TEGRA_POWERGATE_C0NC := 15;
  TEGRA_POWERGATE_IRAM := 24;
  time_before := fun a b => to_int (a - b) <? 0;
  time_after := fun a b => to_int (b - a) <? 0;
  msecs_to_jiffies := fun m => (m + 9) / 10
|}.

(** The Tegra20 and Tegra124 entries of the sources; [num_powergates] is
    the size of the name table, one more than its largest index. *)
Definition tegra20_pmc_soc : tegra_pmc_soc := {|
  num_powergates := 7;
  has_tsense_reset := false;
  has_gpu_clamps := false;
  is_legacy_powergate := true
|}.

Definition tegra124_pmc_soc : tegra_pmc_soc := {|
  num_powergates := 25;
  has_tsense_reset := true;
  has_gpu_clamps := true;
  is_legacy_powergate := false
|}.

Record board := {
  power_status : Z;
  gates_respond : bool;
  mc_reads : Z -> nat -> Z;
  broken_clock : ptr;
  pclk_rate : Z
}.

(** The status word after the toggle commands of a history. *)
Definition status_after (b : board) (t : trace) : Z :=
  fold_left
    (fun s e =>
       match fst e with
       | writel PMC v offset =>
           if (offset =? PWRGATE_TOGGLE) && gates_respond b
           then Z.lxor s (Z.shiftl 1 (Z.land v 0xff))
           else s
       | _ => s
       end)
    t (power_status b).

Definition run_board (b : board) : env :=
  fun t c =>
    match c with
    | readl PMC offset =>
        if offset =? PWRGATE_STATUS then status_after b t else 0
    | readl (MC m) offset => mc_reads b offset (count (is_read_of (MC m) offset) t)
    | jiffies => Z.of_nat (sleeps t)
    | clk_prepare_enable p => if p =? broken_clock b then -5 else 0
    | of_find_device_by_node node => if node =? NULL then NULL else 500
    | devm_regulator_get_optional _ => 600
    | clk_get_sys_pclk => 77
    | clk_get_rate _ => pclk_rate b
    | _ => 0
    end.

(** A board with every partition off, responsive gates, a memory
    controller that reads zero and a 408 MHz reference clock. *)
Definition quiet_board : board := {|
  power_status := 0;
  gates_respond := true;
  mc_reads := fun _ _ => 0;
  broken_clock := NULL;
  pclk_rate := 408000000
|}.

(** A domain of the simulated board: the 3D partition with two clocks, one
    reset and one swgroup. *)
Definition gpu_domain : tegra_powergate := {|
  id := 1;
  of_node := 40;
  clk := [11; 12];
  reset := [21];
  swgroup := [31];
  is_vdd := false;
  vdd := NULL
|}.

(** A board whose hot-reset status register, at offset 0x204, returns
    four different values and then settles on 4, that is bit 2. *)
Definition glitchy_board : board := {|
  power_status := 0;
  gates_respond := true;
  mc_reads := fun offset n =>
    if offset =? 0x204
    then match n with
         | 0%nat => 1 | 1%nat => 2 | 2%nat => 3 | 3%nat => 5 | _ => 4
         end
    else 0;
  broken_clock := NULL;
  pclk_rate := 408000000
|}.

(** The hot-reset entry of the display controller in the Tegra114 table of
    the sources: control register 0x200, status register 0x204, bit 2. *)
Definition dc_hotreset : tegra_mc_hotreset := {|
  hr_swgroup := 1;
  ctrl := 0x200;
  status := 0x204;
  bit := 2
|}.

(** The always-on CPU rail partition. *)
Definition cpu_domain : tegra_powergate := {|
  id := 0;
  of_node := 41;
  clk := [];
  reset := [22];
  swgroup := [];
  is_vdd := false;
  vdd := NULL
|}.

(** A domain fed by an external regulator, as registration leaves it when
    the regulator could not be looked up: the flag is set, the handle is
    null. *)
Definition rail_domain : tegra_powergate := {|
  id := 1;
  of_node := 42;
  clk := [11; 12];
  reset := [21];
  swgroup := [31];
  is_vdd := true;
  vdd := NULL
|}.

(** A board whose 3D partition is on and whose gates do not respond. *)
Definition stuck_board : board := {|
  power_status := 2;
  gates_respond := false;
  mc_reads := fun _ _ => 0;
  broken_clock := NULL;
  pclk_rate := 408000000
|}.

(** A board whose 3D partition is on and whose gates respond. *)
Definition running_board : board := {|
  power_status := 2;
  gates_respond := true;
  mc_reads := fun _ _ => 0;
  broken_clock := NULL;
  pclk_rate := 408000000
|}.

(** A board whose reference clock reports 4 GHz. *)
Definition fast_clock_board : board := {|
  power_status := 0;
  gates_respond := true;
  mc_reads := fun _ _ => 0;
  broken_clock := NULL;
  pclk_rate := 4000000000
|}.

(** A board on which the clock 12 cannot be enabled. *)
Definition broken_clock_board : board := {|
  power_status := 0;
  gates_respond := true;
  mc_reads := fun _ _ => 0;
  broken_clock := 12;
  pclk_rate := 408000000
|}.

(** ** The rest of the driver

    The functions of the two files that the domain transitions do not call.
    What they read from the device tree is an input of the model: each
    [of_property_read_*] call is given by the value it returns, [None] for
    an error; reference counting of device-tree nodes ([of_node_put]), the
    write barrier and the warnings are left out, like the debug logging. *)

(** More of the headers outside the sources: an errno value, the suspend
    modes of soc/tegra/pmc.h, the validation of the suspend mode by the
    machine code, and the 64-bit division of [do_div] with its divisor
    [USEC_PER_SEC]. *)
Record more_headers := {
  ENOENT : Z;
  TEGRA_SUSPEND_NONE : Z;
  TEGRA_SUSPEND_LP2 : Z;
  TEGRA_SUSPEND_LP1 : Z;
  TEGRA_SUSPEND_LP0 : Z;
  TEGRA_MAX_SUSPEND_MODE : Z;
  tegra_pm_validate_suspend_mode : Z -> Z;
  USEC_PER_SEC : Z;
  do_div : Z -> Z -> Z
}.

Definition u64 (z : Z) : Z := z mod 2 ^ 64.

Definition PMC_CNTRL : Z := 0x0.
Definition PMC_CNTRL_SYSCLK_POLARITY : Z := Z.shiftl 1 10.
Definition PMC_CNTRL_SYSCLK_OE : Z := Z.shiftl 1 11.
Definition PMC_CNTRL_SIDE_EFFECT_LP0 : Z := Z.shiftl 1 14.
Definition PMC_CNTRL_CPU_PWRREQ_OE : Z := Z.shiftl 1 16.
Definition PMC_SCRATCH0 : Z := 0x50.
Definition PMC_SCRATCH0_MODE_RECOVERY : Z := Z.shiftl 1 31.
Definition PMC_SCRATCH0_MODE_BOOTLOADER : Z := Z.shiftl 1 30.
Definition PMC_SCRATCH0_MODE_RCM : Z := Z.shiftl 1 1.
Definition PMC_SCRATCH0_MODE_MASK : Z :=
  Z.lor (Z.lor PMC_SCRATCH0_MODE_RECOVERY PMC_SCRATCH0_MODE_BOOTLOADER)
        PMC_SCRATCH0_MODE_RCM.
Definition PMC_CPUPWRGOOD_TIMER : Z := 0xc8.
Definition PMC_CPUPWROFF_TIMER : Z := 0xcc.
Definition PMC_SENSOR_CTRL : Z := 0x1b0.
Definition PMC_SENSOR_CTRL_SCRATCH_WRITE : Z := Z.shiftl 1 2.
Definition PMC_SENSOR_CTRL_ENABLE_RST : Z := Z.shiftl 1 1.
Definition PMC_SCRATCH54 : Z := 0x258.
Definition PMC_SCRATCH54_DATA_SHIFT : Z := 8.
Definition PMC_SCRATCH54_ADDR_SHIFT : Z := 0.
Definition PMC_SCRATCH55 : Z := 0x25c.
Definition PMC_SCRATCH55_RESET_TEGRA : Z := Z.shiftl 1 31.
Definition PMC_SCRATCH55_CNTRL_ID_SHIFT : Z := 27.
Definition PMC_SCRATCH55_PINMUX_SHIFT : Z := 24.
Definition PMC_SCRATCH55_CHECKSUM_SHIFT : Z := 16.
Definition PMC_SCRATCH55_I2CSLV1_SHIFT : Z := 0.

(** The CPU fields of [struct tegra_pmc_soc], beside the fields the domain
    code reads. *)
Record tegra_pmc_soc_cpus := {
  soc_common : tegra_pmc_soc;
  num_cpu_powergates : Z;
  cpu_powergates : list Z
}.

(** The fields of [struct tegra_pmc] that the suspend and set-up code
    reads and writes. *)
Record tegra_pmc := {
  pmc_clk : ptr;
  pmc_rate : Z;
  suspend_mode : Z;
  cpu_good_time : Z;
  cpu_off_time : Z;
  core_osc_time : Z;
  core_pmu_time : Z;
  core_off_time : Z;
  corereq_high : bool;
  sysclkreq_high : bool;
  combined_req : bool;
  cpu_pwr_good_en : bool;
  lp0_vec_phys : Z;
  lp0_vec_size : Z
}.

(** What [tegra_pmc_parse_dt] reads from the PMC node, property by
    property. *)
Record pmc_node := {
  nvidia_suspend_mode : option Z;
  nvidia_cpu_pwr_good_time : option Z;
  nvidia_cpu_pwr_off_time : option Z;
  nvidia_core_pwr_good_time : option (Z * Z);
  nvidia_core_pwr_off_time : option Z;
  nvidia_core_power_req_active_high : bool;
  nvidia_sys_clock_req_active_high : bool;
  nvidia_combined_power_req : bool;
  nvidia_cpu_pwr_good_en : bool;
  nvidia_lp0_vec : option (Z * Z)
}.

(** What [tegra_pmc_init_tsense_reset] reads from the i2c-thermtrip node. *)
Record thermtrip_node := {
  nvidia_i2c_controller_id : option Z;
  nvidia_bus_addr : option Z;
  nvidia_reg_addr : option Z;
  nvidia_reg_data : option Z;
  nvidia_pinmux_id : option Z
}.

(** Writes slot [i] of an array; the slots beyond the list are null. *)
Fixpoint array_set (arr : list ptr) (i : nat) (v : ptr) : list ptr :=
  match i, arr with
  | O, [] => [v]
  | O, _ :: arr' => v :: arr'
  | S i', [] => NULL :: array_set [] i' v
  | S i', a :: arr' => a :: array_set arr' i' v
  end.

Definition set_clk (pg : tegra_powergate) (c : list ptr) : tegra_powergate :=
  {| id := id pg; of_node := of_node pg; clk := c; reset := reset pg;
     swgroup := swgroup pg; is_vdd := is_vdd pg; vdd := vdd pg |}.

Definition set_reset (pg : tegra_powergate) (r : list ptr) : tegra_powergate :=
  {| id := id pg; of_node := of_node pg; clk := clk pg; reset := r;
     swgroup := swgroup pg; is_vdd := is_vdd pg; vdd := vdd pg |}.

Definition set_swgroup (pg : tegra_powergate) (g : list ptr) : tegra_powergate :=
  {| id := id pg; of_node := of_node pg; clk := clk pg; reset := reset pg;
     swgroup := g; is_vdd := is_vdd pg; vdd := vdd pg |}.

Section Platform.

Variable H : headers.
Variable K : more_headers.
Variable E : env.

(** *** Partition queries and the CPU partitions *)

Definition tegra_powergate_is_powered (soc : option tegra_pmc_soc) (id : Z) : M Z :=
  match soc with
  | None => ret (- EINVAL H)
  | Some s =>
      if (id <? 0) || (num_powergates s <=? u32 id) then ret (- EINVAL H)
      else
        v <- tegra_pmc_readl E PWRGATE_STATUS ;;
        let status := Z.land v (u32 (Z.shiftl 1 id)) in
        ret (if status =? 0 then 0 else 1)
  end.

(** The table holds [u8] entries; [cpuid] is an [int]. *)
Definition tegra_get_cpu_powergate_id (soc : option tegra_pmc_soc_cpus)
    (cpuid : Z) : Z :=
  match soc with
  | Some s =>
      if (cpuid >? 0) && (u32 cpuid <? num_cpu_powergates s)
      then nth (Z.to_nat cpuid) (cpu_powergates s) 0
      else - EINVAL H
  | None => - EINVAL H
  end.

Definition tegra_pmc_cpu_is_powered (soc : option tegra_pmc_soc_cpus)
    (cpuid : Z) : M bool :=
  let id := tegra_get_cpu_powergate_id soc cpuid in
  if id <? 0 then ret false
  else
    r <- tegra_powergate_is_powered (option_map soc_common soc) id ;;
    ret (negb (r =? 0)).

Definition tegra_pmc_cpu_power_on (soc : option tegra_pmc_soc_cpus)
    (cpuid : Z) : M Z :=
  let id := tegra_get_cpu_powergate_id soc cpuid in
  if id <? 0 then ret id
  else tegra_powergate_set E id true.

Definition tegra_pmc_cpu_remove_clamping (soc : option tegra_pmc_soc_cpus)
    (cpuid : Z) : M Z :=
  let id := tegra_get_cpu_powergate_id soc cpuid in
  if id <? 0 then ret id
  else
    sys_void (usleep_range 10 20) ;;
    tegra_powergate_remove_clamping H (option_map soc_common soc) id.

End Platform.

(** The reboot commands that [tegra_pmc_restart] compares with. *)
Module RebootCommand.
Import String.
Local Open Scope string_scope.
Definition recovery : string := "recovery".
Definition bootloader : string := "bootloader".
Definition forced_recovery : string := "forced-recovery".
End RebootCommand.

Section Setup.

Variable H : headers.
Variable K : more_headers.
Variable E : env.

(** *** Restart *)

(** [cmd] is the reboot command, [None] for a null pointer; the reboot
    mode is not read. *)
Definition tegra_pmc_restart (cmd : option String.string) : M unit :=
  value <- tegra_pmc_readl E PMC_SCRATCH0 ;;
  let value := Z.land value (Z.lnot PMC_SCRATCH0_MODE_MASK) in
  let value :=
    match cmd with
    | Some c =>
        let value :=
          if String.eqb c RebootCommand.recovery then Z.lor value PMC_SCRATCH0_MODE_RECOVERY
          else value in
        let value :=
          if String.eqb c RebootCommand.bootloader then Z.lor value PMC_SCRATCH0_MODE_BOOTLOADER
          else value in
        if String.eqb c RebootCommand.forced_recovery then Z.lor value PMC_SCRATCH0_MODE_RCM
        else value
    | None => value
    end in
  tegra_pmc_writel value PMC_SCRATCH0 ;;
  value <- tegra_pmc_readl E 0 ;;
  let value := Z.lor value 0x10 in
  tegra_pmc_writel value 0.

(** *** Suspend *)

Definition set_suspend_mode (pmc : tegra_pmc) (mode : Z) : tegra_pmc :=
  {| pmc_clk := pmc_clk pmc; pmc_rate := pmc_rate pmc; suspend_mode := mode;
     cpu_good_time := cpu_good_time pmc; cpu_off_time := cpu_off_time pmc;
     core_osc_time := core_osc_time pmc; core_pmu_time := core_pmu_time pmc;
     core_off_time := core_off_time pmc; corereq_high := corereq_high pmc;
     sysclkreq_high := sysclkreq_high pmc; combined_req := combined_req pmc;
     cpu_pwr_good_en := cpu_pwr_good_en pmc; lp0_vec_phys := lp0_vec_phys pmc;
     lp0_vec_size := lp0_vec_size pmc |}.

Definition set_rate (pmc : tegra_pmc) (rate : Z) : tegra_pmc :=
  {| pmc_clk := pmc_clk pmc; pmc_rate := rate; suspend_mode := suspend_mode pmc;
     cpu_good_time := cpu_good_time pmc; cpu_off_time := cpu_off_time pmc;
     core_osc_time := core_osc_time pmc; core_pmu_time := core_pmu_time pmc;
     core_off_time := core_off_time pmc; corereq_high := corereq_high pmc;
     sysclkreq_high := sysclkreq_high pmc; combined_req := combined_req pmc;
     cpu_pwr_good_en := cpu_pwr_good_en pmc; lp0_vec_phys := lp0_vec_phys pmc;
     lp0_vec_size := lp0_vec_size pmc |}.

Definition tegra_pmc_get_suspend_mode (pmc : tegra_pmc) : Z := suspend_mode pmc.

Definition tegra_pmc_set_suspend_mode (pmc : tegra_pmc) (mode : Z) : tegra_pmc :=
  if (mode <? TEGRA_SUSPEND_NONE K) || (mode >=? TEGRA_MAX_SUSPEND_MODE K) then pmc
  else set_suspend_mode pmc mode.

(** The timer value for a time in microseconds at [rate]: a product and a
    sum in 64 bits, then [do_div]. *)
Definition suspend_ticks (time rate : Z) : Z :=
  do_div K (u64 (time * rate + USEC_PER_SEC K - 1)) (USEC_PER_SEC K).

Definition tegra_pmc_enter_suspend_mode (pmc : tegra_pmc) (mode : Z)
    : M tegra_pmc :=
  rate <- (if mode =? TEGRA_SUSPEND_LP1 K then ret 32768
           else if mode =? TEGRA_SUSPEND_LP2 K then sys E (clk_get_rate (pmc_clk pmc))
           else ret 0) ;;
  let rate := if rate =? 0 then 100000000 else rate in
  pmc <- (if negb (rate =? pmc_rate pmc) then
            tegra_pmc_writel (suspend_ticks (cpu_good_time pmc) rate) PMC_CPUPWRGOOD_TIMER ;;
            tegra_pmc_writel (suspend_ticks (cpu_off_time pmc) rate) PMC_CPUPWROFF_TIMER ;;
            ret (set_rate pmc rate)
          else ret pmc) ;;
  value <- tegra_pmc_readl E PMC_CNTRL ;;
  let value := Z.land value (Z.lnot PMC_CNTRL_SIDE_EFFECT_LP0) in
  let value := Z.lor value PMC_CNTRL_CPU_PWRREQ_OE in
  tegra_pmc_writel value PMC_CNTRL ;;
  ret pmc.

(** *** Set-up from the device tree *)

(** [value0] and [values0] are the contents of the locals [value] and
    [values] at entry: they are what a failed read leaves in them. *)
Definition tegra_pmc_parse_dt (pmc : tegra_pmc) (np : pmc_node)
    (value0 : Z) (values0 : Z * Z) : Z * tegra_pmc :=
  let (value, mode) :=
    match nvidia_suspend_mode np with
    | None => (value0, suspend_mode pmc)
    | Some v =>
        (v, if v =? 0 then TEGRA_SUSPEND_LP0 K
            else if v =? 1 then TEGRA_SUSPEND_LP1 K
            else if v =? 2 then TEGRA_SUSPEND_LP2 K
            else TEGRA_SUSPEND_NONE K)
    end in
  let mode := tegra_pm_validate_suspend_mode K mode in
  let (value, mode) :=
    match nvidia_cpu_pwr_good_time np with
    | None => (value, TEGRA_SUSPEND_NONE K)
    | Some v => (v, mode)
    end in
  let good := value in
  let (value, mode) :=
    match nvidia_cpu_pwr_off_time np with
    | None => (value, TEGRA_SUSPEND_NONE K)
    | Some v => (v, mode)
    end in
  let off := value in
  let (values, mode) :=
    match nvidia_core_pwr_good_time np with
    | None => (values0, TEGRA_SUSPEND_NONE K)
    | Some vs => (vs, mode)
    end in
  let osc := fst values in
  let pmu := snd values in
  let (value, mode) :=
    match nvidia_core_pwr_off_time np with
    | None => (value, TEGRA_SUSPEND_NONE K)
    | Some v => (v, mode)
    end in
  let core_off := value in
  let (values, mode) :=
    match nvidia_lp0_vec np with
    | None => (values, if mode =? TEGRA_SUSPEND_LP0 K then TEGRA_SUSPEND_LP1 K else mode)
    | Some vs => (vs, mode)
    end in
  (0,
   {| pmc_clk := pmc_clk pmc; pmc_rate := pmc_rate pmc; suspend_mode := mode;
      cpu_good_time := good; cpu_off_time := off;
      core_osc_time := osc; core_pmu_time := pmu; core_off_time := core_off;
      corereq_high := nvidia_core_power_req_active_high np;
      sysclkreq_high := nvidia_sys_clock_req_active_high np;
      combined_req := nvidia_combined_power_req np;
      cpu_pwr_good_en := nvidia_cpu_pwr_good_en np;
      lp0_vec_phys := fst values; lp0_vec_size := snd values |}).

Definition tegra_pmc_init (pmc : tegra_pmc) : M unit :=
  value <- tegra_pmc_readl E PMC_CNTRL ;;
  let value := Z.lor value PMC_CNTRL_CPU_PWRREQ_OE in
  tegra_pmc_writel value PMC_CNTRL ;;
  value <- tegra_pmc_readl E PMC_CNTRL ;;
  let value :=
    if sysclkreq_high pmc then Z.land value (Z.lnot PMC_CNTRL_SYSCLK_POLARITY)
    else Z.lor value PMC_CNTRL_SYSCLK_POLARITY in
  tegra_pmc_writel value PMC_CNTRL ;;
  value <- tegra_pmc_readl E PMC_CNTRL ;;
  let value := Z.lor value PMC_CNTRL_SYSCLK_OE in
  tegra_pmc_writel value PMC_CNTRL.

(** *** Emergency thermal reset *)

(** The value written to SCRATCH55 before the checksum is added. *)
Definition tsense_scratch55 (ctrl_id pinmux pmu_addr : Z) : Z :=
  let value := PMC_SCRATCH55_RESET_TEGRA in
  let value := Z.lor value (u32 (Z.shiftl ctrl_id PMC_SCRATCH55_CNTRL_ID_SHIFT)) in
  let value := Z.lor value (u32 (Z.shiftl pinmux PMC_SCRATCH55_PINMUX_SHIFT)) in
  Z.lor value (u32 (Z.shiftl pmu_addr PMC_SCRATCH55_I2CSLV1_SHIFT)).

Definition tsense_checksum (reg_addr reg_data value : Z) : Z :=
  let checksum :=
    u32 (reg_addr + reg_data + Z.land value 0xff
         + Z.land (Z.shiftr value 8) 0xff + Z.land (Z.shiftr value 24) 0xff) in
  let checksum := Z.land checksum 0xff in
  u32 (0x100 - checksum).

(** [np] is the result of the search for the i2c-thermtrip node. *)
Definition tegra_pmc_init_tsense_reset (soc : tegra_pmc_soc)
    (np : option thermtrip_node) : M unit :=
  if negb (has_tsense_reset soc) then ret tt
  else
    match np with
    | None => ret tt
    | Some n =>
        match nvidia_i2c_controller_id n, nvidia_bus_addr n,
              nvidia_reg_addr n, nvidia_reg_data n with
        | Some ctrl_id, Some pmu_addr, Some reg_addr, Some reg_data =>
            let pinmux :=
              match nvidia_pinmux_id n with
              | Some p => p
              | None => 0
              end in
            value <- tegra_pmc_readl E PMC_SENSOR_CTRL ;;
            let value := Z.lor value PMC_SENSOR_CTRL_SCRATCH_WRITE in
            tegra_pmc_writel value PMC_SENSOR_CTRL ;;
            let value :=
              Z.lor (u32 (Z.shiftl reg_data PMC_SCRATCH54_DATA_SHIFT))
                    (u32 (Z.shiftl reg_addr PMC_SCRATCH54_ADDR_SHIFT)) in
            tegra_pmc_writel value PMC_SCRATCH54 ;;
            let value := tsense_scratch55 ctrl_id pinmux pmu_addr in
            let checksum := tsense_checksum reg_addr reg_data value in
            let value :=
              Z.lor value (u32 (Z.shiftl checksum PMC_SCRATCH55_CHECKSUM_SHIFT)) in
            tegra_pmc_writel value PMC_SCRATCH55 ;;
            value <- tegra_pmc_readl E PMC_SENSOR_CTRL ;;
            let value := Z.lor value PMC_SENSOR_CTRL_ENABLE_RST in
            tegra_pmc_writel value PMC_SENSOR_CTRL
        | _, _, _, _ => ret tt
        end
    end.

(** *** Registration of the bundles

    [of_clk_get], [of_reset_control_get_by_index] and [tegra_mc_find_swgroup]
    look an index up in the node of the domain: each is given by the
    pointer it returns for an index. *)

(** [while (--i >= 0) clk_put(powergate->clk[i]);] *)
Fixpoint of_get_clks_err (i : nat) (arr : list ptr) : M unit :=
  match i with
  | O => ret tt
  | S j => sys_void (clk_put (nth j arr NULL)) ;; of_get_clks_err j arr
  end.

Fixpoint of_get_clks_for (of_clk_get : nat -> ptr) (n i : nat) (arr : list ptr)
    : M (Z * list ptr) :=
  match n with
  | O => ret (0, arr)
  | S n' =>
      let c := of_clk_get i in
      if IS_ERR c then
        if PTR_ERR c =? - ENOENT K then ret (0, arr)
        else of_get_clks_err i arr ;; ret (PTR_ERR c, arr)
      else of_get_clks_for of_clk_get n' (S i) (array_set arr i c)
  end.

Definition tegra_powergate_of_get_clks (of_clk_get : nat -> ptr)
    (powergate : tegra_powergate) : M (Z * tegra_powergate) :=
  r <- of_get_clks_for of_clk_get MAX_CLK_NUM 0 (clk powergate) ;;
  ret (fst r, set_clk powergate (snd r)).

Fixpoint of_get_resets_for (of_reset_control_get_by_index : nat -> ptr)
    (n i : nat) (arr : list ptr) : Z * list ptr :=
  match n with
  | O => (0, arr)
  | S n' =>
      let r := of_reset_control_get_by_index i in
      if IS_ERR r then
        if PTR_ERR r =? - ENOENT K then (0, arr)
        else (PTR_ERR r, arr)
      else of_get_resets_for of_reset_control_get_by_index n' (S i) (array_set arr i r)
  end.

Definition tegra_powergate_of_get_resets
    (of_reset_control_get_by_index : nat -> ptr) (powergate : tegra_powergate)
    : Z * tegra_powergate :=
  let r := of_get_resets_for of_reset_control_get_by_index MAX_RESET_NUM 0
             (reset powergate) in
  (fst r, set_reset powergate (snd r)).

Fixpoint of_get_swgroups_for (tegra_mc_find_swgroup : nat -> ptr)
    (n i : nat) (arr : list ptr) : Z * list ptr :=
  match n with
  | O => (0, arr)
  | S n' =>
      let sg := tegra_mc_find_swgroup i in
      if IS_ERR sg || (sg =? NULL) then
        if PTR_ERR sg =? - ENOENT K then (0, arr)
        else (- EINVAL H, arr)
      else of_get_swgroups_for tegra_mc_find_swgroup n' (S i) (array_set arr i sg)
  end.

Definition tegra_powergate_of_get_swgroups (tegra_mc_find_swgroup : nat -> ptr)
    (powergate : tegra_powergate) : Z * tegra_powergate :=
  let r := of_get_swgroups_for tegra_mc_find_swgroup MAX_SWGROUP_NUM 0
             (swgroup powergate) in
  (fst r, set_swgroup powergate (snd r)).

End Setup.

(** ** More observations on histories *)

(** The last value read from a register, if it was read. *)
Definition last_read (w : window) (offset : Z) (t : trace) : option Z :=
  fold_left (fun acc e => if is_read_of w offset e then Some (snd e) else acc)
            t None.

(** A computation that returns has extended the history by events that
    all satisfy [P]. *)
Definition emits {A} (P : event -> Prop) (m : M A) : Prop :=
  forall t a t', m t = Ok a t' -> exists ev, t' = t ++ ev /\ Forall P ev.

Definition is_clock_call (e : event) : bool :=
  match fst e with
  | clk_prepare_enable _ | clk_disable_unprepare _ => true
  | _ => false
  end.

Definition is_regulator_call (e : event) : bool :=
  match fst e with
  | regulator_enable _ | regulator_disable _
  | of_find_device_by_node _ | devm_regulator_get_optional _ => true
  | _ => false
  end.

(** An access to the toggle or status register of the power gates, or to
    their lock. *)
Definition is_gate_access (e : event) : bool :=
  match fst e with
  | readl PMC offset => offset =? PWRGATE_STATUS
  | writel PMC _ offset => offset =? PWRGATE_TOGGLE
  | mutex_lock PMC | mutex_unlock PMC => true
  | _ => false
  end.

(** The events of a bundle operation that succeeds on every handle. *)
Definition all_ok (op : ptr -> call) (l : list ptr) : trace :=
  map (fun p => (op p, 0)) l.

(** A read of the jiffies counter or a sleep of a polling loop. *)
Definition is_poll_timing (e : event) : bool :=
  match fst e with
  | jiffies | usleep_range _ _ => true
  | _ => false
  end.

(** A write that removes a clamp. *)
Definition is_clamp_write (e : event) : bool :=
  match fst e with
  | writel PMC _ offset => (offset =? REMOVE_CLAMPING) || (offset =? GPU_RG_CNTRL)
  | _ => false
  end.

(** ** More of the simulated board *)

(** Values for the rest of the headers: the errno, the suspend modes in
    the order of their enumeration, a machine that supports suspend down
    to LP1, and the plain quotient for [do_div]. *)
Definition linux_more_headers : more_headers := {|
  ENOENT := 2;
  TEGRA_SUSPEND_NONE := 0;
  TEGRA_SUSPEND_LP2 := 1;
  TEGRA_SUSPEND_LP1 := 2;
  TEGRA_SUSPEND_LP0 := 3;
  TEGRA_MAX_SUSPEND_MODE := 4;
  tegra_pm_validate_suspend_mode := fun mode => if mode >? 2 then 2 else mode;
  USEC_PER_SEC := 1000000;
  do_div := Z.div
|}.

(** The PCIE partition with one clock and one reset. *)
Definition pcie_domain : tegra_powergate := {|
  id := 3;
  of_node := 43;
  clk := [13];
  reset := [23];
  swgroup := [];
  is_vdd := false;
  vdd := NULL
|}.

(** The Tegra124 entry of the sources with its table of CPU partitions. *)
Definition tegra124_cpus : tegra_pmc_soc_cpus := {|
  soc_common := tegra124_pmc_soc;
  num_cpu_powergates := 4;
  cpu_powergates := [14; 9; 10; 11]
|}.

(** The state of the driver after a set-up that found the CPU timings
    2000 us and 200 us and a reference clock, before any suspend. *)
Definition booted_pmc : tegra_pmc := {|
  pmc_clk := 77;
  pmc_rate := 0;
  suspend_mode := 2;
  cpu_good_time := 2000;
  cpu_off_time := 200;
  core_osc_time := 5000;
  core_pmu_time := 5000;
  core_off_time := 0;
  corereq_high := false;
  sysclkreq_high := true;
  combined_req := false;
  cpu_pwr_good_en := false;
  lp0_vec_phys := 0;
  lp0_vec_size := 0
|}.

(** A PMC node that asks for LP0 and gives every timing but no LP0
    vector. *)
Definition lp0_node_without_vector : pmc_node := {|
  nvidia_suspend_mode := Some 0;
  nvidia_cpu_pwr_good_time := Some 2000;
  nvidia_cpu_pwr_off_time := Some 200;
  nvidia_core_pwr_good_time := Some (5000, 5000);
  nvidia_core_pwr_off_time := Some 0;
  nvidia_core_power_req_active_high := false;
  nvidia_sys_clock_req_active_high := true;
  nvidia_combined_power_req := false;
  nvidia_cpu_pwr_good_en := false;
  nvidia_lp0_vec := None
|}.

(** An i2c-thermtrip node: controller 4, PMU at bus address 0x40, data
    0x80 written to register 0x36. *)
Definition thermtrip_sample : thermtrip_node := {|
  nvidia_i2c_controller_id := Some 4;
  nvidia_bus_addr := Some 0x40;
  nvidia_reg_addr := Some 0x36;
  nvidia_reg_data := Some 0x80;
  nvidia_pinmux_id := None
|}.

(** A domain node with two clocks, then no further entry. *)
Definition two_clocks (i : nat) : ptr :=
  match i with
  | 0%nat => 11
  | 1%nat => 12
  | _ => -2
  end.

(** A domain node whose third clock cannot be had. *)
Definition third_clock_deferred (i : nat) : ptr :=
  match i with
  | 0%nat => 11
  | 1%nat => 12
  | _ => -517
  end.

(** A descriptor as it is allocated: every field zero but the id and the
    node. *)
Definition fresh_domain : tegra_powergate := {|
  id := 1;
  of_node := 40;
  clk := [];
  reset := [];
  swgroup := [];
  is_vdd := false;
  vdd := NULL
|}.

(** * Properties *)

(** Unfolds the monad and the register accessors, leaving the calls and the
    tests of the code. *)
Ltac drv :=
  cbv beta iota zeta delta
    [bind sys sys_void sys_u32 ret spin
     tegra_pmc_writel tegra_pmc_readl mc_readl mc_writel].

(** ** Arithmetic of the machine values *)

Lemma u32_small (z : Z) : 0 <= z < 2 ^ 32 -> u32 z = z.
Proof. intros Hz. unfold u32. now apply Z.mod_small. Qed.

Lemma shiftl_1_pos (n : Z) : 0 <= n -> Z.shiftl 1 n = 2 ^ n.
Proof. intros Hn. rewrite Z.shiftl_1_l. reflexivity. Qed.

Lemma u32_bit (n : Z) : 0 <= n < 32 -> u32 (Z.shiftl 1 n) = Z.shiftl 1 n.
Proof.
  intros Hn. apply u32_small. rewrite Z.shiftl_1_l. split.
  - apply Z.pow_nonneg. lia.
  - apply Z.pow_lt_mono_r; lia.
Qed.

Lemma ceil_div_spec (a b : Z) :
  0 < b -> b * (ceil_div a b - 1) < a <= b * ceil_div a b.
Proof.
  intros Hb. unfold ceil_div.
  pose proof (Z_div_mod a b ltac:(lia)) as Hdm.
  destruct (Z.div_eucl a b) as [q r]. destruct Hdm as [Ha Hr].
  destruct (Z.eqb_spec r 0); nia.
Qed.

(** Rounding up with [DIV_ROUND_UP] is the exact ceiling. *)
Lemma DIV_ROUND_UP_ceil (n d : Z) : 0 < d -> DIV_ROUND_UP n d = ceil_div n d.
Proof.
  intros Hd. pose proof (ceil_div_spec n d Hd) as Hc.
  unfold DIV_ROUND_UP. symmetry.
  apply Z.div_unique with (r := n + d - 1 - d * ceil_div n d); lia.
Qed.

Lemma ceil_div_pos (a b : Z) : 0 < a -> 0 < b -> 0 < ceil_div a b.
Proof. intros Ha Hb. pose proof (ceil_div_spec a b Hb). nia. Qed.

Lemma ceil_div_le (a b : Z) : 0 < a -> 0 < b -> ceil_div a b <= a.
Proof. intros Ha Hb. pose proof (ceil_div_spec a b Hb). nia. Qed.

(** ** Counting events *)

Lemma count_app (p : event -> bool) (t1 t2 : trace) :
  count p (t1 ++ t2) = (count p t1 + count p t2)%nat.
Proof. unfold count. rewrite filter_app, length_app. reflexivity. Qed.

Lemma count_cons (p : event -> bool) (e : event) (t : trace) :
  count p (e :: t) = ((if p e then 1 else 0) + count p t)%nat.
Proof. unfold count. cbn [filter]. destruct (p e); reflexivity. Qed.

Lemma sleeps_app (t1 t2 : trace) : sleeps (t1 ++ t2) = (sleeps t1 + sleeps t2)%nat.
Proof. apply count_app. Qed.

(** ** Clamp removal *)

(** C6: for a valid partition, [tegra_powergate_remove_clamping] makes one
    write and returns 0: the value 0 to the GPU clamp register for the 3D
    partition of a chip with GPU clamps, and otherwise to the shared
    register the mask [1 << PCIE] for VDEC, [1 << VDEC] for PCIE and
    [1 << id] for any other partition. *)
Theorem remove_clamping_one_write (H : headers) (s : tegra_pmc_soc) (id : Z)
    (t : trace) :
  TEGRA_POWERGATE_3D H <> TEGRA_POWERGATE_VDEC H ->
  TEGRA_POWERGATE_3D H <> TEGRA_POWERGATE_PCIE H ->
  0 <= TEGRA_POWERGATE_VDEC H < 32 ->
  0 <= TEGRA_POWERGATE_PCIE H < 32 ->
  0 <= id < num_powergates s ->
  num_powergates s <= 32 ->
  (id = TEGRA_POWERGATE_3D H -> has_gpu_clamps s = true ->
   tegra_powergate_remove_clamping H (Some s) id t =
     Ok 0 (t ++ [(writel PMC 0 GPU_RG_CNTRL, 0)]))
  /\ (id = TEGRA_POWERGATE_VDEC H ->
      tegra_powergate_remove_clamping H (Some s) id t =
        Ok 0 (t ++ [(writel PMC (Z.shiftl 1 (TEGRA_POWERGATE_PCIE H)) REMOVE_CLAMPING, 0)]))
  /\ (id = TEGRA_POWERGATE_PCIE H ->
      tegra_powergate_remove_clamping H (Some s) id t =
        Ok 0 (t ++ [(writel PMC (Z.shiftl 1 (TEGRA_POWERGATE_VDEC H)) REMOVE_CLAMPING, 0)]))
  /\ (id <> TEGRA_POWERGATE_VDEC H -> id <> TEGRA_POWERGATE_PCIE H ->
      (id <> TEGRA_POWERGATE_3D H \/ has_gpu_clamps s = false) ->
      tegra_powergate_remove_clamping H (Some s) id t =
        Ok 0 (t ++ [(writel PMC (Z.shiftl 1 id) REMOVE_CLAMPING, 0)])).
Proof.
  intros H3v H3p Hv Hp Hid Hn.
  assert (Hin : (id <? 0) || (num_powergates s <=? u32 id) = false).
  { rewrite u32_small by lia. apply orb_false_intro; [apply Z.ltb_ge | apply Z.leb_gt]; lia. }
  unfold tegra_powergate_remove_clamping. rewrite Hin.
  repeat split.
  - intros -> Hg. rewrite Z.eqb_refl, Hg. reflexivity.
  - intros ->.
    replace (TEGRA_POWERGATE_VDEC H =? TEGRA_POWERGATE_3D H) with false
      by (symmetry; apply Z.eqb_neq; congruence).
    rewrite Z.eqb_refl. cbn [andb]. unfold tegra_pmc_writel, bind, sys_void, ret.
    rewrite u32_bit by lia. reflexivity.
  - intros ->.
    replace (TEGRA_POWERGATE_PCIE H =? TEGRA_POWERGATE_3D H) with false
      by (symmetry; apply Z.eqb_neq; congruence).
    cbn [andb]. unfold tegra_pmc_writel, bind, sys_void, ret.
    destruct (Z.eqb_spec (TEGRA_POWERGATE_PCIE H) (TEGRA_POWERGATE_VDEC H)) as [e|_].
    + rewrite e, u32_bit by lia. reflexivity.
    + rewrite Z.eqb_refl, u32_bit by lia. reflexivity.
  - intros Hnv Hnp Hg.
    replace ((id =? TEGRA_POWERGATE_3D H) && has_gpu_clamps s) with false.
    + apply Z.eqb_neq in Hnv, Hnp. rewrite Hnv, Hnp.
      unfold tegra_pmc_writel, bind, sys_void, ret.
      rewrite u32_bit by lia. reflexivity.
    + symmetry. destruct Hg as [Hg|Hg].
      * apply Z.eqb_neq in Hg. rewrite Hg. reflexivity.
      * rewrite Hg. apply andb_false_r.
Qed.

Lemma remove_clamping_one_write_witness :
  tegra_powergate_remove_clamping linux_headers (Some tegra124_pmc_soc) 4 [] =
    Ok 0 [(writel PMC 8 REMOVE_CLAMPING, 0)].
Proof.
  pose proof (remove_clamping_one_write linux_headers tegra124_pmc_soc 4 []) as W.
  cbn in W.
  destruct W as (_ & W & _); try lia.
  apply W. reflexivity.
Defined.

(** ** I/O rails *)

Lemma io_rail_prepare_rejects (H : headers) (E : env) (id : Z) (t : trace) :
  63 < id \/ (0 <= id /\ (id mod 32 = 30 \/ id mod 32 = 31)) ->
  exists r, tegra_io_rail_prepare H E id t = Ok r t /\ rail_err r = - EINVAL H.
Proof.
  intros Hid. unfold tegra_io_rail_prepare.
  assert (Hck : (id >? 63) || (u32 (Z.rem id 32) =? 30) || (u32 (Z.rem id 32) =? 31) = true).
  { destruct Hid as [Hbig | [Hpos Hbit]].
    - replace (id >? 63) with true by (symmetry; apply Z.gtb_lt; lia). reflexivity.
    - rewrite Z.rem_mod_nonneg by lia.
      rewrite u32_small by (pose proof (Z.mod_pos_bound id 32); lia).
      destruct Hbit as [-> | ->]; cbn; now rewrite ?orb_true_r. }
  rewrite Hck. eexists. split; reflexivity.
Qed.

(** C9: a rail id above 63, or one whose bit position in its bank is 30 or
    31 (ids 30, 31, 62 and 63), makes both [tegra_io_rail_power_on] and
    [tegra_io_rail_power_off] return [-EINVAL], the InvalidArgument error,
    with the history unchanged: no register is read or written. *)
Theorem io_rail_reserved_ids_rejected (H : headers) (E : env) (fuel : nat)
    (id : Z) (t : trace) :
  0 < EINVAL H ->
  63 < id \/ (0 <= id /\ (id mod 32 = 30 \/ id mod 32 = 31)) ->
  tegra_io_rail_power_on H E fuel id t = Ok (- EINVAL H) t
  /\ tegra_io_rail_power_off H E fuel id t = Ok (- EINVAL H) t
  /\ error_kind_of H (- EINVAL H) = Some InvalidArgument.
Proof.
  intros He Hid.
  destruct (io_rail_prepare_rejects H E id t Hid) as (r & Hr & Herr).
  assert (Hneg : (rail_err r <? 0) = true) by (apply Z.ltb_lt; lia).
  unfold tegra_io_rail_power_on, tegra_io_rail_power_off, io_rail_request, bind.
  rewrite Hr, Hneg, Herr. unfold ret, error_kind_of. rewrite Z.eqb_refl.
  repeat split.
Qed.

Lemma io_rail_reserved_ids_rejected_witness :
  tegra_io_rail_power_on linux_headers (run_board quiet_board) 30 62 [] = Ok (-22) []
  /\ tegra_io_rail_power_off linux_headers (run_board quiet_board) 30 62 [] = Ok (-22) []
  /\ error_kind_of linux_headers (-22) = Some InvalidArgument.
Proof.
  apply (io_rail_reserved_ids_rejected linux_headers (run_board quiet_board) 30 62 []).
  - cbn. lia.
  - right. cbn. lia.
Defined.

(** The four reserved ids, and an id beyond the two banks, on the simulated
    board. *)
Example io_rail_reserved_ids :
  Forall (fun id =>
            tegra_io_rail_power_on linux_headers (run_board quiet_board) 30 id [] = Ok (-22) []
            /\ tegra_io_rail_power_off linux_headers (run_board quiet_board) 30 id [] = Ok (-22) [])
         [30; 31; 62; 63; 64].
Proof. repeat constructor. Qed.

(** The two roundings of [tegra_io_rail_prepare] at a rate for which the
    32-bit sum does not wrap: no division by zero, and the exact ceiling
    twice. *)
Lemma io_rail_timing_value (R : Z) :
  0 < R <= 2 ^ 32 - 1000000000 ->
  (value <- DIV_ROUND_UP_ulong 1000000000 R ;; DIV_ROUND_UP_ulong 200 value) =
    ret (ceil_div 200 (ceil_div 1000000000 R))
  /\ 0 < ceil_div 200 (ceil_div 1000000000 R) <= 200.
Proof.
  intros HR.
  pose proof (ceil_div_pos 1000000000 R ltac:(lia) ltac:(lia)) as Htick.
  pose proof (ceil_div_le 1000000000 R ltac:(lia) ltac:(lia)) as Htle.
  pose proof (ceil_div_pos 200 _ ltac:(lia) Htick) as Hv.
  pose proof (ceil_div_le 200 _ ltac:(lia) Htick) as Hle.
  split; [|lia].
  unfold DIV_ROUND_UP_ulong, bind, ret, ulong.
  destruct (Z.eqb_spec R 0) as [|_]; [lia|].
  rewrite (u32_small (1000000000 + R - 1)) by lia.
  change ((1000000000 + R - 1) / R) with (DIV_ROUND_UP 1000000000 R).
  rewrite (DIV_ROUND_UP_ceil 1000000000 R) by lia.
  destruct (Z.eqb_spec (ceil_div 1000000000 R) 0) as [|_]; [lia|].
  rewrite (u32_small (200 + ceil_div 1000000000 R - 1)) by lia.
  change ((200 + ceil_div 1000000000 R - 1) / ceil_div 1000000000 R)
    with (DIV_ROUND_UP 200 (ceil_div 1000000000 R)).
  rewrite DIV_ROUND_UP_ceil by lia. reflexivity.
Qed.

(** The preparation of a valid rail at such a rate. *)
Lemma io_rail_prepare_runs (H : headers) (E : env) (id : Z) (t : trace) :
  let c := E t clk_get_sys_pclk in
  let R := ulong (E (t ++ [(clk_get_sys_pclk, c)]) (clk_get_rate c)) in
  0 <= id <= 63 -> id mod 32 < 30 -> IS_ERR c = false ->
  0 < R <= 2 ^ 32 - 1000000000 ->
  tegra_io_rail_prepare H E id t =
    Ok {| rail_err := 0;
          rail_request := if id <? 32 then IO_DPD_REQ else IO_DPD2_REQ;
          rail_status := if id <? 32 then IO_DPD_STATUS else IO_DPD2_STATUS;
          rail_bit := id mod 32 |}
       (t ++ [(clk_get_sys_pclk, c); (clk_get_rate c, R); (clk_put c, 0);
              (writel PMC 1 DPD_SAMPLE, 0);
              (writel PMC (ceil_div 200 (ceil_div 1000000000 R)) SEL_DPD_TIM, 0)]).
Proof.
  intros c R Hid Hbit Hc HR. unfold tegra_io_rail_prepare.
  assert (Hu : u32 (Z.rem id 32) = id mod 32).
  { rewrite Z.rem_mod_nonneg by lia.
    apply u32_small. pose proof (Z.mod_pos_bound id 32). lia. }
  rewrite Hu.
  replace ((id >? 63) || (id mod 32 =? 30) || (id mod 32 =? 31)) with false.
  2:{ symmetry. repeat (apply orb_false_intro);
        [ destruct (Z.gtb_spec id 63); [lia | reflexivity]
        | apply Z.eqb_neq; lia | apply Z.eqb_neq; lia ]. }
  destruct (io_rail_timing_value R HR) as [Hvalue Hrange].
  unfold bind at 1. unfold sys at 1. fold c. rewrite Hc.
  unfold bind at 1. unfold sys_u32 at 1. cbv zeta.
  fold (ulong (E (t ++ [(clk_get_sys_pclk, c)]) (clk_get_rate c))). fold R.
  unfold bind at 1. unfold sys_void at 1.
  unfold bind at 1. unfold tegra_pmc_writel at 1, sys_void at 1.
  unfold bind in Hvalue. unfold bind at 1.
  match goal with
  | |- context [DIV_ROUND_UP_ulong 1000000000 R ?t0] =>
      pose proof (f_equal (fun m => m t0) Hvalue) as Hv; cbv beta in Hv
  end.
  destruct (DIV_ROUND_UP_ulong 1000000000 R _) as [v1 t1| |] eqn:H1;
    try discriminate Hv.
  unfold bind at 1. rewrite Hv. unfold ret at 1.
  unfold bind, tegra_pmc_writel, sys_void, ret.
  rewrite (u32_small (ceil_div 200 _)) by lia.
  repeat rewrite <- app_assoc. reflexivity.
Qed.

(** C10 (amended): for a valid rail and a reference clock whose rate [R],
    an [unsigned long], is positive and at most [2^32 - 10^9], so that the
    sum [10^9 + R - 1] does not wrap, [tegra_io_rail_prepare] enables
    sampling and then writes [ceil(200 / ceil(1000000000 / R))] to
    SEL_DPD_TIM; at 408 MHz the tick is 3 ns and the value written is 67. *)
Theorem io_rail_prepare_timing (H : headers) (E : env) (id : Z) (t : trace) :
  let c := E t clk_get_sys_pclk in
  let R := ulong (E (t ++ [(clk_get_sys_pclk, c)]) (clk_get_rate c)) in
  0 <= id <= 63 -> id mod 32 < 30 -> IS_ERR c = false ->
  0 < R <= 2 ^ 32 - 1000000000 ->
  (exists r,
     tegra_io_rail_prepare H E id t =
       Ok r (t ++ [(clk_get_sys_pclk, c); (clk_get_rate c, R); (clk_put c, 0);
                   (writel PMC DPD_SAMPLE_ENABLE DPD_SAMPLE, 0);
                   (writel PMC (ceil_div 200 (ceil_div 1000000000 R)) SEL_DPD_TIM, 0)])
     /\ rail_err r = 0)
  /\ ceil_div 1000000000 408000000 = 3
  /\ ceil_div 200 3 = 67.
Proof.
  intros c R Hid Hbit Hc HR.
  split; [| split; reflexivity].
  eexists. rewrite (io_rail_prepare_runs H E id t Hid Hbit Hc HR).
  split; reflexivity.
Qed.

Lemma io_rail_prepare_timing_witness :
  exists r,
    tegra_io_rail_prepare linux_headers (run_board quiet_board) 5 [] =
      Ok r [(clk_get_sys_pclk, 77); (clk_get_rate 77, 408000000); (clk_put 77, 0);
            (writel PMC 1 DPD_SAMPLE, 0); (writel PMC 67 SEL_DPD_TIM, 0)]
    /\ rail_err r = 0.
Proof.
  apply (io_rail_prepare_timing linux_headers (run_board quiet_board) 5 []);
    vm_compute; try reflexivity; split; congruence.
Defined.

(** At a rate of 4 GHz, which is positive, the sum [10^9 + R - 1] wraps to
    a value below [R]: the tick is 0 and the second rounding divides by
    zero, where the exact ceilings give 1 and 200. *)
Lemma io_rail_prepare_wraps_at_4GHz :
  0 < 4000000000
  /\ DIV_ROUND_UP_ulong 1000000000 4000000000 [] = Ok 0 []
  /\ tegra_io_rail_prepare linux_headers (run_board fast_clock_board) 5 [] = Fault
  /\ ceil_div 200 (ceil_div 1000000000 4000000000) = 200.
Proof. vm_compute. repeat split. Qed.

(** ** Power-off of the always-on partitions *)

Lemma never_turn_off_iff (H : headers) (id : Z) :
  never_turn_off H id = true <->
  In id [TEGRA_POWERGATE_CPU H; TEGRA_POWERGATE_CPU1 H; TEGRA_POWERGATE_CPU2 H;
         TEGRA_POWERGATE_CPU3 H; TEGRA_POWERGATE_CPU0 H; TEGRA_POWERGATE_C0NC H;
         TEGRA_POWERGATE_IRAM H].
Proof.
  unfold never_turn_off. cbn [In].
  rewrite !orb_true_iff, !Z.eqb_eq. intuition congruence.
Qed.

(** C3 (amended): for a domain whose id is in the always-on set (CPU, CPU0
    to CPU3, C0NC, IRAM), [tegra_pmc_powergate_power_off] returns [-EINVAL],
    the InvalidArgument error, whatever the hardware state, and the history
    is unchanged: no reset, clock, memory-controller or power-gate call is
    made. *)
Theorem power_off_always_on_rejected (H : headers) (E : env)
    (soc : tegra_pmc_soc) (fuel : nat) (pg : tegra_powergate) (t : trace) :
  In (id pg)
     [TEGRA_POWERGATE_CPU H; TEGRA_POWERGATE_CPU1 H; TEGRA_POWERGATE_CPU2 H;
      TEGRA_POWERGATE_CPU3 H; TEGRA_POWERGATE_CPU0 H; TEGRA_POWERGATE_C0NC H;
      TEGRA_POWERGATE_IRAM H] ->
  tegra_pmc_powergate_power_off H E soc fuel pg t = Ok (- EINVAL H) t
  /\ error_kind_of H (- EINVAL H) = Some InvalidArgument.
Proof.
  intros Hin. apply never_turn_off_iff in Hin.
  unfold tegra_pmc_powergate_power_off. rewrite Hin.
  unfold error_kind_of. rewrite Z.eqb_refl. split; reflexivity.
Qed.

Lemma power_off_always_on_rejected_witness :
  tegra_pmc_powergate_power_off linux_headers (run_board running_board)
    tegra124_pmc_soc 10 cpu_domain [] = Ok (-22) []
  /\ error_kind_of linux_headers (-22) = Some InvalidArgument.
Proof.
  apply (power_off_always_on_rejected linux_headers (run_board running_board)
           tegra124_pmc_soc 10 cpu_domain []).
  cbn. lia.
Defined.

(** C3 as stated fails: power-off of the CPU rail partition fails with
    [-EINVAL], which is the InvalidArgument error and not Unsupported. *)
Lemma power_off_always_on_not_unsupported :
  exists err,
    tegra_pmc_powergate_power_off linux_headers (run_board running_board)
      tegra124_pmc_soc 10 cpu_domain [] = Ok err []
    /\ error_kind_of linux_headers err = Some InvalidArgument
    /\ error_kind_of linux_headers err <> Some Unsupported.
Proof.
  exists (-22). repeat split. discriminate.
Qed.

(** ** Polling loops *)

(** A polling loop only reads. *)
Lemma poll_history_count (pending : Z -> bool) (offset : Z) (done : Z -> bool)
    (lo hi timed_out : Z) (p : event -> bool) (ev : trace) (err : Z) :
  (forall e, p e = true -> is_write e = true) ->
  poll_history pending offset done lo hi timed_out ev err ->
  count p ev = 0%nat.
Proof.
  intros Hp Hev.
  assert (Hno : forall c r, is_write (c, r) = false -> p (c, r) = false).
  { intros c r Hw. destruct (p (c, r)) eqn:C; [|reflexivity].
    apply Hp in C. congruence. }
  induction Hev as [j Hj | j v Hj Hv | j v rest err Hj Hv Hrest IH];
    unfold count in *; cbn [filter]; rewrite ?Hno by reflexivity;
    [reflexivity | reflexivity | exact IH].
Qed.

Lemma is_write_to_is_write (w : window) (offset : Z) (e : event) :
  is_write_to w offset e = true -> is_write e = true.
Proof. destruct e as [[] r]; cbn; congruence. Qed.

Section Polling.

Variable H : headers.
Variable E : env.

(** What the wait loop of [tegra_pmc_powergate_set] leaves in the history. *)
Lemma powergate_set_wait_history (id mask timeout : Z) :
  forall fuel t err t',
    powergate_set_wait H E fuel id mask timeout t = Ok err t' ->
    exists ev,
      t' = t ++ ev
      /\ poll_history (fun j => time_before H j timeout) PWRGATE_STATUS
           (fun v => Z.land v (BIT id) =? mask) 10 20 (- ETIMEDOUT H) ev err.
Proof.
  induction fuel as [|fuel IH]; intros t err t'; cbn [powergate_set_wait]; drv.
  - discriminate.
  - destruct (time_before H (E t jiffies) timeout) eqn:Hb.
    + destruct (Z.land _ (BIT id) =? mask) eqn:Hd.
      * intros [= <- <-]. eexists. rewrite <- app_assoc. split; [reflexivity|].
        now apply poll_done.
      * intros Hrun. apply IH in Hrun. destruct Hrun as (ev & -> & Hev).
        eexists. rewrite <- !app_assoc. split; [reflexivity|].
        cbn [app]. now apply poll_again.
    + intros [= <- <-]. eexists. split; [reflexivity|]. now apply poll_expired.
Qed.

(** The wait loop ends once the clock has passed the deadline, whatever
    the status register reads. *)
Lemma powergate_set_wait_ends (id mask timeout : Z) (t0 : trace) (n : nat) :
  (forall t, sleeps t = n -> time_before H (E (t0 ++ t) jiffies) timeout = false) ->
  forall fuel t,
    (sleeps t <= n)%nat -> (n - sleeps t < fuel)%nat ->
    exists err t', powergate_set_wait H E fuel id mask timeout (t0 ++ t) = Ok err t'.
Proof.
  intros Hclock.
  induction fuel as [|fuel IH]; intros t Hle Hfuel; [lia|].
  cbn [powergate_set_wait]; drv.
  destruct (time_before H (E (t0 ++ t) jiffies) timeout) eqn:Hb.
  - assert (Hlt : (sleeps t < n)%nat).
    { destruct (Nat.eq_dec (sleeps t) n) as [e|]; [|lia].
      rewrite (Hclock t e) in Hb. discriminate. }
    destruct (Z.land _ (BIT id) =? mask); [eauto|].
    rewrite <- !app_assoc. apply IH.
    + rewrite !sleeps_app. cbn. lia.
    + rewrite !sleeps_app. cbn. lia.
  - eauto.
Qed.


Lemma io_rail_poll_while_ends (offset mask val timeout : Z) (t0 : trace) (n : nat) :
  (forall t, sleeps t = n -> time_after H timeout (E (t0 ++ t) jiffies) = false) ->
  forall fuel t,
    (sleeps t <= n)%nat -> (n - sleeps t < fuel)%nat ->
    exists err t', io_rail_poll_while H E fuel offset mask val timeout (t0 ++ t) = Ok err t'.
Proof.
  intros Hclock.
  induction fuel as [|fuel IH]; intros t Hle Hfuel; [lia|].
  cbn [io_rail_poll_while]; drv.
  destruct (time_after H timeout (E (t0 ++ t) jiffies)) eqn:Hb.
  - assert (Hlt : (sleeps t < n)%nat).
    { destruct (Nat.eq_dec (sleeps t) n) as [e|]; [|lia].
      rewrite (Hclock t e) in Hb. discriminate. }
    destruct (Z.land _ mask =? val); [eauto|].
    rewrite <- !app_assoc. apply IH.
    + rewrite !sleeps_app. cbn. lia.
    + rewrite !sleeps_app. cbn. lia.
  - eauto.
Qed.

(** [tegra_pmc_powergate_set] returns within [n] polls when the clock passes
    a 50 ms deadline after [n] sleeps. *)
Lemma powergate_set_returns (n fuel : nat) (pg : tegra_powergate)
    (new_state : bool) (t : trace) :
  clock_expires H E (time_before H) n 50 -> (n < fuel)%nat ->
  exists err t', tegra_pmc_powergate_set H E fuel pg new_state t = Ok err t'.
Proof.
  intros Hclock Hfuel. unfold tegra_pmc_powergate_set. drv.
  destruct (Bool.eqb new_state _); [eauto|].
  set (t1 := ((t ++ _) ++ _) ++ _).
  destruct (powergate_set_wait_ends (id pg)
              (if new_state then BIT (id pg) else 0)
              (E t1 jiffies + msecs_to_jiffies H 50) t1 n (Hclock t1) fuel
              [(jiffies, E t1 jiffies)]) as (err & t' & Hrun).
  - cbn. lia.
  - cbn. lia.
  - rewrite Hrun. eauto.
Qed.

(** [tegra_io_rail_poll] returns within [n] polls when the clock passes a
    250 ms deadline after [n] sleeps. *)
Lemma io_rail_poll_returns (n fuel : nat) (offset mask val : Z) (t : trace) :
  clock_expires H E (fun j timeout => time_after H timeout j) n 250 ->
  (n < fuel)%nat ->
  exists err t', tegra_io_rail_poll H E fuel offset mask val 250 t = Ok err t'.
Proof.
  intros Hclock Hfuel. unfold tegra_io_rail_poll. drv.
  apply (io_rail_poll_while_ends offset mask val
           (E t jiffies + msecs_to_jiffies H 250) t n (Hclock t) fuel
           [(jiffies, E t jiffies)]); cbn; lia.
Qed.

End Polling.

(** On the simulated board the jiffies counter advances with each sleep:
    a 50 ms deadline is passed after 5 sleeps, a 250 ms one after 25. *)
Lemma board_clock_50 (b : board) :
  clock_expires linux_headers (run_board b) (time_before linux_headers) 5 50.
Proof.
  intros t0 t Hn. cbn. rewrite sleeps_app, Hn, Nat2Z.inj_add.
  match goal with
  | |- (to_int ?d <? 0) = false => replace d with 0 by lia
  end.
  reflexivity.
Qed.

Lemma board_clock_250 (b : board) :
  clock_expires linux_headers (run_board b)
    (fun j timeout => time_after linux_headers timeout j) 25 250.
Proof.
  intros t0 t Hn. cbn. rewrite sleeps_app, Hn, Nat2Z.inj_add.
  match goal with
  | |- (to_int ?d <? 0) = false => replace d with 0 by lia
  end.
  reflexivity.
Qed.

(** ** The power-gate primitive *)

(** The older [tegra_powergate_set], used for the CPU partitions, shares the
    first half: one status read, no write when the state is the wanted one,
    one toggle write otherwise; it does not poll. *)
Lemma tegra_powergate_set_history (E : env) (id : Z) (new_state : bool) (t : trace) :
  let s := u32 (E (t ++ [(mutex_lock PMC, 0)]) (readl PMC PWRGATE_STATUS)) in
  let powered := negb (Z.land s (Z.shiftl 1 id) =? 0) in
  tegra_powergate_set E id new_state t =
    Ok 0 (t ++ [(mutex_lock PMC, 0); (readl PMC PWRGATE_STATUS, s)]
            ++ (if Bool.eqb powered new_state then []
                else [(writel PMC (u32 (Z.lor PWRGATE_TOGGLE_START id)) PWRGATE_TOGGLE, 0)])
            ++ [(mutex_unlock PMC, 0)]).
Proof.
  intros s powered. unfold tegra_powergate_set. drv. fold s. fold powered.
  destruct (Bool.eqb powered new_state); repeat rewrite <- app_assoc; reflexivity.
Qed.

(** C4 (amended): [tegra_pmc_powergate_set] first reads the status
    register.  When the bit of the partition already has the wanted state
    it returns 0 at once, having written nothing.  Otherwise it writes the
    toggle register once, sets a deadline 50 ms ahead and polls: each poll
    tests the deadline and reads the status register, with a sleep of 10 to
    20 us between two polls; it returns 0 when a poll reads the wanted
    state and [-ETIMEDOUT], the Timeout error, when the deadline passes
    first.  With a running clock it returns.  The older
    [tegra_powergate_set] reads the status register in the same way, writes
    nothing when the bit has the wanted state and writes the toggle
    register once otherwise; it then returns 0 at once: it does not poll
    and never reports a Timeout. *)
Theorem powergate_set_contract (H : headers) (E : env) (fuel : nat)
    (pg : tegra_powergate) (new_state : bool) (t : trace) :
  let s := u32 (E (t ++ [(mutex_lock PMC, 0)]) (readl PMC PWRGATE_STATUS)) in
  let powered := negb (Z.land s (BIT (id pg)) =? 0) in
  let mask := if new_state then BIT (id pg) else 0 in
  let toggle := (writel PMC (u32 (Z.lor PWRGATE_TOGGLE_START (id pg))) PWRGATE_TOGGLE, 0) in
  (powered = new_state ->
   tegra_pmc_powergate_set H E fuel pg new_state t =
     Ok 0 (t ++ [(mutex_lock PMC, 0); (readl PMC PWRGATE_STATUS, s);
                 (mutex_unlock PMC, 0)]))
  /\ (powered <> new_state ->
      forall err t',
        tegra_pmc_powergate_set H E fuel pg new_state t = Ok err t' ->
        exists j polls,
          t' = t ++ [(mutex_lock PMC, 0); (readl PMC PWRGATE_STATUS, s); toggle;
                     (jiffies, j)] ++ polls ++ [(mutex_unlock PMC, 0)]
          /\ poll_history (fun j' => time_before H j' (j + msecs_to_jiffies H 50))
               PWRGATE_STATUS (fun v => Z.land v (BIT (id pg)) =? mask)
               10 20 (- ETIMEDOUT H) polls err
          /\ toggle_writes t' = S (toggle_writes t)
          /\ (err = 0 \/ err = - ETIMEDOUT H))
  /\ (forall n, clock_expires H E (time_before H) n 50 -> (n < fuel)%nat ->
      exists err t', tegra_pmc_powergate_set H E fuel pg new_state t = Ok err t')
  /\ tegra_powergate_set E (id pg) new_state t =
       Ok 0 (t ++ [(mutex_lock PMC, 0); (readl PMC PWRGATE_STATUS, s)]
               ++ (if Bool.eqb powered new_state then [] else [toggle])
               ++ [(mutex_unlock PMC, 0)]).
Proof.
  intros s powered mask toggle. split; [|split; [|split]].
  - intros Hsame. unfold tegra_pmc_powergate_set. drv. fold s. fold powered.
    rewrite Hsame, Bool.eqb_reflx. rewrite <- !app_assoc. reflexivity.
  - intros Hdiff err t'. unfold tegra_pmc_powergate_set. drv. fold s. fold powered.
    replace (Bool.eqb new_state powered) with false
      by (symmetry; apply Bool.eqb_false_iff; congruence).
    fold mask.
    destruct (powergate_set_wait H E fuel (id pg) mask _ _) as [e t1| |] eqn:Hrun;
      [| discriminate | discriminate].
    intros [= <- <-].
    apply powergate_set_wait_history in Hrun. destruct Hrun as (ev & -> & Hev).
    repeat rewrite <- app_assoc in Hev. repeat rewrite <- app_assoc.
    cbn [app] in Hev |- *.
    eexists _, ev.
    split; [reflexivity|]. split; [exact Hev|]. split.
    + unfold toggle_writes. rewrite count_app, !count_cons, count_app.
      rewrite (poll_history_count _ _ _ _ _ _ _ _ _
                 (is_write_to_is_write PMC PWRGATE_TOGGLE) Hev).
      unfold toggle. cbn [is_write_to fst window_eqb andb].
      rewrite Z.eqb_refl. unfold count. cbn [filter length is_write_to fst]. lia.
    + clear - Hev. induction Hev; auto.
  - intros n Hclock Hfuel. now apply powergate_set_returns with (n := n).
  - apply tegra_powergate_set_history.
Qed.

Lemma powergate_set_contract_witness :
  exists err t',
    tegra_pmc_powergate_set linux_headers (run_board quiet_board) 6 gpu_domain true [] =
      Ok err t'
    /\ toggle_writes t' = 1%nat.
Proof.
  destruct (powergate_set_contract linux_headers (run_board quiet_board) 6
              gpu_domain true []) as (_ & Hpoll & Hret & _).
  destruct (Hret 5%nat (board_clock_50 quiet_board) ltac:(lia)) as (err & t' & Hrun).
  exists err, t'. split; [exact Hrun|].
  destruct (Hpoll ltac:(discriminate) err t' Hrun) as (j & polls & _ & _ & Hw & _).
  exact Hw.
Defined.

(** On a board whose gates do not respond, a request to switch the 3D
    partition off never shows in the status register: the primitive of the
    domains polls until the deadline and returns the Timeout error, while
    [tegra_powergate_set] returns 0 right after its toggle write, without
    a poll. *)
Lemma tegra_powergate_set_does_not_poll :
  tegra_powergate_set (run_board stuck_board) (id gpu_domain) false [] =
    Ok 0 [(mutex_lock PMC, 0); (readl PMC PWRGATE_STATUS, 2);
          (writel PMC 257 PWRGATE_TOGGLE, 0); (mutex_unlock PMC, 0)]
  /\ tegra_pmc_powergate_set linux_headers (run_board stuck_board) 7 gpu_domain
       false [] =
       Ok (- ETIMEDOUT linux_headers)
          [(mutex_lock PMC, 0); (readl PMC PWRGATE_STATUS, 2);
           (writel PMC 257 PWRGATE_TOGGLE, 0); (jiffies, 0);
           (jiffies, 0); (readl PMC PWRGATE_STATUS, 2); (usleep_range 10 20, 0);
           (jiffies, 1); (readl PMC PWRGATE_STATUS, 2); (usleep_range 10 20, 0);
           (jiffies, 2); (readl PMC PWRGATE_STATUS, 2); (usleep_range 10 20, 0);
           (jiffies, 3); (readl PMC PWRGATE_STATUS, 2); (usleep_range 10 20, 0);
           (jiffies, 4); (readl PMC PWRGATE_STATUS, 2); (usleep_range 10 20, 0);
           (jiffies, 5); (mutex_unlock PMC, 0)].
Proof. split; vm_compute; reflexivity. Qed.

(** Two calls in a row on the simulated board: the first toggles the
    partition and sees it come up at its first poll, the second reads the
    status and writes nothing. *)
Example powergate_set_twice :
  exists t1,
    tegra_pmc_powergate_set linux_headers (run_board quiet_board) 6 gpu_domain true [] =
      Ok 0 t1
    /\ toggle_writes t1 = 1%nat
    /\ tegra_pmc_powergate_set linux_headers (run_board quiet_board) 6 gpu_domain true t1 =
         Ok 0 (t1 ++ [(mutex_lock PMC, 0); (readl PMC PWRGATE_STATUS, 2);
                      (mutex_unlock PMC, 0)]).
Proof.
  exists [(mutex_lock PMC, 0); (readl PMC PWRGATE_STATUS, 0);
          (writel PMC 257 PWRGATE_TOGGLE, 0); (jiffies, 0); (jiffies, 0);
          (readl PMC PWRGATE_STATUS, 2); (mutex_unlock PMC, 0)].
  repeat split; vm_compute; reflexivity.
Qed.

(** ** Hot reset *)

Lemma is_read_of_same (w : window) (offset v : Z) :
  is_read_of w offset (readl w offset, v) = true.
Proof.
  unfold is_read_of. cbn [fst]. rewrite Z.eqb_refl.
  destruct w; cbn; [reflexivity | now rewrite Z.eqb_refl].
Qed.

Lemma is_read_of_other (w : window) (offset offset' v : Z) :
  offset <> offset' -> is_read_of w offset (readl w offset', v) = false.
Proof.
  intros Hne. unfold is_read_of. cbn [fst].
  apply Z.eqb_neq in Hne. rewrite Hne. apply andb_false_r.
Qed.

Lemma count_repeat_read (w : window) (offset v : Z) (n : nat) :
  count (is_read_of w offset) (repeat (readl w offset, v) n) = n.
Proof.
  induction n as [|n IH]; [reflexivity|].
  cbn [repeat]. rewrite count_cons, is_read_of_same, IH. reflexivity.
Qed.

Lemma repeat_snoc {A} (a : A) (n : nat) : repeat a n ++ [a] = a :: repeat a n.
Proof. induction n as [|n IH]; cbn; [reflexivity | now rewrite IH]. Qed.

Section HotReset.

Variable E : env.
Variable mc : ptr.

(** The [for] loop of the stable check either finds a read that differs,
    or leaves [n] reads of [prv_stat] in the history. *)
Lemma stable_hotreset_for_run (reg prv_stat : Z) :
  forall n cur_stat t,
    exists r evs,
      stable_hotreset_for E n mc reg prv_stat cur_stat t = Ok r (t ++ evs)
      /\ (forall v, r = Some v ->
          evs = repeat (readl (MC mc) reg, prv_stat) n
          /\ v = match n with O => cur_stat | S _ => prv_stat end).
Proof.
  induction n as [|n IH]; intros cur_stat t; cbn [stable_hotreset_for]; drv.
  - exists (Some cur_stat), []. rewrite app_nil_r. split; [reflexivity|].
    intros v [= <-]. split; reflexivity.
  - destruct (Z.eqb_spec (u32 (E t (readl (MC mc) reg))) prv_stat) as [Heq|Hne];
      cbn [negb].
    + rewrite Heq.
      destruct (IH prv_stat (t ++ [(readl (MC mc) reg, prv_stat)])) as (r & evs & Hrun & Hr).
      exists r, ((readl (MC mc) reg, prv_stat) :: evs).
      rewrite Hrun, <- app_assoc. split; [reflexivity|].
      intros v Hv. destruct (Hr v Hv) as [-> ->]. split; [reflexivity|].
      destruct n; reflexivity.
    + exists None, [(readl (MC mc) reg, u32 (E t (readl (MC mc) reg)))].
      split; [reflexivity|]. discriminate.
Qed.

(** The stable check always returns.  When it answers [true] the history
    has grown by six reads of the value it stores; when it answers [false]
    the caller's value is untouched. *)
Lemma stable_hotreset_check_run (reg stat : Z) (t : trace) :
  exists b v evs,
    tegra114_stable_hotreset_check E mc reg stat t = Ok (b, v) (t ++ evs)
    /\ (b = true ->
        evs = repeat (readl (MC mc) reg, v) 6
        /\ v = u32 (E t (readl (MC mc) reg)))
    /\ (b = false -> v = stat).
Proof.
  unfold tegra114_stable_hotreset_check. drv.
  set (prv := u32 (E t (readl (MC mc) reg))).
  destruct (stable_hotreset_for_run reg prv 5 0 (t ++ [(readl (MC mc) reg, prv)]))
    as (r & evs & Hrun & Hr).
  rewrite Hrun. destruct r as [v|].
  - destruct (Hr v eq_refl) as [-> ->].
    exists true, prv, (repeat (readl (MC mc) reg, prv) 6).
    rewrite <- app_assoc. repeat split; [discriminate].
  - exists false, stat, ((readl (MC mc) reg, prv) :: evs).
    rewrite <- app_assoc. repeat split; discriminate.
Qed.

(** When the first two reads differ the check fails after these two. *)
Lemma stable_hotreset_check_glitch (reg stat a b : Z) (t : trace) :
  u32 (E t (readl (MC mc) reg)) = a ->
  u32 (E (t ++ [(readl (MC mc) reg, a)]) (readl (MC mc) reg)) = b ->
  a <> b ->
  tegra114_stable_hotreset_check E mc reg stat t =
    Ok (false, stat) (t ++ [(readl (MC mc) reg, a); (readl (MC mc) reg, b)]).
Proof.
  intros Ha Hb Hne. unfold tegra114_stable_hotreset_check. drv.
  rewrite Ha. cbn [stable_hotreset_for]. drv. rewrite Hb.
  replace (b =? a) with false by (symmetry; apply Z.eqb_neq; congruence).
  cbn [negb]. rewrite <- app_assoc. reflexivity.
Qed.

Lemma stable_hotreset_for_stable (reg c : Z) :
  forall n cur_stat t,
    (forall k, (k < n)%nat ->
       u32 (E (t ++ repeat (readl (MC mc) reg, c) k) (readl (MC mc) reg)) = c) ->
    stable_hotreset_for E n mc reg c cur_stat t =
      Ok (Some (match n with O => cur_stat | S _ => c end))
         (t ++ repeat (readl (MC mc) reg, c) n).
Proof.
  induction n as [|n IH]; intros cur_stat t Hc; cbn [stable_hotreset_for]; drv.
  - cbn [repeat]. now rewrite app_nil_r.
  - pose proof (Hc 0%nat ltac:(lia)) as H0. cbn [repeat] in H0.
    rewrite app_nil_r in H0. rewrite H0, Z.eqb_refl. cbn [negb].
    rewrite IH.
    + cbn [repeat]. rewrite <- app_assoc. destruct n; reflexivity.
    + intros k Hk. rewrite <- app_assoc. apply (Hc (S k)). lia.
Qed.

(** When six reads in a row return [c] the check succeeds with [c]. *)
Lemma stable_hotreset_check_stable (reg stat c : Z) (t : trace) :
  (forall k, (k < 6)%nat ->
     u32 (E (t ++ repeat (readl (MC mc) reg, c) k) (readl (MC mc) reg)) = c) ->
  tegra114_stable_hotreset_check E mc reg stat t =
    Ok (true, c) (t ++ repeat (readl (MC mc) reg, c) 6).
Proof.
  intros Hc. unfold tegra114_stable_hotreset_check. drv.
  pose proof (Hc 0%nat ltac:(lia)) as H0. cbn [repeat] in H0.
  rewrite app_nil_r in H0. rewrite H0.
  rewrite stable_hotreset_for_stable.
  - rewrite <- app_assoc. reflexivity.
  - intros k Hk. rewrite <- app_assoc. apply (Hc (S k)). lia.
Qed.

Variable hr : tegra_mc_hotreset.

(** When the flush loop ends, the history ends with six equal reads of the
    status register that show the bit of the group. *)
Lemma mc_flush_poll_history :
  forall fuel t u t',
    mc_flush_poll E fuel mc hr t = Ok u t' ->
    exists pre v,
      t' = t ++ pre ++ repeat (readl (MC mc) (status hr), v) 6
      /\ Z.land v (BIT (bit hr)) <> 0.
Proof.
  induction fuel as [|fuel IH]; intros t u t'; cbn [mc_flush_poll].
  - discriminate.
  - unfold bind at 1. unfold sys_void at 1. unfold bind at 1.
    destruct (stable_hotreset_check_run (status hr) 0 (t ++ [(udelay 10, 0)]))
      as (b & v & evs & Hrun & Htrue & Hfalse).
    rewrite Hrun. cbn [snd].
    destruct (Z.eqb_spec (Z.land v (BIT (bit hr))) 0) as [Hz|Hnz].
    + intros Hrest. apply IH in Hrest. destruct Hrest as (pre & v' & -> & Hv').
      exists ((udelay 10, 0) :: evs ++ pre), v'.
      split; [|exact Hv'].
      cbn [app]. repeat rewrite <- app_assoc. reflexivity.
    + intros [= <- <-]. destruct b.
      * destruct (Htrue eq_refl) as [-> _].
        exists [(udelay 10, 0)], v. split; [|exact Hnz].
        repeat rewrite <- app_assoc. reflexivity.
      * rewrite (Hfalse eq_refl) in Hnz. rewrite Z.land_0_l in Hnz. congruence.
Qed.

(** When no read of the status register ever shows the bit of the group,
    the flush loop is still running after any number of rounds. *)
Lemma mc_flush_poll_spins :
  (forall t, Z.land (u32 (E t (readl (MC mc) (status hr)))) (BIT (bit hr)) = 0) ->
  forall fuel t, mc_flush_poll E fuel mc hr t = Spin.
Proof.
  intros Hclear.
  induction fuel as [|fuel IH]; intros t; cbn [mc_flush_poll]; [reflexivity|].
  unfold bind at 1. unfold sys_void at 1. unfold bind at 1.
  destruct (stable_hotreset_check_run (status hr) 0 (t ++ [(udelay 10, 0)]))
    as (b & v & evs & Hrun & Htrue & Hfalse).
  rewrite Hrun. cbn [snd].
  assert (Hv : Z.land v (BIT (bit hr)) = 0).
  { destruct b.
    - destruct (Htrue eq_refl) as [_ ->]. apply Hclear.
    - rewrite (Hfalse eq_refl). apply Z.land_0_l. }
  rewrite Hv. cbn. apply IH.
Qed.

End HotReset.

Section HotResetRounds.

Variable E : env.
Variable mc : ptr.
Variable hr : tegra_mc_hotreset.

(** A round of the flush loop whose first two reads differ starts the
    next round after these two reads. *)
Lemma mc_flush_poll_glitch (fuel : nat) (t : trace) (a b : Z) :
  u32 (E (t ++ [(udelay 10, 0)]) (readl (MC mc) (status hr))) = a ->
  u32 (E (t ++ [(udelay 10, 0); (readl (MC mc) (status hr), a)])
         (readl (MC mc) (status hr))) = b ->
  a <> b ->
  mc_flush_poll E (S fuel) mc hr t =
    mc_flush_poll E fuel mc hr
      (t ++ [(udelay 10, 0); (readl (MC mc) (status hr), a);
             (readl (MC mc) (status hr), b)]).
Proof.
  intros Ha Hb Hne. cbn [mc_flush_poll].
  unfold bind at 1. unfold sys_void at 1. unfold bind at 1.
  rewrite (stable_hotreset_check_glitch E mc (status hr) 0 a b).
  - cbn [snd]. rewrite Z.land_0_l, Z.eqb_refl, <- app_assoc. reflexivity.
  - exact Ha.
  - rewrite <- app_assoc. exact Hb.
  - exact Hne.
Qed.

(** A round whose six reads agree on a value with the bit set ends the
    loop. *)
Lemma mc_flush_poll_stable (fuel : nat) (t : trace) (c : Z) :
  (forall k, (k < 6)%nat ->
     u32 (E (t ++ (udelay 10, 0) :: repeat (readl (MC mc) (status hr), c) k)
            (readl (MC mc) (status hr))) = c) ->
  Z.land c (BIT (bit hr)) <> 0 ->
  mc_flush_poll E (S fuel) mc hr t =
    Ok tt (t ++ (udelay 10, 0) :: repeat (readl (MC mc) (status hr), c) 6).
Proof.
  intros Hc Hbit. cbn [mc_flush_poll].
  unfold bind at 1. unfold sys_void at 1. unfold bind at 1.
  rewrite (stable_hotreset_check_stable E mc (status hr) 0 c).
  - cbn [snd]. apply Z.eqb_neq in Hbit. rewrite Hbit, <- app_assoc. reflexivity.
  - intros k Hk. rewrite <- app_assoc. apply Hc, Hk.
Qed.

End HotResetRounds.

(** What a completed flush leaves in the history: it returns 0 after six
    equal reads of the status register that show the bit of the group. *)
Lemma mc_flush_history (H : headers) (E : env) (mc : ptr)
    (hr : tegra_mc_hotreset) (fuel : nat) (t : trace) (err : Z) (t' : trace) :
  mc <> NULL ->
  tegra114_mc_flush H E fuel mc (Some hr) t = Ok err t' ->
  err = 0
  /\ exists pre v,
       t' = t ++ pre ++ repeat (readl (MC mc) (status hr), v) 6
              ++ [(mutex_unlock (MC mc), 0)]
       /\ Z.land v (BIT (bit hr)) <> 0.
Proof.
  intros Hmc. unfold tegra114_mc_flush.
  apply Z.eqb_neq in Hmc. rewrite Hmc. drv.
  destruct (mc_flush_poll E fuel mc hr _) as [u t1| |] eqn:Hpoll; [| discriminate | discriminate].
  intros [= <- <-]. split; [reflexivity|].
  apply mc_flush_poll_history in Hpoll. destruct Hpoll as (pre & v & -> & Hv).
  eexists (_ :: _ :: _ :: _ :: pre), v. split; [|exact Hv].
  repeat rewrite <- app_assoc. cbn [app]. reflexivity.
Qed.

(** C5: a flush reports convergence only after five equal reads of the
    status register in a row that show the bit of the group.  On a status
    register whose first four reads differ and whose later reads all return
    one value with the bit set, the flush runs three rounds, each after a
    delay of 10 us: two that stop at the second read, and one whose reads
    all agree. *)
Theorem flush_waits_for_stable_reads (H : headers) (E : env) (mc : ptr)
    (hr : tegra_mc_hotreset) (t : trace) :
  mc <> NULL ->
  (forall fuel err t',
     tegra114_mc_flush H E fuel mc (Some hr) t = Ok err t' ->
     exists pre v,
       t' = t ++ pre ++ repeat (readl (MC mc) (status hr), v) 5
              ++ [(mutex_unlock (MC mc), 0)]
       /\ Z.land v (BIT (bit hr)) <> 0)
  /\ (forall (f : nat -> Z) (c : Z) (fuel : nat),
        ctrl hr <> status hr ->
        (forall ev, u32 (E (t ++ ev) (readl (MC mc) (status hr))) =
                    f (count (is_read_of (MC mc) (status hr)) ev)) ->
        f 0%nat <> f 1%nat -> f 2%nat <> f 3%nat ->
        (forall k, (4 <= k)%nat -> f k = c) ->
        Z.land c (BIT (bit hr)) <> 0 ->
        (3 <= fuel)%nat ->
        exists v0 v1,
          tegra114_mc_flush H E fuel mc (Some hr) t =
            Ok 0 (t ++ [(mutex_lock (MC mc), 0);
                        (readl (MC mc) (ctrl hr), v0);
                        (writel (MC mc) (u32 (Z.lor v0 (BIT (bit hr)))) (ctrl hr), 0);
                        (readl (MC mc) (ctrl hr), v1);
                        (udelay 10, 0);
                        (readl (MC mc) (status hr), f 0%nat);
                        (readl (MC mc) (status hr), f 1%nat);
                        (udelay 10, 0);
                        (readl (MC mc) (status hr), f 2%nat);
                        (readl (MC mc) (status hr), f 3%nat);
                        (udelay 10, 0)]
                    ++ repeat (readl (MC mc) (status hr), c) 6
                    ++ [(mutex_unlock (MC mc), 0)])).
Proof.
  intros Hmc. split.
  - intros fuel err t' Hrun.
    destruct (mc_flush_history H E mc hr fuel t err t' Hmc Hrun)
      as (_ & pre & v & -> & Hv).
    exists (pre ++ [(readl (MC mc) (status hr), v)]), v. split; [|exact Hv].
    cbn [repeat app]. repeat rewrite <- app_assoc. reflexivity.
  - intros f c fuel Hoff Hf H01 H23 Hc Hbit Hfuel.
    destruct fuel as [|[|[|fuel]]]; try lia.
    assert (Hctrl : forall v, is_read_of (MC mc) (status hr) (readl (MC mc) (ctrl hr), v) = false)
      by (intros v; apply is_read_of_other; congruence).
    unfold tegra114_mc_flush.
    apply Z.eqb_neq in Hmc. rewrite Hmc. drv.
    set (v0 := u32 (E (t ++ [(mutex_lock (MC mc), 0)]) (readl (MC mc) (ctrl hr)))).
    set (v1 := u32 (E _ (readl (MC mc) (ctrl hr)))).
    exists v0, v1.
    repeat rewrite <- app_assoc. cbn [app].
    rewrite (mc_flush_poll_glitch E mc hr _ _ (f 0%nat) (f 1%nat)); cycle 1.
    { rewrite <- app_assoc. cbn [app]. rewrite Hf.
      rewrite !count_cons, !Hctrl. reflexivity. }
    { rewrite <- app_assoc. cbn [app]. rewrite Hf.
      rewrite !count_cons, !Hctrl, is_read_of_same. reflexivity. }
    { exact H01. }
    repeat rewrite <- app_assoc. cbn [app].
    rewrite (mc_flush_poll_glitch E mc hr _ _ (f 2%nat) (f 3%nat)); cycle 1.
    { rewrite <- app_assoc. cbn [app]. rewrite Hf.
      rewrite !count_cons, !Hctrl, !is_read_of_same. reflexivity. }
    { rewrite <- app_assoc. cbn [app]. rewrite Hf.
      rewrite !count_cons, !Hctrl, !is_read_of_same. reflexivity. }
    { exact H23. }
    repeat rewrite <- app_assoc. cbn [app].
    rewrite (mc_flush_poll_stable E mc hr _ _ c); cycle 1.
    { intros k Hk. rewrite <- app_assoc. cbn [app]. rewrite Hf.
      rewrite !count_cons, !Hctrl, !is_read_of_same, count_repeat_read.
      apply Hc. cbn [is_read_of fst]. lia. }
    { exact Hbit. }
    repeat rewrite <- app_assoc. cbn [app]. reflexivity.
Qed.

Lemma flush_waits_for_stable_reads_witness :
  exists v0 v1,
    tegra114_mc_flush linux_headers (run_board glitchy_board) 3 9 (Some dc_hotreset) [] =
      Ok 0 ([(mutex_lock (MC 9), 0);
             (readl (MC 9) 0x200, v0);
             (writel (MC 9) (u32 (Z.lor v0 4)) 0x200, 0);
             (readl (MC 9) 0x200, v1);
             (udelay 10, 0); (readl (MC 9) 0x204, 1); (readl (MC 9) 0x204, 2);
             (udelay 10, 0); (readl (MC 9) 0x204, 3); (readl (MC 9) 0x204, 5);
             (udelay 10, 0)]
            ++ repeat (readl (MC 9) 0x204, 4) 6
            ++ [(mutex_unlock (MC 9), 0)]).
Proof.
  destruct (flush_waits_for_stable_reads linux_headers (run_board glitchy_board) 9
              dc_hotreset []) as [_ Hs]; [discriminate|].
  apply (Hs (mc_reads glitchy_board 0x204) 4 3%nat).
  - discriminate.
  - intros ev. cbn [app run_board dc_hotreset status].
    destruct (count _ ev) as [|[|[|[|[|n]]]]]; reflexivity.
  - discriminate.
  - discriminate.
  - intros k Hk. destruct k as [|[|[|[|k]]]]; try lia; reflexivity.
  - discriminate.
  - lia.
Defined.

(** C7: with a null controller or a null descriptor both
    [tegra114_mc_flush] and [tegra114_mc_flush_done] return [-EINVAL], the
    InvalidArgument error, and touch nothing.  Otherwise a flush that
    returns returns 0, and it does return when the status register holds a
    value with the bit of the group set; and flush-done returns 0 after one
    read of the control register, one write of it with the bit cleared and
    one more read of it, without any read of the status register. *)
Theorem flush_results (H : headers) (E : env) (fuel : nat) (mc : ptr)
    (hotreset : option tegra_mc_hotreset) (t : trace) :
  (mc = NULL \/ hotreset = None ->
   tegra114_mc_flush H E fuel mc hotreset t = Ok (- EINVAL H) t
   /\ tegra114_mc_flush_done H E mc hotreset t = Ok (- EINVAL H) t
   /\ error_kind_of H (- EINVAL H) = Some InvalidArgument)
  /\ (forall hr, mc <> NULL -> hotreset = Some hr ->
      (forall err t', tegra114_mc_flush H E fuel mc hotreset t = Ok err t' -> err = 0)
      /\ (forall c,
            (forall t', u32 (E t' (readl (MC mc) (status hr))) = c) ->
            Z.land c (BIT (bit hr)) <> 0 -> (0 < fuel)%nat ->
            exists t', tegra114_mc_flush H E fuel mc hotreset t = Ok 0 t')
      /\ (exists v0 v1,
            tegra114_mc_flush_done H E mc hotreset t =
              Ok 0 (t ++ [(mutex_lock (MC mc), 0);
                          (readl (MC mc) (ctrl hr), v0);
                          (writel (MC mc) (u32 (Z.land v0 (Z.lnot (BIT (bit hr))))) (ctrl hr), 0);
                          (readl (MC mc) (ctrl hr), v1);
                          (mutex_unlock (MC mc), 0)]))).
Proof.
  split.
  - intros Hnull. unfold tegra114_mc_flush, tegra114_mc_flush_done, error_kind_of.
    rewrite Z.eqb_refl.
    destruct hotreset as [hr|]; [|repeat split].
    destruct Hnull as [-> | Hnone]; [|discriminate].
    cbn. repeat split.
  - intros hr Hmc ->. repeat split.
    + intros err t' Hrun.
      now destruct (mc_flush_history H E mc hr fuel t err t' Hmc Hrun).
    + intros c Hc Hbit Hfuel. destruct fuel as [|fuel]; [lia|].
      unfold tegra114_mc_flush.
      apply Z.eqb_neq in Hmc. rewrite Hmc. drv.
      rewrite (mc_flush_poll_stable E mc hr fuel _ c).
      * eexists. reflexivity.
      * intros k _. apply Hc.
      * exact Hbit.
    + unfold tegra114_mc_flush_done.
      apply Z.eqb_neq in Hmc. rewrite Hmc. drv.
      do 2 eexists. repeat rewrite <- app_assoc. reflexivity.
Qed.

Lemma flush_results_witness :
  tegra114_mc_flush linux_headers (run_board quiet_board) 3 NULL (Some dc_hotreset) [] =
    Ok (-22) []
  /\ tegra114_mc_flush_done linux_headers (run_board quiet_board) NULL (Some dc_hotreset) [] =
       Ok (-22) []
  /\ exists v0 v1,
       tegra114_mc_flush_done linux_headers (run_board quiet_board) 9 (Some dc_hotreset) [] =
         Ok 0 [(mutex_lock (MC 9), 0); (readl (MC 9) 0x200, v0);
               (writel (MC 9) (u32 (Z.land v0 (Z.lnot 4))) 0x200, 0);
               (readl (MC 9) 0x200, v1); (mutex_unlock (MC 9), 0)].
Proof.
  destruct (flush_results linux_headers (run_board quiet_board) 3 NULL
              (Some dc_hotreset) []) as [Hnull _].
  destruct (Hnull (or_introl eq_refl)) as (Hf & Hd & _).
  destruct (flush_results linux_headers (run_board quiet_board) 3 9
              (Some dc_hotreset) []) as [_ Hok].
  destruct (Hok dc_hotreset ltac:(discriminate) eq_refl) as (_ & _ & Hdone).
  split; [exact Hf | split; [exact Hd | exact Hdone]].
Defined.

(** C8: the wait loop of [tegra_pmc_powergate_set] and the loop of
    [tegra_io_rail_poll] test a deadline, 50 ms and 250 ms ahead, at each
    round: once the clock has passed the deadline they return, whatever the
    registers read.  The flush loop of [tegra114_mc_flush] tests no
    deadline: when the status register never shows the bit of the group it
    is still running after any number of rounds, with the same clock. *)
Theorem only_flush_loop_is_unbounded (H : headers) (E : env) (n1 n2 : nat) :
  clock_expires H E (time_before H) n1 50 ->
  clock_expires H E (fun j timeout => time_after H timeout j) n2 250 ->
  (forall fuel pg new_state t,
     (n1 < fuel)%nat ->
     exists err t', tegra_pmc_powergate_set H E fuel pg new_state t = Ok err t')
  /\ (forall fuel offset mask val t,
        (n2 < fuel)%nat ->
        exists err t', tegra_io_rail_poll H E fuel offset mask val 250 t = Ok err t')
  /\ (forall mc hr t,
        mc <> NULL ->
        (forall t', Z.land (u32 (E t' (readl (MC mc) (status hr)))) (BIT (bit hr)) = 0) ->
        forall fuel, tegra114_mc_flush H E fuel mc (Some hr) t = Spin).
Proof.
  intros H50 H250. repeat split.
  - intros fuel pg new_state t Hfuel. now apply powergate_set_returns with (n := n1).
  - intros fuel offset mask val t Hfuel. now apply io_rail_poll_returns with (n := n2).
  - intros mc hr t Hmc Hclear fuel. unfold tegra114_mc_flush.
    apply Z.eqb_neq in Hmc. rewrite Hmc. drv.
    now rewrite mc_flush_poll_spins.
Qed.

Lemma only_flush_loop_is_unbounded_witness :
  (exists err t',
     tegra_pmc_powergate_set linux_headers (run_board stuck_board) 6 gpu_domain false [] =
       Ok err t')
  /\ (exists err t',
        tegra_io_rail_poll linux_headers (run_board stuck_board) 26 IO_DPD_STATUS 32 32 250 [] =
          Ok err t')
  /\ forall fuel,
       tegra114_mc_flush linux_headers (run_board stuck_board) fuel 9 (Some dc_hotreset) [] =
         Spin.
Proof.
  destruct (only_flush_loop_is_unbounded linux_headers (run_board stuck_board) 5 25
              (board_clock_50 stuck_board) (board_clock_250 stuck_board))
    as (Hset & Hpoll & Hflush).
  repeat split.
  - apply Hset. lia.
  - apply Hpoll. lia.
  - apply Hflush; [discriminate | reflexivity].
Defined.

(** ** Resource bundles *)

(** The slot at index [i] is null and nothing is registered from there on,
    or it heads the rest of the array. *)
Lemma skipn_nth (arr : list ptr) :
  forall i,
    (skipn i arr = [] /\ nth i arr NULL = NULL)
    \/ (exists p rest,
          skipn i arr = p :: rest /\ nth i arr NULL = p /\ skipn (S i) arr = rest).
Proof.
  induction arr as [|a arr IH]; intros i.
  - left. destruct i; split; reflexivity.
  - destruct i as [|i].
    + right. exists a, arr. repeat split.
    + cbn [skipn nth]. destruct (IH i) as [Hnil | (p & rest & Hs & Hn & Hr)].
      * left. exact Hnil.
      * right. exists p, rest. repeat split; assumption.
Qed.

Lemma firstn_snoc_nth (arr : list ptr) :
  forall i, (i < length arr)%nat ->
    firstn (S i) arr = firstn i arr ++ [nth i arr NULL].
Proof.
  induction arr as [|a arr IH]; intros i Hi; cbn [length] in Hi; [lia|].
  destruct i as [|i]; [reflexivity|].
  cbn [firstn nth app]. rewrite <- IH by lia. reflexivity.
Qed.

Lemma nth_not_null_lt (arr : list ptr) (i : nat) :
  nth i arr NULL <> NULL -> (i < length arr)%nat.
Proof.
  intros Hn. destruct (Nat.lt_ge_cases i (length arr)) as [|Hge]; [assumption|].
  rewrite nth_overflow in Hn by assumption. congruence.
Qed.

Section Bundles.

Variable E : env.

(** A loop over an array of handles applies the operation to the
    registered handles, in order, up to the first failure. *)
Lemma bundle_for_in_order (op : ptr -> call) (arr : list ptr) :
  forall n i t,
    bundle_for E op n i arr t = in_order E op (bundle n (skipn i arr)) t.
Proof.
  induction n as [|n IH]; intros i t; cbn [bundle_for bundle].
  - reflexivity.
  - destruct (skipn_nth arr i) as [[Hs Hn] | (p & rest & Hs & Hn & Hr)];
      rewrite Hs, Hn.
    + reflexivity.
    + destruct (p =? NULL); [reflexivity|].
      cbn [in_order]. unfold bind.
      destruct (sys E (op p) t) as [err t1| |]; [| reflexivity | reflexivity].
      destruct (err =? 0); [|reflexivity].
      rewrite IH, Hr. reflexivity.
Qed.

Variable pg : tegra_powergate.

(** The unwinding loop disables the first [i] clocks, last first. *)
Lemma enable_clocks_out_rev :
  forall i t, (i <= length (clk pg))%nat ->
    enable_clocks_out i pg t =
      in_order_void clk_disable_unprepare (rev (firstn i (clk pg))) t.
Proof.
  induction i as [|i IH]; intros t Hi; cbn [enable_clocks_out].
  - reflexivity.
  - rewrite firstn_snoc_nth by lia. rewrite rev_unit.
    cbn [in_order_void]. unfold bind.
    destruct (sys_void (clk_disable_unprepare (nth i (clk pg) NULL)) t) as [u t1| |];
      [| reflexivity | reflexivity].
    apply IH. lia.
Qed.

Lemma enable_clocks_for_bundle :
  forall n i t, (i <= length (clk pg))%nat ->
    enable_clocks_for E n i pg t =
      enable_bundle E (rev (firstn i (clk pg))) (bundle n (skipn i (clk pg))) t.
Proof.
  induction n as [|n IH]; intros i t Hi; cbn [enable_clocks_for bundle].
  - reflexivity.
  - destruct (skipn_nth (clk pg) i) as [[Hs Hn] | (p & rest & Hs & Hn & Hr)];
      rewrite Hs, Hn.
    + reflexivity.
    + destruct (Z.eqb_spec p NULL) as [|Hp]; [reflexivity|].
      assert (Hlt : (i < length (clk pg))%nat)
        by (apply nth_not_null_lt; congruence).
      cbn [enable_bundle]. unfold bind.
      destruct (sys E (clk_prepare_enable p) t) as [err t1| |]; [| reflexivity | reflexivity].
      destruct (err =? 0).
      * rewrite IH by lia. rewrite Hr, firstn_snoc_nth by lia.
        rewrite rev_unit, Hn. reflexivity.
      * rewrite enable_clocks_out_rev by lia. reflexivity.
Qed.

Lemma disable_clocks_for_in_order :
  forall n i t,
    disable_clocks_for n i pg t =
      in_order_void clk_disable_unprepare (bundle n (skipn i (clk pg))) t.
Proof.
  induction n as [|n IH]; intros i t; cbn [disable_clocks_for bundle].
  - reflexivity.
  - destruct (skipn_nth (clk pg) i) as [[Hs Hn] | (p & rest & Hs & Hn & Hr)];
      rewrite Hs, Hn.
    + reflexivity.
    + destruct (p =? NULL); [reflexivity|].
      cbn [in_order_void]. unfold bind.
      destruct (sys_void (clk_disable_unprepare p) t) as [u t1| |]; [| reflexivity | reflexivity].
      rewrite IH, Hr. reflexivity.
Qed.

(** The loops of the sources, on the registered handles. *)
Lemma enable_clocks_spec (t : trace) :
  tegra_pmc_powergate_enable_clocks E pg t = enable_bundle E [] (clocks_of pg) t.
Proof.
  unfold tegra_pmc_powergate_enable_clocks, clocks_of.
  rewrite enable_clocks_for_bundle by (cbn; lia). reflexivity.
Qed.

Lemma disable_clocks_spec (t : trace) :
  tegra_pmc_powergate_disable_clocks pg t =
    in_order_void clk_disable_unprepare (clocks_of pg) t.
Proof.
  unfold tegra_pmc_powergate_disable_clocks, clocks_of.
  now rewrite disable_clocks_for_in_order.
Qed.

Lemma reset_assert_spec (t : trace) :
  tegra_pmc_powergate_reset_assert E pg t =
    in_order E reset_control_assert (resets_of pg) t.
Proof. apply bundle_for_in_order. Qed.

Lemma reset_deassert_spec (t : trace) :
  tegra_pmc_powergate_reset_deassert E pg t =
    in_order E reset_control_deassert (resets_of pg) t.
Proof. apply bundle_for_in_order. Qed.

Lemma mc_flush_spec (t : trace) :
  tegra_pmc_powergate_mc_flush E pg t =
    in_order E tegra_mc_flush (swgroups_of pg) t.
Proof. apply bundle_for_in_order. Qed.

Lemma mc_flush_done_spec (t : trace) :
  tegra_pmc_powergate_mc_flush_done E pg t =
    in_order E tegra_mc_flush_done (swgroups_of pg) t.
Proof. apply bundle_for_in_order. Qed.

End Bundles.

(** ** The two transitions *)

(** Case analysis on the next test or result of a computation. *)
Ltac simple_test b :=
  lazymatch b with
  | context [if _ then _ else _] => fail
  | context [match _ with Ok _ _ => _ | Spin => _ | Fault => _ end] => fail
  | _ => idtac
  end.

Ltac next_case :=
  first
    [ match goal with
      | p : (Z * tegra_powergate)%type |- _ => destruct p as [? ?]
      end
    | match goal with
      | |- context [if negb ?b then _ else _] =>
          simple_test b; destruct b eqn:?; cbn [negb]
      end
    | match goal with
      | |- context [if ?b then _ else _] =>
          simple_test b; destruct b eqn:?
      end
    | match goal with
      | |- context [match ?x with Ok _ _ => _ | Spin => _ | Fault => _ end] =>
          simple_test x; destruct x as [? ?| |] eqn:?
      end ].

(** Runs both sides of a sequence equation to their next call. *)
Ltac run_on :=
  cbn [fst snd run_steps app action failed checked quiet settle negb Z.eqb];
  rewrite ?enable_clocks_spec, ?disable_clocks_spec, ?reset_assert_spec,
    ?reset_deassert_spec, ?mc_flush_done_spec, ?mc_flush_spec;
  drv.

(** The power-on of the sources is the step list with the last step in
    registration order. *)
Lemma power_on_follows_steps (H : headers) (E : env) (soc : tegra_pmc_soc)
    (fuel : nat) (pg : tegra_powergate) (t : trace) :
  tegra_pmc_powergate_power_on H E soc fuel pg t =
    power_on_in_order H E soc fuel pg t.
Proof.
  unfold tegra_pmc_powergate_power_on, power_on_in_order, power_on_sequence,
    power_up, power_on_steps.
  drv.
  repeat (next_case; try discriminate; run_on; try reflexivity).
Qed.

(** The power-off of the sources is the step list whose last step looks at
    the regulator handle. *)
Lemma power_off_follows_steps (H : headers) (E : env) (soc : tegra_pmc_soc)
    (fuel : nat) (pg : tegra_powergate) (t : trace) :
  tegra_pmc_powergate_power_off H E soc fuel pg t =
    power_off_by_handle H E soc fuel pg t.
Proof.
  unfold tegra_pmc_powergate_power_off, power_off_by_handle, power_off_sequence,
    power_off_steps, power_down.
  drv.
  repeat (next_case; try discriminate; run_on; try reflexivity).
Qed.

(** How a step list runs: a failed step ends the run with its result, the
    steps before it are not undone and the steps after it are not run. *)
Lemma run_steps_fails (s : step) (l : list step) (t : trace) (err : Z) (t' : trace) :
  action s t = Ok err t' -> failed s err = true ->
  run_steps (s :: l) t = Ok err t'.
Proof. intros Hs Hf. cbn [run_steps]. unfold bind. now rewrite Hs, Hf. Qed.

Lemma run_steps_continues (s : step) (l : list step) (t : trace) (err : Z) (t' : trace) :
  action s t = Ok err t' -> failed s err = false ->
  run_steps (s :: l) t = run_steps l t'.
Proof. intros Hs Hf. cbn [run_steps]. unfold bind. now rewrite Hs, Hf. Qed.

(** C1 (amended): [tegra_pmc_powergate_power_on] runs, in this order and
    stopping at the first failure with its error and without undoing what
    was done: (1) acquire and enable the regulator of a regulator-backed
    domain, else switch the partition on, a negative result being the
    failure; (2) a delay of 10 us; then, a non-zero result being the
    failure, (3) on a legacy chip the resets asserted in registration order
    and a delay; (4) except for PCIE the clocks enabled in registration
    order, those already enabled being disabled latest first on a failure,
    and a delay; (5) the clamps removed and a delay; (6) the resets
    de-asserted in registration order and a delay; (7) flush-done signalled
    to the swgroups in registration order and a delay; (8) except for PCIE
    the clocks disabled in registration order. *)
Theorem power_on_step_order (H : headers) (E : env) (soc : tegra_pmc_soc)
    (fuel : nat) (pg : tegra_powergate) (t : trace) :
  tegra_pmc_powergate_power_on H E soc fuel pg t =
    power_on_sequence H E (fun clocks => clocks) soc fuel pg t.
Proof. apply power_on_follows_steps. Qed.

Lemma power_on_step_order_witness :
  tegra_pmc_powergate_power_on linux_headers (run_board quiet_board)
    tegra124_pmc_soc 6 rail_domain [] =
    Ok (0, set_vdd rail_domain 600)
       [(of_find_device_by_node 42, 500); (devm_regulator_get_optional 500, 600);
        (regulator_enable 600, 0); (udelay 10, 0);
        (clk_prepare_enable 11, 0); (clk_prepare_enable 12, 0); (udelay 10, 0);
        (writel PMC 0 GPU_RG_CNTRL, 0); (udelay 10, 0);
        (reset_control_deassert 21, 0); (udelay 10, 0);
        (tegra_mc_flush_done 31, 0); (udelay 10, 0);
        (clk_disable_unprepare 11, 0); (clk_disable_unprepare 12, 0)].
Proof.
  rewrite (power_on_step_order linux_headers (run_board quiet_board)
             tegra124_pmc_soc 6 rail_domain []).
  vm_compute. reflexivity.
Defined.

(** C1 as stated fails: after a power-on with two clocks, 11 and 12, the
    last step disables 11 and then 12, where the reverse order is
    specified. *)
Lemma power_on_disables_in_registration_order :
  exists t',
    tegra_pmc_powergate_power_on linux_headers (run_board quiet_board)
      tegra124_pmc_soc 6 gpu_domain [] =
      Ok (0, gpu_domain)
         (t' ++ [(clk_disable_unprepare 11, 0); (clk_disable_unprepare 12, 0)])
    /\ power_on_as_specified linux_headers (run_board quiet_board)
         tegra124_pmc_soc 6 gpu_domain [] =
         Ok (0, gpu_domain)
            (t' ++ [(clk_disable_unprepare 12, 0); (clk_disable_unprepare 11, 0)])
    /\ tegra_pmc_powergate_power_on linux_headers (run_board quiet_board)
         tegra124_pmc_soc 6 gpu_domain [] <>
       power_on_as_specified linux_headers (run_board quiet_board)
         tegra124_pmc_soc 6 gpu_domain [].
Proof.
  exists [(mutex_lock PMC, 0); (readl PMC PWRGATE_STATUS, 0);
          (writel PMC 257 PWRGATE_TOGGLE, 0); (jiffies, 0); (jiffies, 0);
          (readl PMC PWRGATE_STATUS, 2); (mutex_unlock PMC, 0); (udelay 10, 0);
          (clk_prepare_enable 11, 0); (clk_prepare_enable 12, 0); (udelay 10, 0);
          (writel PMC 0 GPU_RG_CNTRL, 0); (udelay 10, 0);
          (reset_control_deassert 21, 0); (udelay 10, 0);
          (tegra_mc_flush_done 31, 0); (udelay 10, 0)].
  split; [vm_compute; reflexivity|].
  split; [vm_compute; reflexivity|].
  vm_compute. discriminate.
Qed.

(** A failure in the middle of power-on, on a legacy chip: the second clock
    cannot be enabled, the first one is disabled again and the error is
    returned; the partition stays on and the reset stays asserted. *)
Example power_on_clock_failure :
  tegra_pmc_powergate_power_on linux_headers (run_board broken_clock_board)
    tegra20_pmc_soc 6 gpu_domain [] =
    Ok (-5, gpu_domain)
       [(mutex_lock PMC, 0); (readl PMC PWRGATE_STATUS, 0);
        (writel PMC 257 PWRGATE_TOGGLE, 0); (jiffies, 0); (jiffies, 0);
        (readl PMC PWRGATE_STATUS, 2); (mutex_unlock PMC, 0); (udelay 10, 0);
        (reset_control_assert 21, 0); (udelay 10, 0);
        (clk_prepare_enable 11, 0); (clk_prepare_enable 12, -5);
        (clk_disable_unprepare 11, 0)].
Proof. vm_compute. reflexivity. Qed.

(** When the regulator handle is there exactly for the regulator-backed
    domains, power-off runs as specified: on a modern chip the clocks are
    enabled and the swgroups flushed, the resets are asserted, the clocks
    are disabled again, and the regulator is disabled or the partition
    switched off. *)
Lemma power_off_as_specified_with_handle (H : headers) (E : env)
    (soc : tegra_pmc_soc) (fuel : nat) (pg : tegra_powergate) (t : trace) :
  is_vdd pg = negb (vdd pg =? NULL) ->
  tegra_pmc_powergate_power_off H E soc fuel pg t =
    power_off_as_specified H E soc fuel pg t.
Proof.
  intros Hvdd. rewrite power_off_follows_steps.
  unfold power_off_by_handle, power_off_as_specified, power_off_sequence,
    power_off_steps, power_down.
  rewrite Hvdd. reflexivity.
Qed.

(** The regulator lookup of registration, when no device is found for the
    node: the error is [-EINVAL] and the handle stays null. *)
Example get_regulator_not_found :
  let pg := {| id := 1; of_node := NULL; clk := [11; 12]; reset := [21];
               swgroup := [31]; is_vdd := true; vdd := NULL |} in
  tegra_powergate_get_regulator linux_headers (run_board running_board) pg [] =
    Ok (-22, pg) [(of_find_device_by_node NULL, NULL)].
Proof. reflexivity. Qed.

(** C2, at the failing input: a regulator-backed domain whose regulator was
    not found at registration has its flag set and a null handle; its
    power-off, after the common steps, toggles the partition in the PMC and
    polls the status register, where the regulator is the one to switch
    off. *)
Theorem power_off_without_regulator_handle :
  is_vdd rail_domain = true
  /\ tegra_pmc_powergate_power_off linux_headers (run_board running_board)
       tegra124_pmc_soc 6 rail_domain [] =
       Ok 0 [(clk_prepare_enable 11, 0); (clk_prepare_enable 12, 0); (udelay 10, 0);
             (tegra_mc_flush 31, 0); (udelay 10, 0);
             (reset_control_assert 21, 0); (udelay 10, 0);
             (clk_disable_unprepare 11, 0); (clk_disable_unprepare 12, 0);
             (udelay 10, 0);
             (mutex_lock PMC, 0); (readl PMC PWRGATE_STATUS, 2);
             (writel PMC 257 PWRGATE_TOGGLE, 0); (jiffies, 0); (jiffies, 0);
             (readl PMC PWRGATE_STATUS, 0); (mutex_unlock PMC, 0)]
  /\ tegra_pmc_powergate_power_off linux_headers (run_board running_board)
       tegra124_pmc_soc 6 rail_domain [] <>
     power_off_as_specified linux_headers (run_board running_board)
       tegra124_pmc_soc 6 rail_domain [].
Proof.
  split; [reflexivity|].
  split; [vm_compute; reflexivity|].
  vm_compute. discriminate.
Qed.

(** * Further properties *)

(** ** Bits of register values *)

Lemma testbit_u32 (x i : Z) : 0 <= i < 32 -> Z.testbit (u32 x) i = Z.testbit x i.
Proof. intros Hi. unfold u32. apply Z.mod_pow2_bits_low. lia. Qed.

Lemma testbit_u32_high (x i : Z) : 32 <= i -> Z.testbit (u32 x) i = false.
Proof. intros Hi. unfold u32. apply Z.mod_pow2_bits_high. lia. Qed.

Lemma testbit_one_shifted (n i : Z) :
  0 <= n -> Z.testbit (Z.shiftl 1 n) i = (i =? n).
Proof.
  intros Hn. rewrite Z.shiftl_1_l. rewrite Z.pow2_bits_eqb by assumption.
  apply Z.eqb_sym.
Qed.

Lemma u32_range (x : Z) : 0 <= u32 x < 2 ^ 32.
Proof. unfold u32. apply Z.mod_pos_bound. lia. Qed.

Lemma u32_idemp (x : Z) : u32 (u32 x) = u32 x.
Proof. apply u32_small, u32_range. Qed.

Lemma land_bit_cases (v n : Z) :
  0 <= n ->
  (Z.testbit v n = false /\ Z.land v (BIT n) = 0)
  \/ (Z.testbit v n = true /\ Z.land v (BIT n) = BIT n).
Proof.
  intros Hn. unfold BIT. destruct (Z.testbit v n) eqn:Hb; [right | left];
    (split; [reflexivity|]); apply Z.bits_inj'; intros i Hi;
    rewrite Z.land_spec, testbit_one_shifted by assumption.
  - destruct (Z.eqb_spec i n) as [->|]; [now rewrite Hb | apply andb_false_r].
  - rewrite Z.bits_0.
    destruct (Z.eqb_spec i n) as [->|]; [now rewrite Hb | apply andb_false_r].
Qed.

Lemma BIT_pos (n : Z) : 0 <= n -> 0 < BIT n.
Proof. intros Hn. unfold BIT. rewrite Z.shiftl_1_l. now apply Z.pow_pos_nonneg. Qed.

(** The partition bit of a status word is set exactly when the word
    matches the mask of the "on" state. *)
Lemma status_matches (v n : Z) (st : bool) :
  0 <= n ->
  (Z.land v (BIT n) =? (if st then BIT n else 0)) =
    Bool.eqb (negb (Z.land v (BIT n) =? 0)) st.
Proof.
  intros Hn. pose proof (BIT_pos n Hn) as Hp.
  destruct (land_bit_cases v n Hn) as [[_ Hc] | [_ Hc]]; destruct st;
    cbv beta iota;
    match goal with
    | |- (?a =? ?b) = Bool.eqb (negb (?a =? 0)) _ =>
        destruct (Z.eqb_spec a b); destruct (Z.eqb_spec a 0)
    end; cbn [negb Bool.eqb]; try reflexivity; lia.
Qed.

(** ** The last value read from a register *)

Lemma last_read_from (w : window) (offset : Z) (t : trace) (acc : option Z) :
  fold_left (fun a e => if is_read_of w offset e then Some (snd e) else a) t acc =
    match last_read w offset t with
    | Some v => Some v
    | None => acc
    end.
Proof.
  unfold last_read. revert acc.
  induction t as [|e t IH]; intros acc; cbn [fold_left]; [reflexivity|].
  rewrite IH. rewrite (IH (if is_read_of w offset e then Some (snd e) else None)).
  destruct (fold_left _ t None); [reflexivity|].
  destruct (is_read_of w offset e); reflexivity.
Qed.

Lemma last_read_app (w : window) (offset : Z) (t1 t2 : trace) :
  last_read w offset (t1 ++ t2) =
    match last_read w offset t2 with
    | Some v => Some v
    | None => last_read w offset t1
    end.
Proof. unfold last_read at 1. rewrite fold_left_app. apply last_read_from. Qed.

(** A polling loop that ends with 0 has just read a value that passes its
    test; one that times out has read no such value. *)
Lemma poll_history_done (pending : Z -> bool) (offset : Z) (done : Z -> bool)
    (lo hi timed_out : Z) (ev : trace) :
  timed_out <> 0 ->
  poll_history pending offset done lo hi timed_out ev 0 ->
  exists pre j v,
    ev = pre ++ [(jiffies, j); (readl PMC offset, v)] /\ done v = true.
Proof.
  intros Hne Hev. remember 0 as err eqn:Herr.
  induction Hev as [j Hj | j v Hj Hv | j v rest err Hj Hv Hrest IH].
  - congruence.
  - exists [], j, v. split; [reflexivity | assumption].
  - destruct (IH Herr Hne) as (pre & j' & v' & -> & Hd).
    exists ((jiffies, j) :: (readl PMC offset, v) :: (usleep_range lo hi, 0) :: pre), j', v'.
    split; [reflexivity | assumption].
Qed.

Lemma poll_history_timed_out (pending : Z -> bool) (offset : Z) (done : Z -> bool)
    (lo hi timed_out : Z) (ev : trace) (err : Z) :
  poll_history pending offset done lo hi timed_out ev err ->
  err <> 0 ->
  err = timed_out
  /\ Forall (fun e => is_read_of PMC offset e = true -> done (snd e) = false) ev.
Proof.
  intros Hev Hne.
  induction Hev as [j Hj | j v Hj Hv | j v rest err Hj Hv Hrest IH].
  - split; [reflexivity|]. repeat constructor. cbn. discriminate.
  - congruence.
  - destruct (IH Hne) as [-> Hall]. split; [reflexivity|].
    repeat constructor; cbn; try discriminate; auto.
Qed.

(** X1: when [tegra_pmc_powergate_set] returns 0, the last value it read
    from the status register shows the partition in the requested state;
    when it returns an error, the error is [-ETIMEDOUT] and no value it
    read from the status register showed the requested state. *)
Theorem powergate_set_observes (H : headers) (E : env) (fuel : nat)
    (pg : tegra_powergate) (new_state : bool) (t : trace) (err : Z) (t' : trace) :
  0 <= id pg -> ETIMEDOUT H <> 0 ->
  tegra_pmc_powergate_set H E fuel pg new_state t = Ok err t' ->
  (err = 0 ->
   exists s, last_read PMC PWRGATE_STATUS t' = Some s
             /\ negb (Z.land s (BIT (id pg)) =? 0) = new_state)
  /\ (err <> 0 ->
      err = - ETIMEDOUT H
      /\ exists ev,
           t' = t ++ ev
           /\ Forall (fun e => is_read_of PMC PWRGATE_STATUS e = true ->
                               negb (Z.land (snd e) (BIT (id pg)) =? 0) <> new_state) ev).
Proof.
  intros Hid Het. unfold tegra_pmc_powergate_set. drv.
  set (s := u32 (E (t ++ [(mutex_lock PMC, 0)]) (readl PMC PWRGATE_STATUS))).
  destruct (Bool.eqb new_state (negb (Z.land s (BIT (id pg)) =? 0))) eqn:Hsame.
  - intros [= <- <-]. split; [|congruence]. intros _.
    exists s. rewrite !last_read_app. cbn. split; [reflexivity|].
    symmetry. now apply Bool.eqb_prop.
  - destruct (powergate_set_wait H E fuel (id pg) _ _ _) as [e t1| |] eqn:Hrun;
      [| discriminate | discriminate].
    intros [= <- <-].
    apply powergate_set_wait_history in Hrun. destruct Hrun as (ev & -> & Hev).
    split.
    + intros ->.
      assert (Hto : - ETIMEDOUT H <> 0) by lia.
      destruct (poll_history_done _ _ _ _ _ _ _ Hto Hev)
        as (pre & j & v & -> & Hd).
      exists v. repeat rewrite last_read_app. cbn [last_read fold_left is_read_of fst snd window_eqb andb].
      rewrite Z.eqb_refl. cbn [last_read fold_left is_read_of fst snd window_eqb andb].
      split; [reflexivity|].
      rewrite status_matches in Hd by assumption. now apply Bool.eqb_prop.
    + intros Hne. destruct (poll_history_timed_out _ _ _ _ _ _ _ _ Hev Hne) as [-> Hall].
      split; [reflexivity|].
      eexists. repeat rewrite <- app_assoc. split; [reflexivity|].
      cbn [app]. constructor; [cbn; discriminate|].
      constructor.
      { intros _. cbn [snd]. intros Heq. rewrite Heq, Bool.eqb_reflx in Hsame.
        discriminate. }
      constructor; [cbn; discriminate|].
      constructor; [cbn; discriminate|].
      apply Forall_app. split; [|repeat constructor; cbn; discriminate].
      eapply Forall_impl; [|exact Hall].
      intros e He Hread Heq. specialize (He Hread).
      rewrite status_matches in He by assumption.
      rewrite Heq, Bool.eqb_reflx in He. discriminate.
Qed.

Lemma powergate_set_observes_witness :
  exists s,
    last_read PMC PWRGATE_STATUS
      [(mutex_lock PMC, 0); (readl PMC PWRGATE_STATUS, 0);
       (writel PMC 257 PWRGATE_TOGGLE, 0); (jiffies, 0); (jiffies, 0);
       (readl PMC PWRGATE_STATUS, 2); (mutex_unlock PMC, 0)] = Some s
    /\ negb (Z.land s (BIT 1) =? 0) = true.
Proof.
  apply (powergate_set_observes linux_headers (run_board quiet_board) 6
           gpu_domain true [] 0); try reflexivity; cbn; lia.
Defined.

(** ** I/O rails: the whole request *)


Section IoRail.

Variable H : headers.
Variable E : env.


End IoRail.


(** ** What a computation emits *)

Lemma emits_ret {A} (P : event -> Prop) (a : A) : emits P (ret a).
Proof.
  intros t a' t' [= <- <-]. exists []. rewrite app_nil_r. split; [reflexivity | constructor].
Qed.

Lemma emits_spin {A} (P : event -> Prop) : emits P (@spin A).
Proof. intros t a t' Hrun. discriminate. Qed.

Lemma emits_bind {A B} (P : event -> Prop) (m : M A) (k : A -> M B) :
  emits P m -> (forall a, emits P (k a)) -> emits P (bind m k).
Proof.
  intros Hm Hk t b t'. unfold bind.
  destruct (m t) as [a t1| |] eqn:Hrun; [| discriminate | discriminate].
  intros Hrest.
  destruct (Hm t a t1 Hrun) as (ev1 & -> & H1).
  destruct (Hk a _ b t' Hrest) as (ev2 & -> & H2).
  exists (ev1 ++ ev2). rewrite app_assoc. split; [reflexivity|].
  apply Forall_app. split; assumption.
Qed.

Lemma emits_sys (P : event -> Prop) (E : env) (c : call) :
  (forall r, P (c, r)) -> emits P (sys E c).
Proof.
  intros Hc t a t' [= <- <-]. eexists. split; [reflexivity|]. repeat constructor. apply Hc.
Qed.

Lemma emits_sys_u32 (P : event -> Prop) (E : env) (c : call) :
  (forall r, P (c, r)) -> emits P (sys_u32 E c).
Proof.
  intros Hc t a t' [= <- <-]. eexists. split; [reflexivity|]. repeat constructor. apply Hc.
Qed.

Lemma emits_sys_void (P : event -> Prop) (c : call) :
  P (c, 0) -> emits P (sys_void c).
Proof.
  intros Hc t a t' [= <- <-]. eexists. split; [reflexivity|]. repeat constructor. apply Hc.
Qed.

Lemma emits_ext {A} (P : event -> Prop) (m m' : M A) :
  (forall t, m t = m' t) -> emits P m' -> emits P m.
Proof. intros Heq Hm t a t' Hrun. rewrite Heq in Hrun. exact (Hm t a t' Hrun). Qed.

Lemma count_none (p : event -> bool) (ev : trace) :
  Forall (fun e => p e = false) ev -> count p ev = 0%nat.
Proof.
  induction 1 as [|e ev He Hev IH]; [reflexivity|].
  rewrite count_cons, He, IH. reflexivity.
Qed.

(** Breaks a goal on what a computation emits into its calls. *)
Ltac emit :=
  repeat first
    [ apply emits_ret
    | apply emits_spin
    | apply emits_bind; [|intros ?]
    | apply emits_sys; intros ?
    | apply emits_sys_u32; intros ?
    | apply emits_sys_void
    | match goal with
      | |- emits _ (if ?b then _ else _) => destruct b
      | |- emits _ (match ?x with Some _ => _ | None => _ end) => destruct x
      | |- emits _ (let (_, _) := ?x in _) => destruct x
      end ].

(** ** Hot reset: the control register *)

(** The flush loop delays and reads; it writes nothing. *)
Lemma mc_flush_poll_reads (E : env) (mc : ptr) (hr : tegra_mc_hotreset) :
  forall fuel, emits (fun e => is_write e = false) (mc_flush_poll E fuel mc hr).
Proof.
  assert (Hfor : forall n reg prv cur,
            emits (fun e => is_write e = false) (stable_hotreset_for E n mc reg prv cur)).
  { induction n as [|n IH]; intros reg prv cur; cbn [stable_hotreset_for].
    - apply emits_ret.
    - unfold mc_readl. emit; try reflexivity. apply IH. }
  induction fuel as [|fuel IH]; cbn [mc_flush_poll].
  - apply emits_spin.
  - unfold tegra114_stable_hotreset_check, mc_readl.
    emit; try reflexivity; try apply Hfor; try apply IH.
Qed.

(** X3: a flush writes the control register once, with the bit of the group
    set and every other bit as it was read; flush-done writes it once, with
    the bit of the group cleared and every other bit as it was read. *)
Theorem hotreset_touches_one_bit (H : headers) (E : env) (mc : ptr)
    (hr : tegra_mc_hotreset) (t : trace) :
  mc <> NULL -> 0 <= bit hr < 32 ->
  (forall fuel err t',
     tegra114_mc_flush H E fuel mc (Some hr) t = Ok err t' ->
     exists v0 w rest,
       t' = t ++ [(mutex_lock (MC mc), 0); (readl (MC mc) (ctrl hr), v0);
                  (writel (MC mc) w (ctrl hr), 0)] ++ rest
       /\ count is_write rest = 0%nat
       /\ forall i, 0 <= i < 32 ->
            Z.testbit w i = Z.testbit v0 i || (i =? bit hr))
  /\ (exists v0 w v1,
        tegra114_mc_flush_done H E mc (Some hr) t =
          Ok 0 (t ++ [(mutex_lock (MC mc), 0); (readl (MC mc) (ctrl hr), v0);
                      (writel (MC mc) w (ctrl hr), 0);
                      (readl (MC mc) (ctrl hr), v1); (mutex_unlock (MC mc), 0)])
        /\ forall i, 0 <= i < 32 ->
             Z.testbit w i = Z.testbit v0 i && negb (i =? bit hr)).
Proof.
  intros Hmc Hbit. apply Z.eqb_neq in Hmc. split.
  - intros fuel err t'. unfold tegra114_mc_flush. rewrite Hmc. drv.
    destruct (mc_flush_poll E fuel mc hr _) as [u t1| |] eqn:Hpoll; [| discriminate | discriminate].
    intros [= <- <-].
    apply mc_flush_poll_reads in Hpoll. destruct Hpoll as (ev & -> & Hev).
    repeat rewrite <- app_assoc. cbn [app].
    eexists _, _, (_ :: ev ++ _). split; [reflexivity|]. split.
    + rewrite count_cons, count_app, (count_none _ _ Hev). reflexivity.
    + intros i Hi. rewrite testbit_u32, Z.lor_spec by assumption.
      unfold BIT. now rewrite testbit_one_shifted by lia.
  - unfold tegra114_mc_flush_done. rewrite Hmc. drv.
    repeat rewrite <- app_assoc. cbn [app].
    do 3 eexists. split; [reflexivity|].
    intros i Hi. rewrite testbit_u32, Z.land_spec, Z.lnot_spec by lia.
    unfold BIT. now rewrite testbit_one_shifted by lia.
Qed.

Lemma hotreset_touches_one_bit_witness :
  exists v0 w v1,
    tegra114_mc_flush_done linux_headers (run_board quiet_board) 9 (Some dc_hotreset) [] =
      Ok 0 [(mutex_lock (MC 9), 0); (readl (MC 9) 0x200, v0);
            (writel (MC 9) w 0x200, 0); (readl (MC 9) 0x200, v1);
            (mutex_unlock (MC 9), 0)]
    /\ forall i, 0 <= i < 32 -> Z.testbit w i = Z.testbit v0 i && negb (i =? 2).
Proof.
  destruct (hotreset_touches_one_bit linux_headers (run_board quiet_board) 9
              dc_hotreset []) as [_ Hdone].
  - discriminate.
  - cbn. lia.
  - exact Hdone.
Defined.

(** ** Histories of the bundle operations *)

Lemma emits_impl {A} (P Q : event -> Prop) (m : M A) :
  (forall e, P e -> Q e) -> emits P m -> emits Q m.
Proof.
  intros HPQ Hm t a t' Hrun. destruct (Hm t a t' Hrun) as (ev & -> & Hev).
  exists ev. split; [reflexivity|]. eapply Forall_impl; eassumption.
Qed.

Lemma in_order_void_history (op : ptr -> call) :
  forall l t, in_order_void op l t = Ok tt (t ++ all_ok op l).
Proof.
  induction l as [|p l IH]; intros t; cbn [in_order_void all_ok map].
  - unfold ret. now rewrite app_nil_r.
  - unfold bind, sys_void. rewrite IH. unfold all_ok.
    rewrite <- app_assoc. reflexivity.
Qed.

(** An operation applied in order either succeeds on every handle, or
    stops at the first handle on which it fails, with that error. *)
Lemma in_order_history (E : env) (op : ptr -> call) :
  forall l t err t',
    in_order E op l t = Ok err t' ->
    (err = 0 /\ t' = t ++ all_ok op l)
    \/ (err <> 0
        /\ exists done p rest,
             l = done ++ p :: rest
             /\ t' = t ++ all_ok op done ++ [(op p, err)]).
Proof.
  induction l as [|p l IH]; intros t err t'; cbn [in_order].
  - intros [= <- <-]. left. cbn. now rewrite app_nil_r.
  - unfold bind, sys. destruct (Z.eqb_spec (E t (op p)) 0) as [Hz|Hnz].
    + intros Hrest. apply IH in Hrest. rewrite Hz in Hrest.
      destruct Hrest as [[-> ->] | (Hne & done & q & rest & -> & ->)].
      * left. split; [reflexivity|]. cbn [all_ok map]. now rewrite <- app_assoc.
      * right. split; [assumption|]. exists (p :: done), q, rest.
        split; [reflexivity|]. cbn [all_ok map app]. now rewrite <- !app_assoc.
    + intros [= <- <-]. right. split; [assumption|].
      exists [], p, l. split; reflexivity.
Qed.

Lemma enable_bundle_history (E : env) :
  forall l enabled t err t',
    enable_bundle E enabled l t = Ok err t' ->
    (err = 0 /\ t' = t ++ all_ok clk_prepare_enable l)
    \/ (err <> 0
        /\ exists done c rest,
             l = done ++ c :: rest
             /\ t' = t ++ all_ok clk_prepare_enable done
                       ++ [(clk_prepare_enable c, err)]
                       ++ all_ok clk_disable_unprepare (rev done ++ enabled)).
Proof.
  induction l as [|c l IH]; intros enabled t err t'; cbn [enable_bundle].
  - intros [= <- <-]. left. cbn. now rewrite app_nil_r.
  - unfold bind at 1. unfold sys.
    destruct (Z.eqb_spec (E t (clk_prepare_enable c)) 0) as [Hz|Hnz].
    + intros Hrest. apply IH in Hrest. rewrite Hz in Hrest.
      destruct Hrest as [[-> ->] | (Hne & done & q & rest & -> & ->)].
      * left. split; [reflexivity|]. cbn [all_ok map]. now rewrite <- app_assoc.
      * right. split; [assumption|]. exists (c :: done), q, rest.
        split; [reflexivity|]. cbn [all_ok map app rev].
        rewrite <- !app_assoc. reflexivity.
    + unfold bind. rewrite in_order_void_history. intros [= <- <-].
      right. split; [assumption|].
      exists [], c, l. split; [reflexivity|]. cbn [all_ok map app rev].
      rewrite <- !app_assoc. reflexivity.
Qed.

(** X4: [tegra_pmc_powergate_enable_clocks] enables every registered clock,
    in order, and returns 0; or it stops at the first clock that cannot be
    enabled, disables the clocks it had enabled, the latest first, and
    returns the error of that clock: after a failure no clock is left
    enabled. *)
Theorem enable_clocks_all_or_none (E : env) (pg : tegra_powergate) (t : trace)
    (err : Z) (t' : trace) :
  tegra_pmc_powergate_enable_clocks E pg t = Ok err t' ->
  (err = 0 /\ t' = t ++ all_ok clk_prepare_enable (clocks_of pg))
  \/ (err <> 0
      /\ exists done c rest,
           clocks_of pg = done ++ c :: rest
           /\ t' = t ++ all_ok clk_prepare_enable done
                     ++ [(clk_prepare_enable c, err)]
                     ++ all_ok clk_disable_unprepare (rev done)).
Proof.
  rewrite enable_clocks_spec. intros Hrun.
  apply enable_bundle_history in Hrun.
  destruct Hrun as [Hok | (Hne & done & c & rest & Hl & Ht)]; [left; exact Hok|].
  right. split; [assumption|]. exists done, c, rest.
  rewrite app_nil_r in Ht. split; assumption.
Qed.

Lemma enable_clocks_all_or_none_witness :
  exists done c rest,
    clocks_of gpu_domain = done ++ c :: rest
    /\ [(clk_prepare_enable 11, 0); (clk_prepare_enable 12, -5);
        (clk_disable_unprepare 11, 0)] =
       [] ++ all_ok clk_prepare_enable done ++ [(clk_prepare_enable c, -5)]
          ++ all_ok clk_disable_unprepare (rev done).
Proof.
  destruct (enable_clocks_all_or_none (run_board broken_clock_board) gpu_domain []
              (-5) [(clk_prepare_enable 11, 0); (clk_prepare_enable 12, -5);
                    (clk_disable_unprepare 11, 0)] eq_refl)
    as [[Hz _] | [_ Hfail]]; [discriminate | exact Hfail].
Defined.

(** X5: the loops that assert and de-assert the resets and that signal
    flush and flush-done to the swgroups go through the registered handles
    in order and return 0, or stop at the first handle on which the call
    fails and return its error; nothing is undone for the handles before
    it. *)
Theorem bundle_loops_stop_at_first_failure (E : env) (pg : tegra_powergate)
    (t : trace) (err : Z) (t' : trace) :
  let outcome (op : ptr -> call) (l : list ptr) :=
    (err = 0 /\ t' = t ++ all_ok op l)
    \/ (err <> 0
        /\ exists done p rest,
             l = done ++ p :: rest /\ t' = t ++ all_ok op done ++ [(op p, err)]) in
  (tegra_pmc_powergate_reset_assert E pg t = Ok err t' ->
   outcome reset_control_assert (resets_of pg))
  /\ (tegra_pmc_powergate_reset_deassert E pg t = Ok err t' ->
      outcome reset_control_deassert (resets_of pg))
  /\ (tegra_pmc_powergate_mc_flush E pg t = Ok err t' ->
      outcome tegra_mc_flush (swgroups_of pg))
  /\ (tegra_pmc_powergate_mc_flush_done E pg t = Ok err t' ->
      outcome tegra_mc_flush_done (swgroups_of pg)).
Proof.
  intros outcome. unfold outcome.
  rewrite reset_assert_spec, reset_deassert_spec, mc_flush_spec, mc_flush_done_spec.
  repeat split; apply in_order_history.
Qed.

Lemma bundle_loops_stop_at_first_failure_witness :
  tegra_pmc_powergate_reset_assert (run_board quiet_board) gpu_domain [] =
    Ok 0 [(reset_control_assert 21, 0)]
  /\ [(reset_control_assert 21, 0)] = [] ++ all_ok reset_control_assert (resets_of gpu_domain).
Proof.
  split; [reflexivity|].
  destruct (bundle_loops_stop_at_first_failure (run_board quiet_board) gpu_domain []
              0 [(reset_control_assert 21, 0)]) as (Ha & _).
  destruct (Ha eq_refl) as [[_ Ht] | [Hne _]]; [exact Ht | congruence].
Defined.

(** ** What the two transitions never do *)

Lemma emits_bind_with {A B} (P : event -> Prop) (Q : A -> Prop) (m : M A)
    (k : A -> M B) :
  emits P m -> (forall t a t', m t = Ok a t' -> Q a) ->
  (forall a, Q a -> emits P (k a)) -> emits P (bind m k).
Proof.
  intros Hm HQ Hk t b t'. unfold bind.
  destruct (m t) as [a t1| |] eqn:Hrun; [| discriminate | discriminate].
  intros Hrest.
  destruct (Hm t a t1 Hrun) as (ev1 & -> & H1).
  destruct (Hk a (HQ _ _ _ Hrun) _ b t' Hrest) as (ev2 & -> & H2).
  exists (ev1 ++ ev2). rewrite app_assoc. split; [reflexivity|].
  apply Forall_app. split; assumption.
Qed.

Lemma emits_in_order (P : event -> Prop) (E : env) (op : ptr -> call) (l : list ptr) :
  (forall p r, P (op p, r)) -> emits P (in_order E op l).
Proof.
  intros Hop. induction l as [|p l IH]; cbn [in_order]; emit; auto.
Qed.

Lemma emits_in_order_void (P : event -> Prop) (op : ptr -> call) (l : list ptr) :
  (forall p, P (op p, 0)) -> emits P (in_order_void op l).
Proof.
  intros Hop. induction l as [|p l IH]; cbn [in_order_void]; emit; auto.
Qed.

Lemma emits_enable_bundle (P : event -> Prop) (E : env) (l : list ptr) :
  (forall e, is_clock_call e = true -> P e) ->
  forall enabled, emits P (enable_bundle E enabled l).
Proof.
  intros Hop. induction l as [|c l IH]; intros enabled; cbn [enable_bundle]; emit;
    auto.
  apply emits_in_order_void. intros p. now apply Hop.
Qed.

Lemma emits_run_steps (P : event -> Prop) (l : list step) :
  Forall (fun s => emits P (action s)) l -> emits P (run_steps l).
Proof.
  induction 1 as [|s l Hs Hl IH]; cbn [run_steps]; emit; assumption.
Qed.

Lemma emits_powergate_set_wait (H : headers) (E : env) (id mask timeout : Z)
    (fuel : nat) :
  emits (fun e => is_gate_access e || is_poll_timing e = true)
        (powergate_set_wait H E fuel id mask timeout).
Proof.
  induction fuel as [|fuel IH]; cbn [powergate_set_wait]; [apply emits_spin|].
  unfold tegra_pmc_readl. emit; try reflexivity. exact IH.
Qed.

Lemma emits_powergate_set (H : headers) (E : env) (fuel : nat)
    (pg : tegra_powergate) (new_state : bool) :
  emits (fun e => is_gate_access e || is_poll_timing e = true)
        (tegra_pmc_powergate_set H E fuel pg new_state).
Proof.
  unfold tegra_pmc_powergate_set, tegra_pmc_readl, tegra_pmc_writel.
  emit; try reflexivity. apply emits_powergate_set_wait.
Qed.

Lemma emits_get_regulator (H : headers) (E : env) (pg : tegra_powergate) :
  emits (fun e => is_regulator_call e = true) (tegra_powergate_get_regulator H E pg).
Proof. unfold tegra_powergate_get_regulator. emit; reflexivity. Qed.

Lemma emits_remove_clamping (H : headers) (soc : option tegra_pmc_soc) (id : Z) :
  emits (fun e => is_clamp_write e = true) (tegra_powergate_remove_clamping H soc id).
Proof.
  unfold tegra_powergate_remove_clamping, tegra_pmc_writel. emit; reflexivity.
Qed.

(** The first step of power-on changes nothing of the descriptor but the
    regulator handle. *)
Lemma power_up_keeps (H : headers) (E : env) (fuel : nat) (pg : tegra_powergate)
    (t : trace) (r : Z * tegra_powergate) (t' : trace) :
  power_up H E fuel pg t = Ok r t' ->
  id (snd r) = id pg /\ clk (snd r) = clk pg /\ reset (snd r) = reset pg
  /\ swgroup (snd r) = swgroup pg /\ is_vdd (snd r) = is_vdd pg.
Proof.
  unfold power_up, tegra_powergate_get_regulator. drv.
  destruct (is_vdd pg) eqn:Hvdd; cbn [negb].
  - repeat (next_case; cbn [fst snd]).
    all: intros [= <- <-]; cbn; auto.
  - destruct (tegra_pmc_powergate_set H E fuel pg true t); [| discriminate | discriminate].
    intros [= <- <-]; cbn; auto.
Qed.

Lemma emits_power_up (P : event -> Prop) (H : headers) (E : env) (fuel : nat)
    (pg : tegra_powergate) :
  (if is_vdd pg then forall e, is_regulator_call e = true -> P e
   else forall e, is_gate_access e || is_poll_timing e = true -> P e) ->
  emits P (power_up H E fuel pg).
Proof.
  unfold power_up. destruct (is_vdd pg); intros HP.
  - apply emits_bind; [eapply emits_impl; [exact HP | apply emits_get_regulator]|].
    intros r. emit. now apply HP.
  - apply emits_bind; [eapply emits_impl; [exact HP | apply emits_powergate_set]|].
    intros r. emit.
Qed.

Lemma clamp_write_not_gate (e : event) :
  is_clamp_write e = true -> is_gate_access e = false.
Proof.
  destruct e as [[] r]; cbn; try discriminate. destruct w; [|discriminate].
  unfold REMOVE_CLAMPING, GPU_RG_CNTRL, PWRGATE_TOGGLE. lia.
Qed.

(** Splits a goal on the steps of a transition into its calls. *)
Ltac steps_emit :=
  apply emits_run_steps;
  unfold power_on_steps, power_off_steps;
  repeat match goal with
         | |- context [if ?b then _ else _] => destruct b
         end;
  cbn [app negb];
  repeat (apply Forall_cons || apply Forall_nil);
  cbn [action checked quiet settle];
  try (apply emits_in_order; intros; reflexivity);
  try (apply emits_enable_bundle; intros [[] ?]; cbn; intros; congruence);
  try (emit; first [reflexivity
                   | apply emits_in_order_void; intros; reflexivity]).

(** X6: a power-on of a regulator-backed domain never touches the toggle
    and status registers of the power gates nor their lock, and a power-on
    of any other domain never calls the regulator framework nor looks up
    the regulator device. *)
Theorem power_on_uses_one_mechanism (H : headers) (E : env) (soc : tegra_pmc_soc)
    (fuel : nat) (pg : tegra_powergate) (t : trace)
    (r : Z * tegra_powergate) (t' : trace) :
  tegra_pmc_powergate_power_on H E soc fuel pg t = Ok r t' ->
  exists ev,
    t' = t ++ ev
    /\ (is_vdd pg = true -> count is_gate_access ev = 0%nat)
    /\ (is_vdd pg = false -> count is_regulator_call ev = 0%nat).
Proof.
  rewrite power_on_follows_steps. unfold power_on_in_order, power_on_sequence.
  intros Hrun.
  destruct (is_vdd pg) eqn:Hvdd.
  - assert (Hem : emits (fun e => is_gate_access e = false)
                    (power_on_sequence H E (fun l => l) soc fuel pg)).
    { unfold power_on_sequence. apply emits_bind.
      - apply emits_power_up. rewrite Hvdd.
        intros [[] ?]; cbn; congruence.
      - intros a. destruct (fst a <? 0); [apply emits_ret|].
        apply emits_bind; [|intros; apply emits_ret]. steps_emit.
        all: try (eapply emits_impl;
                  [apply clamp_write_not_gate | apply emits_remove_clamping]). }
    destruct (Hem _ _ _ Hrun) as (ev & -> & Hev).
    exists ev. split; [reflexivity|]. split; [|discriminate].
    intros _. now apply count_none.
  - assert (Hem : emits (fun e => is_regulator_call e = false)
                    (power_on_sequence H E (fun l => l) soc fuel pg)).
    { unfold power_on_sequence. apply emits_bind.
      - apply emits_power_up. rewrite Hvdd.
        intros [[] ?]; cbn; congruence.
      - intros a. destruct (fst a <? 0); [apply emits_ret|].
        apply emits_bind; [|intros; apply emits_ret]. steps_emit.
        all: try (eapply emits_impl; [| apply emits_remove_clamping];
                  intros [[] ?]; cbn; congruence). }
    destruct (Hem _ _ _ Hrun) as (ev & -> & Hev).
    exists ev. split; [reflexivity|]. split; [discriminate|].
    intros _. now apply count_none.
Qed.

Lemma power_on_uses_one_mechanism_witness :
  exists ev,
    [(of_find_device_by_node 42, 500); (devm_regulator_get_optional 500, 600);
     (regulator_enable 600, 0); (udelay 10, 0);
     (clk_prepare_enable 11, 0); (clk_prepare_enable 12, 0); (udelay 10, 0);
     (writel PMC 0 GPU_RG_CNTRL, 0); (udelay 10, 0);
     (reset_control_deassert 21, 0); (udelay 10, 0);
     (tegra_mc_flush_done 31, 0); (udelay 10, 0);
     (clk_disable_unprepare 11, 0); (clk_disable_unprepare 12, 0)] = [] ++ ev
    /\ (is_vdd rail_domain = true -> count is_gate_access ev = 0%nat)
    /\ (is_vdd rail_domain = false -> count is_regulator_call ev = 0%nat).
Proof.
  refine (power_on_uses_one_mechanism linux_headers (run_board quiet_board)
            tegra124_pmc_soc 100 rail_domain [] (0, set_vdd rail_domain 600) _ _).
  vm_compute. reflexivity.
Defined.

Lemma emits_count {A} (p : event -> bool) (m : M A) (t : trace) (a : A) (t' : trace) :
  emits (fun e => p e = false) m -> m t = Ok a t' ->
  exists ev, t' = t ++ ev /\ count p ev = 0%nat.
Proof.
  intros Hm Hrun. destruct (Hm _ _ _ Hrun) as (ev & -> & Hev).
  exists ev. split; [reflexivity | now apply count_none].
Qed.

Lemma emits_power_down (P : event -> Prop) (H : headers) (E : env) (fuel : nat)
    (pg : tegra_powergate) :
  (if vdd pg =? NULL then forall e, is_gate_access e || is_poll_timing e = true -> P e
   else forall e, is_regulator_call e = true -> P e) ->
  emits P (power_down H E (fun pg => negb (vdd pg =? NULL)) fuel pg).
Proof.
  unfold power_down. destruct (vdd pg =? NULL); cbn [negb]; intros HP.
  - eapply emits_impl; [exact HP | apply emits_powergate_set].
  - emit. now apply HP.
Qed.

(** X7: a power-off of a domain that holds a regulator handle never
    touches the toggle and status registers of the power gates nor their
    lock; a power-off of a domain without a handle never calls the
    regulator framework; and on a chip with legacy power gating a power-off
    never enables or disables a clock. *)
Theorem power_off_uses_one_mechanism (H : headers) (E : env) (soc : tegra_pmc_soc)
    (fuel : nat) (pg : tegra_powergate) (t : trace) (err : Z) (t' : trace) :
  tegra_pmc_powergate_power_off H E soc fuel pg t = Ok err t' ->
  exists ev,
    t' = t ++ ev
    /\ (vdd pg <> NULL -> count is_gate_access ev = 0%nat)
    /\ (vdd pg = NULL -> count is_regulator_call ev = 0%nat)
    /\ (is_legacy_powergate soc = true -> count is_clock_call ev = 0%nat).
Proof.
  rewrite power_off_follows_steps. unfold power_off_by_handle. intros Hrun.
  assert (Hext : emits (fun _ => True)
                   (power_off_sequence H E (fun pg => negb (vdd pg =? NULL)) soc fuel pg)).
  { unfold power_off_sequence. destruct (never_turn_off H (id pg)); [apply emits_ret|].
    steps_emit; try exact I.
    all: try (apply emits_in_order; intros; exact I).
    all: try (apply emits_enable_bundle; intros; exact I).
    all: try (apply emits_in_order_void; intros; exact I).
    all: apply emits_power_down; destruct (vdd pg =? NULL); intros; exact I. }
  destruct (Hext _ _ _ Hrun) as (ev & -> & _).
  exists ev. split; [reflexivity|].
  split; [|split].
  - intros Hvdd. apply Z.eqb_neq in Hvdd.
    assert (Hem : emits (fun e => is_gate_access e = false)
                    (power_off_sequence H E (fun pg => negb (vdd pg =? NULL)) soc fuel pg)).
    { unfold power_off_sequence. destruct (never_turn_off H (id pg)); [apply emits_ret|].
      steps_emit.
      all: apply emits_power_down; rewrite Hvdd; intros [[] ?]; cbn; congruence. }
    destruct (emits_count _ _ _ _ _ Hem Hrun) as (ev' & Heq & Hc).
    apply app_inv_head in Heq. now subst.
  - intros Hvdd. apply Z.eqb_eq in Hvdd.
    assert (Hem : emits (fun e => is_regulator_call e = false)
                    (power_off_sequence H E (fun pg => negb (vdd pg =? NULL)) soc fuel pg)).
    { unfold power_off_sequence. destruct (never_turn_off H (id pg)); [apply emits_ret|].
      steps_emit.
      all: apply emits_power_down; rewrite Hvdd; intros [[] ?]; cbn; congruence. }
    destruct (emits_count _ _ _ _ _ Hem Hrun) as (ev' & Heq & Hc).
    apply app_inv_head in Heq. now subst.
  - intros Hleg.
    assert (Hem : emits (fun e => is_clock_call e = false)
                    (power_off_sequence H E (fun pg => negb (vdd pg =? NULL)) soc fuel pg)).
    { unfold power_off_sequence. destruct (never_turn_off H (id pg)); [apply emits_ret|].
      unfold power_off_steps. rewrite Hleg. cbn [negb].
      steps_emit.
      all: apply emits_power_down; destruct (vdd pg =? NULL);
        intros [[] ?]; cbn; congruence. }
    destruct (emits_count _ _ _ _ _ Hem Hrun) as (ev' & Heq & Hc).
    apply app_inv_head in Heq. now subst.
Qed.

Lemma power_off_uses_one_mechanism_witness :
  exists ev,
    [(reset_control_assert 21, 0); (udelay 10, 0);
     (mutex_lock PMC, 0); (readl PMC PWRGATE_STATUS, 2);
     (writel PMC 257 PWRGATE_TOGGLE, 0); (jiffies, 0); (jiffies, 0);
     (readl PMC PWRGATE_STATUS, 0); (mutex_unlock PMC, 0)] = [] ++ ev
    /\ (vdd gpu_domain <> NULL -> count is_gate_access ev = 0%nat)
    /\ (vdd gpu_domain = NULL -> count is_regulator_call ev = 0%nat)
    /\ (is_legacy_powergate tegra20_pmc_soc = true -> count is_clock_call ev = 0%nat).
Proof.
  refine (power_off_uses_one_mechanism linux_headers (run_board running_board)
            tegra20_pmc_soc 100 gpu_domain [] 0 _ _).
  vm_compute. reflexivity.
Defined.

(** X8: a power-on of the PCIE partition never enables or disables a
    clock: the clocks of the PCIE domain are left to its driver. *)
Theorem power_on_pcie_leaves_clocks (H : headers) (E : env) (soc : tegra_pmc_soc)
    (fuel : nat) (pg : tegra_powergate) (t : trace)
    (r : Z * tegra_powergate) (t' : trace) :
  id pg = TEGRA_POWERGATE_PCIE H ->
  tegra_pmc_powergate_power_on H E soc fuel pg t = Ok r t' ->
  exists ev, t' = t ++ ev /\ count is_clock_call ev = 0%nat.
Proof.
  intros Hid. rewrite power_on_follows_steps. unfold power_on_in_order.
  apply emits_count.
  unfold power_on_sequence.
  apply emits_bind_with with (Q := fun a => id (snd a) = id pg).
  - apply emits_power_up. destruct (is_vdd pg); intros [[] ?]; cbn; congruence.
  - intros t0 a t0' Hup. now apply power_up_keeps in Hup.
  - intros a Ha. destruct (fst a <? 0); [apply emits_ret|].
    apply emits_bind; [|intros; apply emits_ret].
    unfold power_on_steps. rewrite Ha, Hid, Z.eqb_refl.
    steps_emit.
    all: eapply emits_impl; [| apply emits_remove_clamping];
      intros [[] ?]; cbn; congruence.
Qed.

Lemma power_on_pcie_leaves_clocks_witness :
  exists ev,
    [(mutex_lock PMC, 0); (readl PMC PWRGATE_STATUS, 0);
     (writel PMC 259 PWRGATE_TOGGLE, 0); (jiffies, 0); (jiffies, 0);
     (readl PMC PWRGATE_STATUS, 8); (mutex_unlock PMC, 0); (udelay 10, 0);
     (writel PMC 16 REMOVE_CLAMPING, 0); (udelay 10, 0);
     (reset_control_deassert 23, 0); (udelay 10, 0); (udelay 10, 0)] = [] ++ ev
    /\ count is_clock_call ev = 0%nat.
Proof.
  refine (power_on_pcie_leaves_clocks linux_headers (run_board quiet_board)
            tegra124_pmc_soc 100 pcie_domain [] (0, pcie_domain) _ eq_refl _).
  vm_compute. reflexivity.
Defined.

(** ** The CPU partitions *)

Lemma land_bit_test (v n : Z) :
  0 <= n -> negb (Z.land v (BIT n) =? 0) = Z.testbit v n.
Proof.
  intros Hn. pose proof (BIT_pos n Hn) as Hp.
  destruct (land_bit_cases v n Hn) as [[-> ->] | [-> ->]]; [reflexivity|].
  destruct (Z.eqb_spec (BIT n) 0); [lia | reflexivity].
Qed.

Lemma cpu_powergate_id_rejects (H : headers) (soc : option tegra_pmc_soc_cpus)
    (cpuid : Z) :
  - 2 ^ 31 <= cpuid < 2 ^ 31 ->
  match soc with
  | None => True
  | Some s => cpuid <= 0 \/ num_cpu_powergates s <= cpuid
  end ->
  tegra_get_cpu_powergate_id H soc cpuid = - EINVAL H.
Proof.
  intros Hint Hbad. unfold tegra_get_cpu_powergate_id.
  destruct soc as [s|]; [|reflexivity].
  destruct (Z.gtb_spec cpuid 0) as [Hpos|]; [|reflexivity].
  rewrite u32_small by lia.
  destruct (Z.ltb_spec cpuid (num_cpu_powergates s)); [lia | reflexivity].
Qed.

Lemma cpu_powergate_id_valid (H : headers) (s : tegra_pmc_soc_cpus) (cpuid : Z) :
  0 < cpuid < num_cpu_powergates s -> cpuid < 2 ^ 31 ->
  tegra_get_cpu_powergate_id H (Some s) cpuid =
    nth (Z.to_nat cpuid) (cpu_powergates s) 0.
Proof.
  intros Hc Hint. unfold tegra_get_cpu_powergate_id.
  rewrite u32_small by lia.
  destruct (Z.gtb_spec cpuid 0); [|lia].
  destruct (Z.ltb_spec cpuid (num_cpu_powergates s)); [reflexivity | lia].
Qed.

(** X9: the three CPU entry points refuse a CPU number that is zero or
    negative, or not below the number of CPU partitions of the chip, and
    any CPU number when no chip was matched: power-on and clamp removal
    return [-EINVAL], the query answers "not powered", and none of them
    touches the hardware or sleeps.  CPU 0 is among the refused numbers. *)
Theorem cpu_number_out_of_range (H : headers) (E : env)
    (soc : option tegra_pmc_soc_cpus) (cpuid : Z) (t : trace) :
  0 < EINVAL H ->
  - 2 ^ 31 <= cpuid < 2 ^ 31 ->
  match soc with
  | None => True
  | Some s => cpuid <= 0 \/ num_cpu_powergates s <= cpuid
  end ->
  tegra_pmc_cpu_power_on H E soc cpuid t = Ok (- EINVAL H) t
  /\ tegra_pmc_cpu_remove_clamping H soc cpuid t = Ok (- EINVAL H) t
  /\ tegra_pmc_cpu_is_powered H E soc cpuid t = Ok false t.
Proof.
  intros Hpos Hint Hbad.
  unfold tegra_pmc_cpu_power_on, tegra_pmc_cpu_remove_clamping,
    tegra_pmc_cpu_is_powered.
  rewrite (cpu_powergate_id_rejects H soc cpuid Hint Hbad).
  destruct (Z.ltb_spec (- EINVAL H) 0); [|lia].
  repeat split.
Qed.

Lemma cpu_number_out_of_range_witness :
  tegra_pmc_cpu_power_on linux_headers (run_board quiet_board) (Some tegra124_cpus) 0 []
    = Ok (-22) []
  /\ tegra_pmc_cpu_remove_clamping linux_headers (Some tegra124_cpus) 0 [] = Ok (-22) []
  /\ tegra_pmc_cpu_is_powered linux_headers (run_board quiet_board)
       (Some tegra124_cpus) 0 [] = Ok false [].
Proof.
  apply (cpu_number_out_of_range linux_headers (run_board quiet_board)
           (Some tegra124_cpus) 0 []); cbn; lia.
Defined.

(** X10: for a CPU number the chip has, [tegra_pmc_cpu_power_on] takes the
    lock, reads the status register once, writes one toggle command for the
    partition of the CPU if its status bit is clear and nothing if it is
    set, releases the lock and returns 0: it never waits for the partition
    to come up and never reports a failure. *)
Theorem cpu_power_on_does_not_wait (H : headers) (E : env)
    (s : tegra_pmc_soc_cpus) (cpuid : Z) (t : trace) :
  let id := nth (Z.to_nat cpuid) (cpu_powergates s) 0 in
  0 < cpuid < num_cpu_powergates s -> cpuid < 2 ^ 31 ->
  0 <= id < 32 ->
  exists v,
    0 <= v < 2 ^ 32
    /\ tegra_pmc_cpu_power_on H E (Some s) cpuid t =
         Ok 0 (t ++ [(mutex_lock PMC, 0); (readl PMC PWRGATE_STATUS, v)]
                 ++ (if Z.testbit v id then []
                     else [(writel PMC (Z.lor PWRGATE_TOGGLE_START id) PWRGATE_TOGGLE, 0)])
                 ++ [(mutex_unlock PMC, 0)]).
Proof.
  intros id Hc Hint Hid.
  unfold tegra_pmc_cpu_power_on. rewrite cpu_powergate_id_valid by assumption.
  fold id. destruct (Z.ltb_spec id 0); [lia|].
  rewrite tegra_powergate_set_history.
  set (v := u32 _). exists v. split; [apply u32_range|].
  change (Z.shiftl 1 id) with (BIT id).
  rewrite land_bit_test by lia.
  assert (Hsmall : u32 (Z.lor PWRGATE_TOGGLE_START id) = Z.lor PWRGATE_TOGGLE_START id).
  { apply u32_small. change PWRGATE_TOGGLE_START with 256. split.
    - apply Z.lor_nonneg. lia.
    - apply Z.log2_lt_cancel. rewrite Z.log2_lor by lia.
      rewrite Z.log2_pow2 by lia. change (Z.log2 256) with 8.
      assert (Z.log2 id < 32).
      { destruct (Z.eq_dec id 0) as [->|]; [cbn; lia|].
        apply Z.log2_lt_pow2; lia. }
      lia. }
  rewrite Hsmall.
  destruct (Z.testbit v id); reflexivity.
Qed.

Lemma cpu_power_on_does_not_wait_witness :
  exists v,
    0 <= v < 2 ^ 32
    /\ tegra_pmc_cpu_power_on linux_headers (run_board quiet_board)
         (Some tegra124_cpus) 1 [] =
         Ok 0 ([] ++ [(mutex_lock PMC, 0); (readl PMC PWRGATE_STATUS, v)]
                 ++ (if Z.testbit v 9 then []
                     else [(writel PMC (Z.lor PWRGATE_TOGGLE_START 9) PWRGATE_TOGGLE, 0)])
                 ++ [(mutex_unlock PMC, 0)]).
Proof.
  apply (cpu_power_on_does_not_wait linux_headers (run_board quiet_board)
           tegra124_cpus 1 []); vm_compute; split; congruence.
Defined.

(** X11: for a CPU number the chip has, [tegra_pmc_cpu_is_powered] reads
    the status register once, writes nothing, and answers with the status
    bit of the partition of the CPU.  If the table of CPU partitions names
    a partition the chip does not have, the error code of the query is
    turned into the answer "powered", without any read. *)
Theorem cpu_is_powered_reads_status_bit (H : headers) (E : env)
    (s : tegra_pmc_soc_cpus) (cpuid : Z) (t : trace) :
  let id := nth (Z.to_nat cpuid) (cpu_powergates s) 0 in
  0 < EINVAL H ->
  0 < cpuid < num_cpu_powergates s -> cpuid < 2 ^ 31 ->
  0 <= id < 32 ->
  (id < num_powergates (soc_common s) ->
   exists v,
     tegra_pmc_cpu_is_powered H E (Some s) cpuid t =
       Ok (Z.testbit v id) (t ++ [(readl PMC PWRGATE_STATUS, v)]))
  /\ (num_powergates (soc_common s) <= id ->
      tegra_pmc_cpu_is_powered H E (Some s) cpuid t = Ok true t).
Proof.
  intros id Hpos Hc Hint Hid.
  unfold tegra_pmc_cpu_is_powered. rewrite cpu_powergate_id_valid by assumption.
  fold id. destruct (Z.ltb_spec id 0); [lia|].
  unfold tegra_powergate_is_powered. cbn [option_map].
  destruct (Z.ltb_spec id 0); [lia|]. cbn [orb].
  rewrite (u32_small id) by lia.
  split; intros Hn.
  - destruct (Z.leb_spec (num_powergates (soc_common s)) id); [lia|].
    drv. set (v := u32 _). exists v.
    rewrite u32_bit by lia. change (Z.shiftl 1 id) with (BIT id).
    rewrite <- land_bit_test by lia.
    destruct (Z.land v (BIT id) =? 0); reflexivity.
  - destruct (Z.leb_spec (num_powergates (soc_common s)) id); [|lia].
    drv. destruct (Z.eqb_spec (- EINVAL H) 0); [lia | reflexivity].
Qed.

Lemma cpu_is_powered_reads_status_bit_witness :
  (9 < num_powergates (soc_common tegra124_cpus) ->
   exists v,
     tegra_pmc_cpu_is_powered linux_headers (run_board running_board)
       (Some tegra124_cpus) 1 [] =
       Ok (Z.testbit v 9) ([] ++ [(readl PMC PWRGATE_STATUS, v)]))
  /\ (num_powergates (soc_common tegra124_cpus) <= 9 ->
      tegra_pmc_cpu_is_powered linux_headers (run_board running_board)
        (Some tegra124_cpus) 1 [] = Ok true []).
Proof.
  apply (cpu_is_powered_reads_status_bit linux_headers (run_board running_board)
           tegra124_cpus 1 []); vm_compute; try split; congruence.
Defined.

(** ** Restart *)

(** Rewrites the bits of a register value built from masks. *)
Ltac bits :=
  repeat first
    [ rewrite testbit_u32 by lia
    | rewrite Z.lor_spec
    | rewrite Z.land_spec
    | rewrite Z.lnot_spec by lia
    | rewrite testbit_one_shifted by lia ].

(** X12: [tegra_pmc_restart] rewrites scratch register 0 and then the
    control register, each by one read and one write.  In the scratch
    register the three boot-mode bits are rewritten: bit 31 is set exactly
    for the command "recovery", bit 30 exactly for "bootloader", bit 1
    exactly for "forced-recovery", so that no mode bit is set for any other
    command or for none; every other bit keeps the value read.  In the
    control register bit 4 is set and every other bit keeps the value
    read. *)
Theorem restart_sets_boot_mode (E : env) (cmd : option String.string) (t : trace) :
  let asks (c : String.string) :=
    match cmd with
    | Some c' => String.eqb c' c
    | None => false
    end in
  exists r0 w0 r1 w1,
    tegra_pmc_restart E cmd t =
      Ok tt (t ++ [(readl PMC PMC_SCRATCH0, r0); (writel PMC w0 PMC_SCRATCH0, 0);
                   (readl PMC PMC_CNTRL, r1); (writel PMC w1 PMC_CNTRL, 0)])
    /\ (forall i, 0 <= i < 32 ->
          Z.testbit w0 i =
            if i =? 31 then asks RebootCommand.recovery
            else if i =? 30 then asks RebootCommand.bootloader
            else if i =? 1 then asks RebootCommand.forced_recovery
            else Z.testbit r0 i)
    /\ (forall i, 0 <= i < 32 -> Z.testbit w1 i = (i =? 4) || Z.testbit r1 i).
Proof.
  intros asks. unfold tegra_pmc_restart. drv.
  do 4 eexists. split; [repeat rewrite <- app_assoc; reflexivity|].
  split; intros i Hi.
  - unfold asks, PMC_SCRATCH0_MODE_MASK, PMC_SCRATCH0_MODE_RECOVERY,
      PMC_SCRATCH0_MODE_BOOTLOADER, PMC_SCRATCH0_MODE_RCM.
    destruct cmd as [c|].
    + destruct (String.eqb c RebootCommand.recovery) eqn:H1;
        destruct (String.eqb c RebootCommand.bootloader) eqn:H2;
        destruct (String.eqb c RebootCommand.forced_recovery) eqn:H3;
        try (apply String.eqb_eq in H1; apply String.eqb_eq in H2;
             subst; discriminate);
        try (apply String.eqb_eq in H1; apply String.eqb_eq in H3;
             subst; discriminate);
        try (apply String.eqb_eq in H2; apply String.eqb_eq in H3;
             subst; discriminate);
        bits;
        destruct (Z.eqb_spec i 31); destruct (Z.eqb_spec i 30);
        destruct (Z.eqb_spec i 1); cbn; try lia;
        rewrite ?andb_true_r, ?orb_false_r, ?andb_false_r, ?orb_true_r; reflexivity.
    + bits.
      destruct (Z.eqb_spec i 31); destruct (Z.eqb_spec i 30);
        destruct (Z.eqb_spec i 1); cbn; try lia;
        rewrite ?andb_true_r, ?orb_false_r, ?andb_false_r, ?orb_true_r; reflexivity.
  - bits. change 16 with (Z.shiftl 1 4). rewrite testbit_one_shifted by lia.
    apply orb_comm.
Qed.

(** ** Suspend *)

Lemma set_rate_same (pmc : tegra_pmc) : set_rate pmc (pmc_rate pmc) = pmc.
Proof. destruct pmc. reflexivity. Qed.

(** The part of [tegra_pmc_enter_suspend_mode] that follows the choice of
    the rate. *)
Lemma suspend_tail (K : more_headers) (E : env) (pmc : tegra_pmc) (rate : Z)
    (t0 : trace) (pmc' : tegra_pmc) (t' : trace) :
  (pmc <- (if negb (rate =? pmc_rate pmc) then
             tegra_pmc_writel (suspend_ticks K (cpu_good_time pmc) rate) PMC_CPUPWRGOOD_TIMER ;;
             tegra_pmc_writel (suspend_ticks K (cpu_off_time pmc) rate) PMC_CPUPWROFF_TIMER ;;
             ret (set_rate pmc rate)
           else ret pmc) ;;
   value <- tegra_pmc_readl E PMC_CNTRL ;;
   tegra_pmc_writel (Z.lor (Z.land value (Z.lnot PMC_CNTRL_SIDE_EFFECT_LP0))
                           PMC_CNTRL_CPU_PWRREQ_OE) PMC_CNTRL ;;
   ret pmc) t0 = Ok pmc' t' ->
  pmc_rate pmc' = rate
  /\ pmc' = set_rate pmc rate
  /\ exists r w,
       t' = t0 ++ (if rate =? pmc_rate pmc then []
                   else [(writel PMC (u32 (suspend_ticks K (cpu_good_time pmc) rate))
                                 PMC_CPUPWRGOOD_TIMER, 0);
                         (writel PMC (u32 (suspend_ticks K (cpu_off_time pmc) rate))
                                 PMC_CPUPWROFF_TIMER, 0)])
               ++ [(readl PMC PMC_CNTRL, r); (writel PMC w PMC_CNTRL, 0)]
       /\ (forall i, 0 <= i < 32 ->
             Z.testbit w i =
               if i =? 14 then false else if i =? 16 then true else Z.testbit r i).
Proof.
  assert (Hbits : forall r i, 0 <= i < 32 ->
            Z.testbit (u32 (Z.lor (Z.land r (Z.lnot PMC_CNTRL_SIDE_EFFECT_LP0))
                                  PMC_CNTRL_CPU_PWRREQ_OE)) i =
              if i =? 14 then false else if i =? 16 then true else Z.testbit r i).
  { intros r i Hi. unfold PMC_CNTRL_SIDE_EFFECT_LP0, PMC_CNTRL_CPU_PWRREQ_OE. bits.
    destruct (Z.eqb_spec i 14); destruct (Z.eqb_spec i 16); cbn; try lia;
      rewrite ?andb_true_r, ?orb_false_r, ?andb_false_r, ?orb_true_r; reflexivity. }
  drv. destruct (Z.eqb_spec rate (pmc_rate pmc)) as [Heq|Hne]; cbn [negb];
    intros [= <- <-].
  - split; [congruence|]. split; [rewrite Heq; symmetry; apply set_rate_same|].
    eexists _, _. split; [repeat rewrite <- app_assoc; reflexivity | apply Hbits].
  - split; [reflexivity|]. split; [reflexivity|].
    eexists _, _. split; [repeat rewrite <- app_assoc; reflexivity | apply Hbits].
Qed.

(** X13: [tegra_pmc_enter_suspend_mode] works with a rate that is never
    zero: 32768 for LP1, the rate of the PMC clock for LP2, and 100000000
    when that would be zero.  It writes the two CPU timers, computed from
    the rate, exactly when the rate differs from the one it remembers, and
    then remembers the rate; it always ends with one read and one write of
    the control register that clears bit 14, sets bit 16 and keeps the
    other bits. *)
Theorem suspend_timers_follow_rate (K : more_headers) (E : env) (pmc : tegra_pmc)
    (mode : Z) (t : trace) (pmc' : tegra_pmc) (t' : trace) :
  tegra_pmc_enter_suspend_mode K E pmc mode t = Ok pmc' t' ->
  let rate := pmc_rate pmc' in
  exists query r w,
    rate <> 0
    /\ pmc' = set_rate pmc rate
    /\ (mode = TEGRA_SUSPEND_LP1 K -> rate = 32768 /\ query = [])
    /\ (mode <> TEGRA_SUSPEND_LP1 K -> mode <> TEGRA_SUSPEND_LP2 K ->
        rate = 100000000 /\ query = [])
    /\ (mode <> TEGRA_SUSPEND_LP1 K -> mode = TEGRA_SUSPEND_LP2 K ->
        exists x, query = [(clk_get_rate (pmc_clk pmc), x)]
                  /\ rate = if x =? 0 then 100000000 else x)
    /\ t' = t ++ query
              ++ (if rate =? pmc_rate pmc then []
                  else [(writel PMC (u32 (suspend_ticks K (cpu_good_time pmc) rate))
                                PMC_CPUPWRGOOD_TIMER, 0);
                        (writel PMC (u32 (suspend_ticks K (cpu_off_time pmc) rate))
                                PMC_CPUPWROFF_TIMER, 0)])
              ++ [(readl PMC PMC_CNTRL, r); (writel PMC w PMC_CNTRL, 0)]
    /\ (forall i, 0 <= i < 32 ->
          Z.testbit w i =
            if i =? 14 then false else if i =? 16 then true else Z.testbit r i).
Proof.
  unfold tegra_pmc_enter_suspend_mode. drv.
  destruct (Z.eqb_spec mode (TEGRA_SUSPEND_LP1 K)) as [Hlp1|Hlp1];
    [|destruct (Z.eqb_spec mode (TEGRA_SUSPEND_LP2 K)) as [Hlp2|Hlp2]];
    intros Hrun.
  - apply (suspend_tail K E pmc 32768 t) in Hrun.
    destruct Hrun as (Hrate & Hpmc & r & w & Ht & Hw).
    cbv zeta. rewrite Hrate. exists [], r, w.
    repeat split; try congruence; try contradiction; try lia; assumption.
  - set (x := E t (clk_get_rate (pmc_clk pmc))) in *.
    apply (suspend_tail K E pmc (if x =? 0 then 100000000 else x)
             (t ++ [(clk_get_rate (pmc_clk pmc), x)])) in Hrun.
    destruct Hrun as (Hrate & Hpmc & r & w & Ht & Hw).
    cbv zeta. rewrite Hrate. exists [(clk_get_rate (pmc_clk pmc), x)], r, w.
    repeat split; try congruence; try contradiction.
    + destruct (Z.eqb_spec x 0); lia.
    + intros _ _. exists x. split; reflexivity.
    + rewrite Ht. repeat rewrite <- app_assoc. reflexivity.
    + assumption.
  - apply (suspend_tail K E pmc 100000000 t) in Hrun.
    destruct Hrun as (Hrate & Hpmc & r & w & Ht & Hw).
    cbv zeta. rewrite Hrate. exists [], r, w.
    repeat split; try congruence; try contradiction; try lia; assumption.
Qed.

Lemma suspend_timers_follow_rate_witness :
  tegra_pmc_enter_suspend_mode linux_more_headers (run_board quiet_board)
    booted_pmc 2 [] =
    Ok (set_rate booted_pmc 32768)
       [(writel PMC 66 PMC_CPUPWRGOOD_TIMER, 0); (writel PMC 7 PMC_CPUPWROFF_TIMER, 0);
        (readl PMC PMC_CNTRL, 0); (writel PMC 65536 PMC_CNTRL, 0)]
  /\ pmc_rate (set_rate booted_pmc 32768) <> 0.
Proof.
  split; [reflexivity|].
  destruct (suspend_timers_follow_rate linux_more_headers (run_board quiet_board)
              booted_pmc 2 [] _ _ eq_refl) as (q & r & w & Hr & _).
  exact Hr.
Defined.

(** X14: entering a suspend mode a second time, while the PMC clock still
    has the rate it had the first time, leaves the CPU timers alone: the
    second call writes the control register and nothing else, and the
    state of the driver stays as the first call left it. *)
Theorem suspend_again_skips_timers (K : more_headers) (E : env) (pmc : tegra_pmc)
    (mode : Z) (t : trace) (pmc1 : tegra_pmc) (t1 : trace) :
  E t1 (clk_get_rate (pmc_clk pmc)) = E t (clk_get_rate (pmc_clk pmc)) ->
  tegra_pmc_enter_suspend_mode K E pmc mode t = Ok pmc1 t1 ->
  exists query r w,
    tegra_pmc_enter_suspend_mode K E pmc1 mode t1 =
      Ok pmc1 (t1 ++ query ++ [(readl PMC PMC_CNTRL, r); (writel PMC w PMC_CNTRL, 0)])
    /\ count is_write query = 0%nat.
Proof.
  intros Hclk. unfold tegra_pmc_enter_suspend_mode. drv.
  destruct (Z.eqb_spec mode (TEGRA_SUSPEND_LP1 K)) as [Hlp1|Hlp1];
    [|destruct (Z.eqb_spec mode (TEGRA_SUSPEND_LP2 K)) as [Hlp2|Hlp2]];
    intros Hrun.
  - apply (suspend_tail K E pmc 32768 t) in Hrun.
    destruct Hrun as (Hrate & Hpmc & _).
    change (if 32768 =? 0 then 100000000 else 32768) with 32768.
    rewrite Hrate. cbn [Z.eqb Pos.eqb negb].
    exists []. eexists _, _. split; [|reflexivity].
    cbn [app]. repeat rewrite <- app_assoc. reflexivity.
  - set (x := E t (clk_get_rate (pmc_clk pmc))) in *.
    apply (suspend_tail K E pmc (if x =? 0 then 100000000 else x)
             (t ++ [(clk_get_rate (pmc_clk pmc), x)])) in Hrun.
    destruct Hrun as (Hrate & Hpmc & _).
    assert (Hsame : pmc_clk pmc1 = pmc_clk pmc) by (rewrite Hpmc; reflexivity).
    rewrite Hsame, Hclk, Hrate, Z.eqb_refl. cbn [negb].
    exists [(clk_get_rate (pmc_clk pmc), x)]. eexists _, _. split; [|reflexivity].
    cbn [app]. repeat rewrite <- app_assoc. reflexivity.
  - apply (suspend_tail K E pmc 100000000 t) in Hrun.
    destruct Hrun as (Hrate & Hpmc & _).
    change (if 0 =? 0 then 100000000 else 0) with 100000000.
    rewrite Hrate. cbn [Z.eqb Pos.eqb negb].
    exists []. eexists _, _. split; [|reflexivity].
    cbn [app]. repeat rewrite <- app_assoc. reflexivity.
Qed.

Lemma suspend_again_skips_timers_witness :
  exists query r w,
    tegra_pmc_enter_suspend_mode linux_more_headers (run_board quiet_board)
      (set_rate booted_pmc 408000000) 1
      [(clk_get_rate 77, 408000000); (writel PMC 816000 PMC_CPUPWRGOOD_TIMER, 0);
       (writel PMC 81600 PMC_CPUPWROFF_TIMER, 0); (readl PMC PMC_CNTRL, 0);
       (writel PMC 65536 PMC_CNTRL, 0)] =
      Ok (set_rate booted_pmc 408000000)
         ([(clk_get_rate 77, 408000000); (writel PMC 816000 PMC_CPUPWRGOOD_TIMER, 0);
           (writel PMC 81600 PMC_CPUPWROFF_TIMER, 0); (readl PMC PMC_CNTRL, 0);
           (writel PMC 65536 PMC_CNTRL, 0)]
          ++ query ++ [(readl PMC PMC_CNTRL, r); (writel PMC w PMC_CNTRL, 0)])
    /\ count is_write query = 0%nat.
Proof.
  apply (suspend_again_skips_timers linux_more_headers (run_board quiet_board)
           booted_pmc 1 []); reflexivity.
Defined.

(** ** Set-up from the device tree *)

(** X15: [tegra_pmc_parse_dt] always returns 0.  If one of the four timing
    properties of the PMC node is missing the suspend mode becomes NONE;
    if the LP0 vector is missing the suspend mode is not LP0.  A property
    that cannot be read leaves the previous value in place: without the
    CPU power-off time the CPU off time is the CPU good time, and without
    the LP0 vector its address and size are the two core power-good
    times. *)
Theorem parse_dt_suspend_mode (K : more_headers) (pmc : tegra_pmc) (np : pmc_node)
    (value0 : Z) (values0 : Z * Z) :
  TEGRA_SUSPEND_NONE K <> TEGRA_SUSPEND_LP0 K ->
  TEGRA_SUSPEND_LP1 K <> TEGRA_SUSPEND_LP0 K ->
  let r := tegra_pmc_parse_dt K pmc np value0 values0 in
  fst r = 0
  /\ (nvidia_cpu_pwr_good_time np = None \/ nvidia_cpu_pwr_off_time np = None
      \/ nvidia_core_pwr_good_time np = None \/ nvidia_core_pwr_off_time np = None ->
      suspend_mode (snd r) = TEGRA_SUSPEND_NONE K)
  /\ (nvidia_lp0_vec np = None -> suspend_mode (snd r) <> TEGRA_SUSPEND_LP0 K)
  /\ (nvidia_cpu_pwr_off_time np = None ->
      cpu_off_time (snd r) = cpu_good_time (snd r))
  /\ (nvidia_lp0_vec np = None ->
      lp0_vec_phys (snd r) = core_osc_time (snd r)
      /\ lp0_vec_size (snd r) = core_pmu_time (snd r)).
Proof.
  intros Hnone Hlp1 r. subst r. unfold tegra_pmc_parse_dt.
  destruct (nvidia_suspend_mode np) as [v|];
    destruct (nvidia_cpu_pwr_good_time np) as [g|];
    destruct (nvidia_cpu_pwr_off_time np) as [o|];
    destruct (nvidia_core_pwr_good_time np) as [c|];
    destruct (nvidia_core_pwr_off_time np) as [co|];
    destruct (nvidia_lp0_vec np) as [l|];
    cbn [fst snd suspend_mode cpu_off_time cpu_good_time lp0_vec_phys
         lp0_vec_size core_osc_time core_pmu_time];
    (split; [reflexivity|]);
    (split; [intros [Hx | [Hx | [Hx | Hx]]]; try discriminate Hx|]);
    try (split; [intros Hx; try discriminate Hx|]);
    try (split; [intros Hx; try discriminate Hx|]);
    try (intros Hx; try discriminate Hx);
    try reflexivity; try (split; reflexivity);
    try (destruct (Z.eqb_spec (TEGRA_SUSPEND_NONE K) (TEGRA_SUSPEND_LP0 K));
         congruence);
    try match goal with
        | |- (if ?a =? ?b then _ else _) <> _ =>
            destruct (Z.eqb_spec a b); congruence
        | |- (if ?a =? ?b then _ else _) = _ =>
            destruct (Z.eqb_spec a b); congruence
        end.
Qed.

Lemma parse_dt_suspend_mode_witness :
  suspend_mode (snd (tegra_pmc_parse_dt linux_more_headers booted_pmc
                       lp0_node_without_vector 7 (8, 9)))
    <> TEGRA_SUSPEND_LP0 linux_more_headers.
Proof.
  destruct (parse_dt_suspend_mode linux_more_headers booted_pmc
              lp0_node_without_vector 7 (8, 9)) as (_ & _ & Hlp0 & _);
    [cbn; lia | cbn; lia | exact (Hlp0 eq_refl)].
Defined.

(** X16: [tegra_pmc_init] rewrites the control register three times, each
    time from a fresh read.  The first write sets bit 16, the CPU power
    request, and keeps the rest.  The second writes the polarity of the
    system clock request, bit 10: clear when the request is active high,
    set otherwise; it keeps the rest, and so does not enable the request.
    Only the third write sets bit 11, the enable of the request. *)
Theorem pmc_init_polarity_before_enable (E : env) (pmc : tegra_pmc) (t : trace) :
  exists r1 w1 r2 w2 r3 w3,
    tegra_pmc_init E pmc t =
      Ok tt (t ++ [(readl PMC PMC_CNTRL, r1); (writel PMC w1 PMC_CNTRL, 0);
                   (readl PMC PMC_CNTRL, r2); (writel PMC w2 PMC_CNTRL, 0);
                   (readl PMC PMC_CNTRL, r3); (writel PMC w3 PMC_CNTRL, 0)])
    /\ (forall i, 0 <= i < 32 -> Z.testbit w1 i = (i =? 16) || Z.testbit r1 i)
    /\ (forall i, 0 <= i < 32 ->
          Z.testbit w2 i =
            if i =? 10 then negb (sysclkreq_high pmc) else Z.testbit r2 i)
    /\ (forall i, 0 <= i < 32 -> Z.testbit w3 i = (i =? 11) || Z.testbit r3 i).
Proof.
  unfold tegra_pmc_init. drv.
  do 6 eexists. split; [repeat rewrite <- app_assoc; reflexivity|].
  unfold PMC_CNTRL_CPU_PWRREQ_OE, PMC_CNTRL_SYSCLK_POLARITY, PMC_CNTRL_SYSCLK_OE.
  repeat split; intros i Hi.
  - bits. apply orb_comm.
  - destruct (sysclkreq_high pmc); bits; destruct (Z.eqb_spec i 10); cbn;
      rewrite ?andb_true_r, ?orb_false_r, ?andb_false_r, ?orb_true_r; reflexivity.
  - bits. apply orb_comm.
Qed.

(** ** Emergency thermal reset *)

Lemma testbit_small (a n i : Z) : 0 <= a < 2 ^ n -> n <= i -> Z.testbit a i = false.
Proof.
  intros Ha Hi. destruct (Z.eq_dec a 0) as [->|Hnz]; [apply Z.bits_0|].
  apply Z.bits_above_log2; [lia|].
  assert (Z.log2 a < n) by (apply Z.log2_lt_pow2; lia). lia.
Qed.

Lemma land_byte (x : Z) : Z.land x 0xff = x mod 256.
Proof. change 0xff with (Z.ones 8). rewrite Z.land_ones by lia. reflexivity. Qed.

(** X17: when the chip has the thermal reset and the i2c-thermtrip node
    gives the controller, the bus address (below 2^16), the register and
    the data, [tegra_pmc_init_tsense_reset] makes six register accesses:
    scratch writing is enabled, scratch 54 and scratch 55 are written, the
    reset is enabled.  Bits 23 to 16 of the value written to scratch 55 are
    the two's complement, modulo 256, of the sum of the register address,
    the data and bytes 0, 1 and 3 of the value, so that all the bytes sum
    to 0 modulo 256.  When that sum is itself 0 modulo 256 the checksum
    code is 0x100: its bits 23 to 16 are clear and bit 24, the lowest bit
    of the pinmux field, is set. *)
Theorem tsense_reset_checksum (E : env) (soc : tegra_pmc_soc) (n : thermtrip_node)
    (ctrl_id pmu_addr reg_addr reg_data : Z) (t : trace) :
  has_tsense_reset soc = true ->
  nvidia_i2c_controller_id n = Some ctrl_id ->
  nvidia_bus_addr n = Some pmu_addr ->
  nvidia_reg_addr n = Some reg_addr ->
  nvidia_reg_data n = Some reg_data ->
  0 <= pmu_addr < 2 ^ 16 ->
  let pinmux := match nvidia_pinmux_id n with Some p => p | None => 0 end in
  let v0 := tsense_scratch55 ctrl_id pinmux pmu_addr in
  let sum := reg_addr + reg_data + Z.land v0 0xff + Z.land (Z.shiftr v0 8) 0xff
             + Z.land (Z.shiftr v0 24) 0xff in
  exists r1 w1 v54 v55 r2 w2,
    tegra_pmc_init_tsense_reset E soc (Some n) t =
      Ok tt (t ++ [(readl PMC PMC_SENSOR_CTRL, r1); (writel PMC w1 PMC_SENSOR_CTRL, 0);
                   (writel PMC v54 PMC_SCRATCH54, 0); (writel PMC v55 PMC_SCRATCH55, 0);
                   (readl PMC PMC_SENSOR_CTRL, r2); (writel PMC w2 PMC_SENSOR_CTRL, 0)])
    /\ (forall i, 16 <= i < 24 -> Z.testbit v55 i = Z.testbit ((- sum) mod 256) (i - 16))
    /\ (forall i, 0 <= i < 16 \/ 25 <= i < 32 -> Z.testbit v55 i = Z.testbit v0 i)
    /\ Z.testbit v55 24 = Z.testbit v0 24 || (sum mod 256 =? 0).
Proof.
  intros Hts Hc Hb Hra Hrd Hpmu pinmux v0 sum.
  unfold tegra_pmc_init_tsense_reset. rewrite Hts, Hc, Hb, Hra, Hrd. cbn [negb].
  fold pinmux. fold v0. drv.
  do 6 eexists. split; [repeat rewrite <- app_assoc; reflexivity|].
  assert (Hck : tsense_checksum reg_addr reg_data v0 = 256 - sum mod 256).
  { unfold tsense_checksum. fold sum. rewrite land_byte.
    assert (Hmm : u32 sum mod 256 = sum mod 256).
    { unfold u32. apply Z.mod_mod_divide. exists (2 ^ 24). reflexivity. }
    rewrite Hmm. apply u32_small.
    pose proof (Z.mod_pos_bound sum 256 ltac:(lia)). lia. }
  rewrite Hck.
  pose proof (Z.mod_pos_bound sum 256 ltac:(lia)) as Hm.
  assert (Hv0 : forall i, 16 <= i < 24 -> Z.testbit v0 i = false).
  { intros i Hi. unfold v0, tsense_scratch55, PMC_SCRATCH55_RESET_TEGRA,
      PMC_SCRATCH55_CNTRL_ID_SHIFT, PMC_SCRATCH55_PINMUX_SHIFT,
      PMC_SCRATCH55_I2CSLV1_SHIFT.
    bits. rewrite !Z.shiftl_spec_low by lia. rewrite Z.shiftl_0_r.
    rewrite (testbit_small pmu_addr 16 i) by lia.
    destruct (Z.eqb_spec i 31); [lia | reflexivity]. }
  assert (Hneg : (- sum) mod 256 = if sum mod 256 =? 0 then 0 else 256 - sum mod 256).
  { destruct (Z.eqb_spec (sum mod 256) 0) as [Hz|Hnz].
    - apply Z.mod_opp_l_z; lia.
    - apply Z.mod_opp_l_nz; lia. }
  unfold PMC_SCRATCH55_CHECKSUM_SHIFT.
  split; [|split].
  - intros i Hi. bits. rewrite Z.shiftl_spec by lia. rewrite Hv0 by lia.
    cbn [orb]. rewrite Hneg.
    destruct (Z.eqb_spec (sum mod 256) 0) as [Hz|Hnz]; [|reflexivity].
    rewrite Hz. change (256 - 0) with (Z.shiftl 1 8).
    rewrite testbit_one_shifted by lia. rewrite Z.bits_0.
    destruct (Z.eqb_spec (i - 16) 8); [lia | reflexivity].
  - intros i Hi. bits. rewrite Z.shiftl_spec by lia.
    destruct Hi as [Hi|Hi].
    + rewrite (Z.testbit_neg_r _ (i - 16)) by lia. apply orb_false_r.
    + rewrite (testbit_small (256 - sum mod 256) 9 (i - 16)) by lia.
      apply orb_false_r.
  - bits. rewrite Z.shiftl_spec by lia. f_equal.
    change (24 - 16) with 8.
    destruct (Z.eqb_spec (sum mod 256) 0) as [Hz|Hnz].
    + rewrite Hz. reflexivity.
    + apply (testbit_small _ 8); lia.
Qed.

Lemma tsense_reset_checksum_witness :
  exists r1 w1 v54 v55 r2 w2,
    tegra_pmc_init_tsense_reset (run_board quiet_board) tegra124_pmc_soc
      (Some thermtrip_sample) [] =
      Ok tt ([] ++ [(readl PMC PMC_SENSOR_CTRL, r1); (writel PMC w1 PMC_SENSOR_CTRL, 0);
                    (writel PMC v54 PMC_SCRATCH54, 0); (writel PMC v55 PMC_SCRATCH55, 0);
                    (readl PMC PMC_SENSOR_CTRL, r2); (writel PMC w2 PMC_SENSOR_CTRL, 0)])
    /\ (forall i, 16 <= i < 24 -> Z.testbit v55 i = Z.testbit 0x6a (i - 16)).
Proof.
  destruct (tsense_reset_checksum (run_board quiet_board) tegra124_pmc_soc
              thermtrip_sample 4 0x40 0x36 0x80 [] eq_refl eq_refl eq_refl eq_refl
              eq_refl ltac:(lia))
    as (r1 & w1 & v54 & v55 & r2 & w2 & Hrun & Hsum & _).
  exists r1, w1, v54, v55, r2, w2. split; [exact Hrun | exact Hsum].
Defined.

(** ** Registration of the bundles *)

Lemma nth_nil_null (j : nat) : nth j (@nil ptr) NULL = NULL.
Proof. destruct j; reflexivity. Qed.

Lemma nth_array_set (i : nat) :
  forall (arr : list ptr) (v : ptr) (j : nat),
    nth j (array_set arr i v) NULL = if (j =? i)%nat then v else nth j arr NULL.
Proof.
  induction i as [|i IH]; intros [|a arr] v [|j]; cbn [array_set nth Nat.eqb];
    rewrite ?IH; try reflexivity; destruct j; reflexivity.
Qed.

(** The bundle of an array whose first [k] slots are filled with non-null
    handles and whose next slot, if any, is null. *)
Lemma bundle_filled (f : nat -> ptr) :
  forall (k n : nat) (arr : list ptr),
    (k <= n)%nat ->
    (forall j, (j < k)%nat -> nth j arr NULL = f j /\ f j <> NULL) ->
    ((k < n)%nat -> nth k arr NULL = NULL) ->
    bundle n arr = map f (seq 0 k).
Proof.
  intros k. revert f. induction k as [|k IH]; intros f n arr Hk Hfill Hend.
  - cbn [seq map]. destruct n as [|n]; [reflexivity|].
    destruct arr as [|p arr]; [reflexivity|]. cbn [bundle].
    specialize (Hend ltac:(lia)). cbn [nth] in Hend. rewrite Hend. reflexivity.
  - destruct n as [|n]; [lia|].
    destruct (Hfill 0%nat ltac:(lia)) as [H0 Hnz].
    destruct arr as [|p arr]; [cbn in H0; congruence|].
    cbn [nth] in H0. subst p. cbn [bundle seq map].
    destruct (Z.eqb_spec (f 0%nat) NULL) as [|_]; [contradiction|].
    f_equal. rewrite <- seq_shift, map_map.
    apply (IH (fun j => f (S j))); [lia | |].
    + intros j Hj. apply (Hfill (S j)). lia.
    + intros Hlt. apply Hend. lia.
Qed.

Lemma of_get_clks_err_history (i : nat) (arr : list ptr) (t : trace) :
  of_get_clks_err i arr t =
    Ok tt (t ++ all_ok clk_put (rev (map (fun j => nth j arr NULL) (seq 0 i)))).
Proof.
  revert t. induction i as [|i IH]; intros t; cbn [of_get_clks_err].
  - unfold ret. cbn. now rewrite app_nil_r.
  - unfold bind, sys_void. rewrite IH.
    rewrite seq_S, map_app, rev_app_distr. cbn [map rev app all_ok plus].
    rewrite <- app_assoc. reflexivity.
Qed.

Lemma of_get_resets_for_spec (K : more_headers) (get : nat -> ptr) :
  forall (n i : nat) (arr : list ptr) (k : nat),
    (i <= k <= i + n)%nat ->
    (forall j, (i <= j < k)%nat -> IS_ERR (get j) = false) ->
    ((k < i + n)%nat -> IS_ERR (get k) = true) ->
    fst (of_get_resets_for K get n i arr) =
      (if (k =? i + n)%nat || (PTR_ERR (get k) =? - ENOENT K) then 0
       else PTR_ERR (get k))
    /\ forall j, nth j (snd (of_get_resets_for K get n i arr)) NULL =
                   if (i <=? j)%nat && (j <? k)%nat then get j else nth j arr NULL.
Proof.
  induction n as [|n IH]; intros i arr k Hk Hok Hend; cbn [of_get_resets_for].
  - assert (k = i) by lia. subst k. rewrite Nat.add_0_r, Nat.eqb_refl. cbn [orb fst snd].
    split; [reflexivity|]. intros j.
    destruct (Nat.leb_spec i j); destruct (Nat.ltb_spec j i); cbn [andb];
      try reflexivity; lia.
  - destruct (Nat.eq_dec k i) as [->|Hne].
    + rewrite (Hend ltac:(lia)).
      destruct (Nat.eqb_spec i (i + S n)); [lia|]. cbn [orb].
      destruct (PTR_ERR (get i) =? - ENOENT K); cbn [fst snd];
        (split; [reflexivity|]); intros j;
        destruct (Nat.leb_spec i j); destruct (Nat.ltb_spec j i); cbn [andb];
        try reflexivity; lia.
    + rewrite (Hok i ltac:(lia)).
      destruct (IH (S i) (array_set arr i (get i)) k ltac:(lia)) as [Hfst Hnth].
      * intros j Hj. apply Hok. lia.
      * intros Hlt. apply Hend. lia.
      * rewrite Hfst. replace (S i + n)%nat with (i + S n)%nat by lia.
        split; [reflexivity|]. intros j. rewrite Hnth, nth_array_set.
        destruct (Nat.leb_spec (S i) j); destruct (Nat.ltb_spec j k);
          destruct (Nat.leb_spec i j); destruct (Nat.eqb_spec j i);
          cbn [andb]; subst; try reflexivity; lia.
Qed.

Lemma of_get_swgroups_for_spec (H : headers) (K : more_headers) (get : nat -> ptr) :
  forall (n i : nat) (arr : list ptr) (k : nat),
    (i <= k <= i + n)%nat ->
    (forall j, (i <= j < k)%nat -> IS_ERR (get j) || (get j =? NULL) = false) ->
    ((k < i + n)%nat -> IS_ERR (get k) || (get k =? NULL) = true) ->
    fst (of_get_swgroups_for H K get n i arr) =
      (if (k =? i + n)%nat || (PTR_ERR (get k) =? - ENOENT K) then 0
       else - EINVAL H)
    /\ forall j, nth j (snd (of_get_swgroups_for H K get n i arr)) NULL =
                   if (i <=? j)%nat && (j <? k)%nat then get j else nth j arr NULL.
Proof.
  induction n as [|n IH]; intros i arr k Hk Hok Hend; cbn [of_get_swgroups_for].
  - assert (k = i) by lia. subst k. rewrite Nat.add_0_r, Nat.eqb_refl. cbn [orb fst snd].
    split; [reflexivity|]. intros j.
    destruct (Nat.leb_spec i j); destruct (Nat.ltb_spec j i); cbn [andb];
      try reflexivity; lia.
  - destruct (Nat.eq_dec k i) as [->|Hne].
    + rewrite (Hend ltac:(lia)).
      destruct (Nat.eqb_spec i (i + S n)); [lia|]. cbn [orb].
      destruct (PTR_ERR (get i) =? - ENOENT K); cbn [fst snd];
        (split; [reflexivity|]); intros j;
        destruct (Nat.leb_spec i j); destruct (Nat.ltb_spec j i); cbn [andb];
        try reflexivity; lia.
    + rewrite (Hok i ltac:(lia)).
      destruct (IH (S i) (array_set arr i (get i)) k ltac:(lia)) as [Hfst Hnth].
      * intros j Hj. apply Hok. lia.
      * intros Hlt. apply Hend. lia.
      * rewrite Hfst. replace (S i + n)%nat with (i + S n)%nat by lia.
        split; [reflexivity|]. intros j. rewrite Hnth, nth_array_set.
        destruct (Nat.leb_spec (S i) j); destruct (Nat.ltb_spec j k);
          destruct (Nat.leb_spec i j); destruct (Nat.eqb_spec j i);
          cbn [andb]; subst; try reflexivity; lia.
Qed.

Lemma of_get_clks_for_spec (K : more_headers) (get : nat -> ptr) :
  forall (n i : nat) (arr : list ptr) (k : nat) (t : trace),
    (i <= k <= i + n)%nat ->
    (forall j, (i <= j < k)%nat -> IS_ERR (get j) = false) ->
    ((k < i + n)%nat -> IS_ERR (get k) = true) ->
    (forall j, (j < i)%nat -> nth j arr NULL = get j) ->
    let stop := (k =? i + n)%nat || (PTR_ERR (get k) =? - ENOENT K) in
    exists arr',
      of_get_clks_for K get n i arr t =
        Ok (if stop then 0 else PTR_ERR (get k), arr')
           (t ++ if stop then [] else all_ok clk_put (rev (map get (seq 0 k))))
      /\ forall j, nth j arr' NULL =
                     if (i <=? j)%nat && (j <? k)%nat then get j else nth j arr NULL.
Proof.
  induction n as [|n IH]; intros i arr k t Hk Hok Hend Hbefore stop; subst stop;
    cbn [of_get_clks_for].
  - assert (k = i) by lia. subst k. rewrite Nat.add_0_r, Nat.eqb_refl. cbn [orb].
    exists arr. unfold ret. rewrite app_nil_r. split; [reflexivity|]. intros j.
    destruct (Nat.leb_spec i j); destruct (Nat.ltb_spec j i); cbn [andb];
      try reflexivity; lia.
  - destruct (Nat.eq_dec k i) as [->|Hne].
    + rewrite (Hend ltac:(lia)).
      destruct (Nat.eqb_spec i (i + S n)); [lia|]. cbn [orb].
      exists arr.
      assert (Hnth : forall j, nth j arr NULL =
                 if (i <=? j)%nat && (j <? i)%nat then get j else nth j arr NULL).
      { intros j. destruct (Nat.leb_spec i j); destruct (Nat.ltb_spec j i);
          cbn [andb]; try reflexivity; lia. }
      destruct (PTR_ERR (get i) =? - ENOENT K).
      * unfold ret. rewrite app_nil_r. split; [reflexivity | exact Hnth].
      * unfold bind. rewrite of_get_clks_err_history. unfold ret.
        split; [|exact Hnth]. do 4 f_equal. apply map_ext_in.
        intros j Hj. apply in_seq in Hj. apply Hbefore. lia.
    + rewrite (Hok i ltac:(lia)).
      destruct (IH (S i) (array_set arr i (get i)) k t ltac:(lia))
        as (arr' & Hrun & Hnth).
      * intros j Hj. apply Hok. lia.
      * intros Hlt. apply Hend. lia.
      * intros j Hj. rewrite nth_array_set.
        destruct (Nat.eqb_spec j i); [subst; reflexivity | apply Hbefore; lia].
      * exists arr'. replace (i + S n)%nat with (S i + n)%nat by lia.
        split; [exact Hrun|]. intros j. rewrite Hnth, nth_array_set.
        destruct (Nat.leb_spec (S i) j); destruct (Nat.ltb_spec j k);
          destruct (Nat.leb_spec i j); destruct (Nat.eqb_spec j i);
          cbn [andb]; subst; try reflexivity; lia.
Qed.

(** X18: [tegra_powergate_of_get_clks] stores the clocks of the node, in
    index order, in the first slots of the clock array, up to the first
    index at which the lookup fails or to the size of the array.  It
    returns 0 when the array is full or the lookup failed with [-ENOENT],
    and makes no call then; on any other failure it returns the error of
    the lookup after it has released the clocks it had got, the latest
    first.  On a descriptor as it is allocated the clocks that the
    transitions walk are then those of the node, in index order. *)
Theorem of_get_clks_registers (K : more_headers) (get : nat -> ptr)
    (pg : tegra_powergate) (k : nat) (t : trace) :
  (k <= MAX_CLK_NUM)%nat ->
  (forall j, (j < k)%nat -> IS_ERR (get j) = false) ->
  ((k < MAX_CLK_NUM)%nat -> IS_ERR (get k) = true) ->
  let found := map get (seq 0 k) in
  let stop := (k =? MAX_CLK_NUM)%nat || (PTR_ERR (get k) =? - ENOENT K) in
  exists pg',
    tegra_powergate_of_get_clks K get pg t =
      Ok (if stop then 0 else PTR_ERR (get k), pg')
         (t ++ if stop then [] else all_ok clk_put (rev found))
    /\ (forall j, nth j (clk pg') NULL =
                    if (j <? k)%nat then get j else nth j (clk pg) NULL)
    /\ (clk pg = [] -> (forall j, (j < k)%nat -> get j <> NULL) ->
        clocks_of pg' = found).
Proof.
  intros Hk Hok Hend found stop.
  destruct (of_get_clks_for_spec K get MAX_CLK_NUM 0 (clk pg) k t) as (arr' & Hrun & Hnth);
    [lia | intros; apply Hok; lia | exact Hend | intros; lia |].
  cbn [plus] in Hrun.
  exists (set_clk pg arr').
  unfold tegra_powergate_of_get_clks, bind. rewrite Hrun. unfold ret. cbn [fst snd].
  split; [reflexivity|].
  assert (Hnth' : forall j, nth j arr' NULL =
            if (j <? k)%nat then get j else nth j (clk pg) NULL).
  { intros j. rewrite Hnth. reflexivity. }
  split; [exact Hnth'|].
  intros Hfresh Hnn. unfold clocks_of. cbn [clk set_clk].
  apply bundle_filled; [exact Hk | |].
  - intros j Hj. rewrite Hnth'. destruct (Nat.ltb_spec j k); [|lia].
    split; [reflexivity | now apply Hnn].
  - intros _. rewrite Hnth', Nat.ltb_irrefl, Hfresh. apply nth_nil_null.
Qed.

Lemma of_get_clks_registers_witness :
  exists pg',
    tegra_powergate_of_get_clks linux_more_headers third_clock_deferred
      fresh_domain [] =
      Ok (-517, pg') ([] ++ [(clk_put 12, 0); (clk_put 11, 0)])
    /\ (forall j, nth j (clk pg') NULL =
                    if (j <? 2)%nat then third_clock_deferred j
                    else nth j (clk fresh_domain) NULL)
    /\ (clk fresh_domain = [] ->
        (forall j, (j < 2)%nat -> third_clock_deferred j <> NULL) ->
        clocks_of pg' = [11; 12]).
Proof.
  apply (of_get_clks_registers linux_more_headers third_clock_deferred
           fresh_domain 2 []).
  - unfold MAX_CLK_NUM. lia.
  - intros [|[|j]] Hj; [reflexivity | reflexivity | lia].
  - intros _. reflexivity.
Defined.

(** X19: [tegra_powergate_of_get_resets] stores the resets of the node, in
    index order, up to the first index at which the lookup fails or to the
    size of the array; it returns 0 when the array is full or the lookup
    failed with [-ENOENT], else the error of the lookup, and in that case
    the resets already stored stay in the descriptor.  On a descriptor as
    it is allocated the resets that the transitions walk are then those of
    the node, in index order. *)
Theorem of_get_resets_registers (K : more_headers) (get : nat -> ptr)
    (pg : tegra_powergate) (k : nat) :
  (k <= MAX_RESET_NUM)%nat ->
  (forall j, (j < k)%nat -> IS_ERR (get j) = false) ->
  ((k < MAX_RESET_NUM)%nat -> IS_ERR (get k) = true) ->
  let r := tegra_powergate_of_get_resets K get pg in
  fst r = (if (k =? MAX_RESET_NUM)%nat || (PTR_ERR (get k) =? - ENOENT K) then 0
           else PTR_ERR (get k))
  /\ (forall j, nth j (reset (snd r)) NULL =
                  if (j <? k)%nat then get j else nth j (reset pg) NULL)
  /\ (reset pg = [] -> (forall j, (j < k)%nat -> get j <> NULL) ->
      resets_of (snd r) = map get (seq 0 k)).
Proof.
  intros Hk Hok Hend r. subst r.
  destruct (of_get_resets_for_spec K get MAX_RESET_NUM 0 (reset pg) k) as (Hfst & Hnth);
    [lia | intros; apply Hok; lia | exact Hend |].
  unfold tegra_powergate_of_get_resets. cbn [fst snd reset set_reset].
  split; [exact Hfst|].
  assert (Hnth' : forall j,
            nth j (snd (of_get_resets_for K get MAX_RESET_NUM 0 (reset pg))) NULL =
              if (j <? k)%nat then get j else nth j (reset pg) NULL).
  { intros j. rewrite Hnth. reflexivity. }
  split; [exact Hnth'|].
  intros Hfresh Hnn. unfold resets_of. cbn [reset set_reset].
  apply bundle_filled; [exact Hk | |].
  - intros j Hj. rewrite Hnth'. destruct (Nat.ltb_spec j k); [|lia].
    split; [reflexivity | now apply Hnn].
  - intros _. rewrite Hnth', Nat.ltb_irrefl, Hfresh. apply nth_nil_null.
Qed.

Lemma of_get_resets_registers_witness :
  fst (tegra_powergate_of_get_resets linux_more_headers two_clocks fresh_domain) = 0
  /\ resets_of (snd (tegra_powergate_of_get_resets linux_more_headers two_clocks
                       fresh_domain)) = [11; 12].
Proof.
  destruct (of_get_resets_registers linux_more_headers two_clocks fresh_domain 2)
    as (Hfst & _ & Hwalk).
  - unfold MAX_RESET_NUM. lia.
  - intros [|[|j]] Hj; [reflexivity | reflexivity | lia].
  - intros _. reflexivity.
  - split; [exact Hfst|]. apply Hwalk; [reflexivity|].
    intros [|[|j]] Hj; [discriminate | discriminate | lia].
Defined.

(** X20: [tegra_powergate_of_get_swgroups] stores the swgroups of the node,
    in index order, up to the first index at which the lookup gives an
    error or a null pointer, or to the size of the array; it returns 0
    when the array is full or the lookup gave [-ENOENT], and [-EINVAL] for
    a null pointer or any other error, whatever that error was.  On a
    descriptor as it is allocated the swgroups that the transitions walk
    are then those of the node, in index order. *)
Theorem of_get_swgroups_registers (H : headers) (K : more_headers)
    (get : nat -> ptr) (pg : tegra_powergate) (k : nat) :
  (k <= MAX_SWGROUP_NUM)%nat ->
  (forall j, (j < k)%nat -> 0 < get j) ->
  ((k < MAX_SWGROUP_NUM)%nat -> get k <= 0) ->
  let r := tegra_powergate_of_get_swgroups H K get pg in
  fst r = (if (k =? MAX_SWGROUP_NUM)%nat || (PTR_ERR (get k) =? - ENOENT K) then 0
           else - EINVAL H)
  /\ (forall j, nth j (swgroup (snd r)) NULL =
                  if (j <? k)%nat then get j else nth j (swgroup pg) NULL)
  /\ (swgroup pg = [] -> swgroups_of (snd r) = map get (seq 0 k)).
Proof.
  intros Hk Hok Hend r. subst r.
  destruct (of_get_swgroups_for_spec H K get MAX_SWGROUP_NUM 0 (swgroup pg) k)
    as (Hfst & Hnth); [lia | | |].
  { intros j Hj. specialize (Hok j ltac:(lia)). unfold IS_ERR, NULL.
    destruct (Z.ltb_spec (get j) 0); destruct (Z.eqb_spec (get j) 0);
      cbn [orb]; try reflexivity; lia. }
  { intros Hlt. specialize (Hend Hlt). unfold IS_ERR, NULL.
    destruct (Z.ltb_spec (get k) 0); destruct (Z.eqb_spec (get k) 0);
      cbn [orb]; try reflexivity; lia. }
  unfold tegra_powergate_of_get_swgroups. cbn [fst snd swgroup set_swgroup].
  split; [exact Hfst|].
  assert (Hnth' : forall j,
            nth j (snd (of_get_swgroups_for H K get MAX_SWGROUP_NUM 0 (swgroup pg))) NULL =
              if (j <? k)%nat then get j else nth j (swgroup pg) NULL).
  { intros j. rewrite Hnth. reflexivity. }
  split; [exact Hnth'|].
  intros Hfresh. unfold swgroups_of. cbn [swgroup set_swgroup].
  apply bundle_filled; [exact Hk | |].
  - intros j Hj. rewrite Hnth'. destruct (Nat.ltb_spec j k); [|lia].
    split; [reflexivity|]. specialize (Hok j Hj). unfold NULL. lia.
  - intros _. rewrite Hnth', Nat.ltb_irrefl, Hfresh. apply nth_nil_null.
Qed.

Lemma of_get_swgroups_registers_witness :
  fst (tegra_powergate_of_get_swgroups linux_headers linux_more_headers
         third_clock_deferred fresh_domain) = -22
  /\ swgroups_of (snd (tegra_powergate_of_get_swgroups linux_headers
                         linux_more_headers third_clock_deferred fresh_domain))
     = [11; 12].
Proof.
  destruct (of_get_swgroups_registers linux_headers linux_more_headers
              third_clock_deferred fresh_domain 2) as (Hfst & _ & Hwalk).
  - unfold MAX_SWGROUP_NUM. lia.
  - intros [|[|j]] Hj; cbn; lia.
  - intros _. cbn. lia.
  - split; [exact Hfst | exact (Hwalk eq_refl)].
Defined.

(** ** A power-off that succeeds *)

Lemma run_checked_ok (m : M Z) (l : list step) (t t' : trace) :
  run_steps (checked m :: l) t = Ok 0 t' ->
  exists t1, m t = Ok 0 t1 /\ run_steps l t1 = Ok 0 t'.
Proof.
  cbn [run_steps action failed checked]. unfold bind.
  destruct (m t) as [err t1| |]; [| discriminate | discriminate].
  destruct (Z.eqb_spec err 0) as [->|Hne]; cbn [negb].
  - intros Hrest. exists t1. split; [reflexivity | exact Hrest].
  - intros [= -> _]. contradiction.
Qed.

Lemma run_settle (l : list step) (t : trace) :
  run_steps (settle :: l) t = run_steps l (t ++ [(udelay 10, 0)]).
Proof. reflexivity. Qed.

Lemma run_quiet_in_order_void (op : ptr -> call) (ps : list ptr) (l : list step)
    (t : trace) :
  run_steps (quiet (in_order_void op ps) :: l) t = run_steps l (t ++ all_ok op ps).
Proof.
  cbn [run_steps action failed quiet]. unfold bind.
  rewrite in_order_void_history. reflexivity.
Qed.

Lemma in_order_ok (E : env) (op : ptr -> call) (l : list ptr) (t t' : trace) :
  in_order E op l t = Ok 0 t' -> t' = t ++ all_ok op l.
Proof.
  intros Hrun. apply in_order_history in Hrun.
  destruct Hrun as [[_ Ht] | [Hne _]]; [exact Ht | contradiction].
Qed.

Lemma enable_bundle_ok (E : env) (l : list ptr) (t t' : trace) :
  enable_bundle E [] l t = Ok 0 t' -> t' = t ++ all_ok clk_prepare_enable l.
Proof.
  intros Hrun. apply enable_bundle_history in Hrun.
  destruct Hrun as [[_ Ht] | [Hne _]]; [exact Ht | contradiction].
Qed.

(** X21: when [tegra_pmc_powergate_power_off] returns 0 the partition is
    not one of the always-on ones and the history is, in this order: on a
    chip without legacy power gating the clocks enabled and a delay of
    10 us, then the flush of the swgroups and a delay; the resets asserted
    and a delay; on a chip without legacy power gating the clocks disabled,
    in registration order, and a delay; last the regulator disabled, for a
    domain that holds a regulator handle, or else the partition switched
    off through the power-gate primitive.  Every clock that was enabled
    has been disabled. *)
Theorem power_off_success_history (H : headers) (E : env) (soc : tegra_pmc_soc)
    (fuel : nat) (pg : tegra_powergate) (t t' : trace) :
  EINVAL H <> 0 ->
  tegra_pmc_powergate_power_off H E soc fuel pg t = Ok 0 t' ->
  never_turn_off H (id pg) = false
  /\ exists down,
       let before :=
         t ++ (if is_legacy_powergate soc then []
               else all_ok clk_prepare_enable (clocks_of pg) ++ [(udelay 10, 0)]
                    ++ all_ok tegra_mc_flush (swgroups_of pg) ++ [(udelay 10, 0)])
           ++ all_ok reset_control_assert (resets_of pg) ++ [(udelay 10, 0)]
           ++ (if is_legacy_powergate soc then []
               else all_ok clk_disable_unprepare (clocks_of pg) ++ [(udelay 10, 0)]) in
       t' = before ++ down
       /\ if vdd pg =? NULL
          then tegra_pmc_powergate_set H E fuel pg false before = Ok 0 (before ++ down)
          else down = [(regulator_disable (vdd pg), 0)].
Proof.
  intros Hinval. rewrite power_off_follows_steps.
  unfold power_off_by_handle, power_off_sequence.
  destruct (never_turn_off H (id pg)).
  { intros [= Hz _]. lia. }
  intros Hrun. split; [reflexivity|].
  unfold power_off_steps in Hrun.
  assert (Hdown : forall mid,
            run_steps [checked (power_down H E (fun pg => negb (vdd pg =? NULL)) fuel pg)]
              mid = Ok 0 t' ->
            exists down, t' = mid ++ down
              /\ if vdd pg =? NULL
                 then tegra_pmc_powergate_set H E fuel pg false mid = Ok 0 (mid ++ down)
                 else down = [(regulator_disable (vdd pg), 0)]).
  { intros mid Hlast. apply run_checked_ok in Hlast.
    destruct Hlast as (t1 & Hd & [= <-]). unfold power_down in Hd.
    destruct (vdd pg =? NULL); cbn [negb] in Hd.
    - destruct (emits_powergate_set H E fuel pg false _ _ _ Hd) as (down & -> & _).
      exists down. split; [reflexivity | exact Hd].
    - unfold sys in Hd. injection Hd as Hz <-. rewrite Hz.
      eexists. split; reflexivity. }
  destruct (is_legacy_powergate soc); cbn [negb app] in Hrun.
  - apply run_checked_ok in Hrun. destruct Hrun as (t1 & Hassert & Hrun).
    apply in_order_ok in Hassert. subst t1.
    rewrite run_settle in Hrun.
    apply Hdown in Hrun. destruct Hrun as (down & Ht & Hd).
    exists down. cbv zeta. cbn [app].
    repeat rewrite <- app_assoc in *. split; assumption.
  - apply run_checked_ok in Hrun. destruct Hrun as (t1 & Hen & Hrun).
    apply enable_bundle_ok in Hen. subst t1.
    rewrite run_settle in Hrun.
    apply run_checked_ok in Hrun. destruct Hrun as (t1 & Hfl & Hrun).
    apply in_order_ok in Hfl. subst t1.
    rewrite run_settle in Hrun.
    apply run_checked_ok in Hrun. destruct Hrun as (t1 & Hassert & Hrun).
    apply in_order_ok in Hassert. subst t1.
    rewrite run_settle, run_quiet_in_order_void, run_settle in Hrun.
    apply Hdown in Hrun. destruct Hrun as (down & Ht & Hd).
    exists down. cbv zeta.
    repeat rewrite <- app_assoc in *. split; assumption.
Qed.

Lemma power_off_success_history_witness :
  exists down,
    [(clk_prepare_enable 11, 0); (clk_prepare_enable 12, 0); (udelay 10, 0);
     (tegra_mc_flush 31, 0); (udelay 10, 0); (reset_control_assert 21, 0);
     (udelay 10, 0); (clk_disable_unprepare 11, 0); (clk_disable_unprepare 12, 0);
     (udelay 10, 0); (mutex_lock PMC, 0); (readl PMC PWRGATE_STATUS, 2);
     (writel PMC 257 PWRGATE_TOGGLE, 0); (jiffies, 0); (jiffies, 0);
     (readl PMC PWRGATE_STATUS, 0); (mutex_unlock PMC, 0)] =
    [(clk_prepare_enable 11, 0); (clk_prepare_enable 12, 0); (udelay 10, 0);
     (tegra_mc_flush 31, 0); (udelay 10, 0); (reset_control_assert 21, 0);
     (udelay 10, 0); (clk_disable_unprepare 11, 0); (clk_disable_unprepare 12, 0);
     (udelay 10, 0)] ++ down.
Proof.
  destruct (power_off_success_history linux_headers (run_board running_board)
              tegra124_pmc_soc 100 gpu_domain [] _ ltac:(cbn; lia) eq_refl)
    as (_ & down & Ht & _).
  exists down. exact Ht.
Defined.

(** ** The suspend mode *)

(** X22: [tegra_pmc_set_suspend_mode] followed by
    [tegra_pmc_get_suspend_mode] gives the mode back when it is a suspend
    mode, from NONE up to but not including the bound of the enumeration;
    any other value is ignored and the mode read is the one from before.
    Nothing else of the driver state changes either way. *)
Theorem suspend_mode_round_trip (K : more_headers) (pmc : tegra_pmc) (mode : Z) :
  let pmc' := tegra_pmc_set_suspend_mode K pmc mode in
  tegra_pmc_get_suspend_mode pmc' =
    (if (TEGRA_SUSPEND_NONE K <=? mode) && (mode <? TEGRA_MAX_SUSPEND_MODE K)
     then mode else tegra_pmc_get_suspend_mode pmc)
  /\ pmc' = set_suspend_mode pmc (tegra_pmc_get_suspend_mode pmc').
Proof.
  unfold tegra_pmc_set_suspend_mode, tegra_pmc_get_suspend_mode.
  destruct (Z.ltb_spec mode (TEGRA_SUSPEND_NONE K));
    destruct (Z.geb_spec mode (TEGRA_MAX_SUSPEND_MODE K));
    destruct (Z.leb_spec (TEGRA_SUSPEND_NONE K) mode);
    destruct (Z.ltb_spec mode (TEGRA_MAX_SUSPEND_MODE K));
    cbn [orb andb suspend_mode set_suspend_mode]; try lia;
    (split; [reflexivity|]); destruct pmc; reflexivity.
Qed.
